(** * node-saga-pm: workflow-definition validator, transaction store and
      failure handling of the state engine

    A shallow embedding of

    - [workflowDefinition.ts]: the structural validator run by the
      [WorkflowDefinition] constructor ([workflowValidation],
      [validateTasks]);
    - [store/redis/transactionInstance.ts]: [TransactionInstanceRedisStore]
      ([create], [update], [get], [delete]);
    - [bootstrap.ts]: the start-up script;
    - the state engine exercised by [state.test.ts] ([processUpdateTasks]
      and the instance-store wrappers), modelled from the specification
      because [state.ts] and the store wrappers are not among the sources.

    JavaScript effects are made explicit: an object mutated in place is a
    value threaded through the calls, a [throw] is the [Throw] case of
    [Result], the Redis client is the key space it holds, [Date.now()] is an
    argument. *)

From Stdlib Require Import ZArith Lia.
From stdpp Require Import gmap strings list pretty.

Set Warnings "-register-all".

Open Scope string_scope.
Open Scope list_scope.

(** ** JavaScript values *)

Module Js.

(** A value as it comes out of a parsed JSON document; [JsUndefined] is
    what reading an absent property gives. *)
Inductive JsValue :=
| JsUndefined
| JsNull
| JsBoolean (b : bool)
| JsNumber (n : Z)
| JsString (s : string)
| JsArray (items : list JsValue)
| JsObject (fields : list (string * JsValue)).

(** [R.is(Number)] *)
Definition isNumber (v : JsValue) : bool :=
  match v with JsNumber _ => true | _ => false end.

(** [R.is(String)] *)
Definition isString (v : JsValue) : bool :=
  match v with JsString _ => true | _ => false end.

(** Structural comparison of two values. *)
Fixpoint eqb (a b : JsValue) {struct a} : bool :=
  match a, b with
  | JsUndefined, JsUndefined => true
  | JsNull, JsNull => true
  | JsBoolean x, JsBoolean y => Bool.eqb x y
  | JsNumber x, JsNumber y => Z.eqb x y
  | JsString x, JsString y => String.eqb x y
  | JsArray xs, JsArray ys =>
      (fix items (xs ys : list JsValue) {struct xs} : bool :=
         match xs, ys with
         | [], [] => true
         | x :: xs', y :: ys' => eqb x y && items xs' ys'
         | _, _ => false
         end) xs ys
  | JsObject xs, JsObject ys =>
      (fix fields (xs ys : list (string * JsValue)) {struct xs} : bool :=
         match xs, ys with
         | [], [] => true
         | (k, x) :: xs', (k', y) :: ys' =>
             String.eqb k k' && eqb x y && fields xs' ys'
         | _, _ => false
         end) xs ys
  | _, _ => false
  end.

(** The properties every object literal inherits from [Object.prototype];
    reading any of them on [{}] gives a function (or, for [__proto__], the
    prototype object), all of them truthy. *)
Definition ObjectPrototypeKeys : list string :=
  [ "constructor"; "__defineGetter__"; "__defineSetter__"; "hasOwnProperty";
    "__lookupGetter__"; "__lookupSetter__"; "isPrototypeOf";
    "propertyIsEnumerable"; "toString"; "valueOf"; "__proto__";
    "toLocaleString" ].

(** [if (o[key])] for an object literal [o] whose own properties are
    strings: an own property is truthy unless it is the empty string, an
    absent one falls through to [Object.prototype]. *)
Definition truthyProperty (o : gmap string string) (key : string) : bool :=
  match o !! key with
  | Some v => negb (String.eqb v EmptyString)
  | None => bool_decide (key ∈ ObjectPrototypeKeys)
  end.

(** [Array.prototype.join] *)
Fixpoint join (sep : string) (l : list string) : string :=
  match l with
  | [] => EmptyString
  | [s] => s
  | s :: l' => s +:+ sep +:+ join sep l'
  end.

(** [Array.prototype.reduce] with the index passed to the callback. *)
Section Reduce.
Context {A B : Type} (callback : B → A → nat → B).

Fixpoint reduceFrom (index : nat) (acc : B) (l : list A) : B :=
  match l with
  | [] => acc
  | x :: l' => reduceFrom (S index) (callback acc x index) l'
  end.

Definition reduce (initial : B) (l : list A) : B := reduceFrom 0 initial l.
End Reduce.

(** [Array.prototype.includes] *)
Definition includes {A} `{EqDecision A} (l : list A) (x : A) : bool :=
  bool_decide (x ∈ l).

(** A returned value or a thrown error. *)
Inductive Result (E A : Type) :=
| Ok (value : A)
| Throw (error : E).
Arguments Ok {E A} value.
Arguments Throw {E A} error.

End Js.

(** ** States of the three kinds of instance *)

Module State.

Module TaskStates.
Inductive t := Scheduled | Inprogress | Completed | Failed | AckTimeOut | Timeout.
#[global] Instance TaskStates_eq_dec : EqDecision t.
Proof. solve_decision. Defined.
End TaskStates.

Module WorkflowStates.
Inductive t := Running | Paused | Completed | Failed | Cancelled | Timeout.
#[global] Instance WorkflowStates_eq_dec : EqDecision t.
Proof. solve_decision. Defined.
End WorkflowStates.

Module TransactionStates.
Inductive t := Completed | Failed | Running | Paused | Cancelled | Compensated.
#[global] Instance TransactionStates_eq_dec : EqDecision t.
Proof. solve_decision. Defined.
End TransactionStates.

Module WorkflowFailureStrategies.
Inductive t := Failed | Retry | Compensate | CompensateThenRetry | RecoveryWorkflow.
#[global] Instance WorkflowFailureStrategies_eq_dec : EqDecision t.
Proof. solve_decision. Defined.
End WorkflowFailureStrategies.

(** Modelled from the spec: [State.TransactionNextStates] belongs to the
    declaration package, which is not among the sources.  The spec makes
    [Completed], [Failed], [Cancelled] and [Compensated] terminal ("a
    terminal transaction is immutable") and lets a transaction that is
    [Running] or [Paused] move to any status. *)
Definition TransactionNextStates (s : TransactionStates.t) : list TransactionStates.t :=
  match s with
  | TransactionStates.Running | TransactionStates.Paused =>
      [ TransactionStates.Completed; TransactionStates.Failed;
        TransactionStates.Running; TransactionStates.Paused;
        TransactionStates.Cancelled; TransactionStates.Compensated ]
  | _ => []
  end.

(** Modelled from the spec: the workflow counterpart of the table above,
    also of the declaration package: a workflow that is [Running] or
    [Paused] may move to any status, the other statuses are terminal. *)
Definition WorkflowNextStates (s : WorkflowStates.t) : list WorkflowStates.t :=
  match s with
  | WorkflowStates.Running | WorkflowStates.Paused =>
      [ WorkflowStates.Completed; WorkflowStates.Failed; WorkflowStates.Running;
        WorkflowStates.Paused; WorkflowStates.Cancelled; WorkflowStates.Timeout ]
  | _ => []
  end.

(** Modelled from the spec: the task table of section 4.2.  A [Scheduled]
    task may become [Inprogress], [Failed], [AckTimeOut] or [Timeout], and
    [Completed] through a system update only; an [Inprogress] one may become
    [Completed], [Failed] or [Timeout]; nothing leaves a terminal status. *)
Definition isTaskTransitionAllowed (from to : TaskStates.t) (isSystem : bool) : bool :=
  match from, to with
  | TaskStates.Scheduled, TaskStates.Inprogress => true
  | TaskStates.Scheduled, TaskStates.Completed => isSystem
  | TaskStates.Scheduled, (TaskStates.Failed | TaskStates.AckTimeOut | TaskStates.Timeout) => true
  | TaskStates.Inprogress, (TaskStates.Completed | TaskStates.Failed | TaskStates.Timeout) => true
  | _, _ => false
  end.

Definition isTerminalTaskState (s : TaskStates.t) : bool :=
  match s with
  | TaskStates.Scheduled | TaskStates.Inprogress => false
  | _ => true
  end.

(** The statuses after which a transaction no longer changes. *)
Definition isTerminalTransactionState (s : TransactionStates.t) : bool :=
  match s with
  | TransactionStates.Completed | TransactionStates.Failed
  | TransactionStates.Cancelled | TransactionStates.Compensated => true
  | _ => false
  end.

End State.

(** ** workflowDefinition.ts *)

Module workflowDefinition.
Import Js.

(** The type tags of [TaskTypes] and the strategies of [FailureStrategies]
    come from [constants/], which is not among the sources; the four node
    kinds are those of [AllTaskType], the strategies those of the spec. *)
Definition FailureStrategies := State.WorkflowFailureStrategies.t.

(** [overideOptions], of a type declared in [taskDefinition.ts], plays no
    part in the validation and is left out. *)
Record IBaseTask := {
  name : string;
  taskReferenceName : string;
  inputParameters : list (string * JsValue);
}.

Record IWorkflowRef := {
  workflow_name : string;
  workflow_rev : Z;
}.

(** [AllTaskType]: the union of [ITask], [IParallelTask], [ISubWorkflowTask]
    and [IDecisionTask], discriminated by [type].  [decisions] is the object
    in the order [R.toPairs] enumerates it; an absent [decisions],
    [defaultDecision] or [parallelTasks] is the empty list [R.propOr]
    substitutes.  [Other] is a node whose [type] is not in [TaskTypesList]. *)
Inductive AllTaskType :=
| Task (base : IBaseTask)
| Parallel (base : IBaseTask) (parallelTasks : list (list AllTaskType))
| SubWorkflow (base : IBaseTask) (workflow : option IWorkflowRef)
| Decision (base : IBaseTask) (decisions : list (string * list AllTaskType))
    (defaultDecision : list AllTaskType)
| Other (base : IBaseTask) (type : string).

Definition base (task : AllTaskType) : IBaseTask :=
  match task with
  | Task b | Parallel b _ | SubWorkflow b _ | Decision b _ _ | Other b _ => b
  end.

Record IRetry := {
  limit : JsValue;
  delaySecond : JsValue;
}.

Record IRecoveryWorkflow := {
  recoveryWorkflow_name : JsValue;
  recoveryWorkflow_rev : JsValue;
}.

Record IWorkflowDefinition := {
  workflowDefinition_name : string;
  rev : Z;
  description : option string;
  tasks : list AllTaskType;
  failureStrategy : option FailureStrategies;
  retry : option IRetry;
  recoveryWorkflow : option IRecoveryWorkflow;
}.

(** [R.path([outer, inner], workflowDefinition)] for the two optional
    configuration objects. *)
Definition path {A} (outer : option A) (inner : A → JsValue) : JsValue :=
  match outer with
  | Some o => inner o
  | None => JsUndefined
  end.

(** True when the recovery configuration is NOT acceptable (the name in the
    source says the opposite; [workflowValidation] reads it as below). *)
Definition isRecoveryWorkflowConfigValid (workflowDefinition : IWorkflowDefinition) : bool :=
  bool_decide (failureStrategy workflowDefinition
               = Some State.WorkflowFailureStrategies.RecoveryWorkflow)
  && (negb (isString (path (recoveryWorkflow workflowDefinition) recoveryWorkflow_name))
      || negb (isNumber (path (recoveryWorkflow workflowDefinition) recoveryWorkflow_rev))).

(** True when the retry configuration is NOT acceptable. *)
Definition isFailureStrategiesConfigValid (workflowDefinition : IWorkflowDefinition) : bool :=
  bool_decide (failureStrategy workflowDefinition
               = Some State.WorkflowFailureStrategies.Retry)
  && (negb (isNumber (path (retry workflowDefinition) limit))
      || negb (isNumber (path (retry workflowDefinition) delaySecond))).

Definition isEmptyTasks (workflowDefinition : IWorkflowDefinition) : bool :=
  match tasks workflowDefinition with [] => true | _ => false end.

Record TasksValidateOutput := {
  errors : list string;
  taskReferenceNames : gmap string string;
}.

(** [result.errors.push(message)] *)
Definition push (message : string) (result : TasksValidateOutput) : TasksValidateOutput :=
  {| errors := errors result ++ [message];
     taskReferenceNames := taskReferenceNames result |}.

(** [if (condition) result.errors.push(message)] *)
Definition pushIf (condition : bool) (message : string)
    (result : TasksValidateOutput) : TasksValidateOutput :=
  if condition then push message result else result.

(** [result.taskReferenceNames[key] = key] *)
Definition remember (key : string) (result : TasksValidateOutput) : TasksValidateOutput :=
  {| errors := errors result;
     taskReferenceNames := <[key := key]> (taskReferenceNames result) |}.

Definition quote : string := String (Ascii.ascii_of_nat 34) EmptyString.

Section Validation.

(** [isValidName] and [isValidRev] of [utils/common], not among the
    sources. *)
Variable isValidName : string → bool.
Variable isValidRev : JsValue → bool.

(** [R.compose(isValidName, R.pathOr('', ['workflow', 'name']))] *)
Definition isValidWorkflowName (workflow : option IWorkflowRef) : bool :=
  isValidName (match workflow with Some w => workflow_name w | None => EmptyString end).

(** [R.compose(isValidRev, R.path(['workflow', 'rev']))] *)
Definition isValidWorkflowRev (workflow : option IWorkflowRef) : bool :=
  isValidRev (match workflow with Some w => JsNumber (workflow_rev w) | None => JsUndefined end).

(** The part of the reducer of [validateTasks] that looks at the node
    itself, before the switch on its type. *)
Definition validateNode (task : AllTaskType) (currentRoot : string)
    (result : TasksValidateOutput) : TasksValidateOutput :=
  let result :=
    pushIf (negb (isValidName (name (base task))))
      (currentRoot +:+ ".name is invalid") result in
  let result :=
    pushIf (negb (isValidName (taskReferenceName (base task))))
      (currentRoot +:+ ".taskReferenceName is invalid") result in
  let result :=
    if truthyProperty (taskReferenceNames result) (taskReferenceName (base task))
    then push (currentRoot +:+ ".taskReferenceName is duplicated") result
    else remember (taskReferenceName (base task)) result in
  pushIf (match task with Other _ _ => true | _ => false end)
    (currentRoot +:+ ".type is invalid") result.

(** The body of [validateTasks], with the reducer applied to each task left
    open: [tasks.reduce((result, task, index) => ..., defaultResult)], the
    reducer working at [`${root}.tasks[${index}]`]. *)
Definition validateTasksWith
    (reducer : AllTaskType → string → TasksValidateOutput → TasksValidateOutput)
    (tasks : list AllTaskType) (root : string) (defaultResult : TasksValidateOutput)
    : TasksValidateOutput :=
  reduce (fun result task index =>
            reducer task (root +:+ ".tasks[" +:+ pretty index +:+ "]") result)
    defaultResult tasks.

(** The reducer of [validateTasks], applied to one [task] found at
    [currentRoot]; the one [result] object of the source, mutated in place
    and handed down the recursion, is the value threaded here. *)
Fixpoint validateTask (task : AllTaskType) (currentRoot : string)
    (result : TasksValidateOutput) {struct task} : TasksValidateOutput :=
  let result := validateNode task currentRoot result in
  match task with
  | Decision _ decisions defaultDecision =>
      let result :=
        pushIf (match defaultDecision with [] => true | _ => false end)
          (currentRoot +:+ ".defaultDecision cannot be empty") result in
      let defaultDecisionResult :=
        validateTasksWith validateTask defaultDecision
          (currentRoot +:+ ".defaultDecision") result in
      fold_left (fun decisionResult '(decision, decisionTasks) =>
                   validateTasksWith validateTask decisionTasks
                     (currentRoot +:+ ".decisions[" +:+ quote +:+ decision +:+ quote +:+ "]")
                     decisionResult)
        decisions defaultDecisionResult
  | Parallel _ parallelTasks =>
      reduce (fun parallelResult parallelTasks index =>
                validateTasksWith validateTask parallelTasks
                  (currentRoot +:+ ".parallelTasks[" +:+ pretty index +:+ "]")
                  parallelResult)
        result parallelTasks
  | SubWorkflow _ workflow =>
      let result :=
        pushIf (negb (isValidWorkflowName workflow))
          (currentRoot +:+ ".workflow.name is invalid") result in
      pushIf (negb (isValidWorkflowRev workflow))
        (currentRoot +:+ ".workflow.rev is invalid") result
  | _ => result
  end.

Definition validateTasks (tasks : list AllTaskType) (root : string)
    (defaultResult : TasksValidateOutput) : TasksValidateOutput :=
  validateTasksWith validateTask tasks root defaultResult.

Definition workflowValidation (workflowDefinition : IWorkflowDefinition) : list string :=
  let errors : list string := [] in
  let errors :=
    if negb (isValidName (workflowDefinition_name workflowDefinition))
    then errors ++ ["workflowDefinition.name is invalid"] else errors in
  let errors :=
    if negb (isValidRev (JsNumber (rev workflowDefinition)))
    then errors ++ ["workflowDefinition.rev is invalid"] else errors in
  let errors :=
    if isRecoveryWorkflowConfigValid workflowDefinition
    then errors ++ ["workflowDefinition.recoveryWorkflow is invalid"] else errors in
  let errors :=
    if isFailureStrategiesConfigValid workflowDefinition
    then errors ++ ["workflowDefinition.retry is invalid"] else errors in
  let errors :=
    if isEmptyTasks workflowDefinition
    then errors ++ ["workflowDefinition.tasks cannot be empty"] else errors in
  errors.

(** The error list the constructor ends up with. *)
Definition validateTasksResult (workflowDefinition : IWorkflowDefinition) : TasksValidateOutput :=
  validateTasks (tasks workflowDefinition) "workflowDefinition"
    {| errors := workflowValidation workflowDefinition;
       taskReferenceNames := ∅ |}.

(** [new WorkflowDefinition(workflowDefinition)]: throws the error list
    joined by line feeds, or yields the definition, with the default
    description where it has none. *)
Definition WorkflowDefinition (workflowDefinition : IWorkflowDefinition)
    : Result string IWorkflowDefinition :=
  let validateTasksResult := validateTasksResult workflowDefinition in
  match errors validateTasksResult with
  | [] =>
      Ok {| workflowDefinition_name := workflowDefinition_name workflowDefinition;
            rev := rev workflowDefinition;
            description :=
              Some (default "No description" (description workflowDefinition));
            tasks := tasks workflowDefinition;
            failureStrategy := failureStrategy workflowDefinition;
            retry := retry workflowDefinition;
            recoveryWorkflow := recoveryWorkflow workflowDefinition |}
  | _ => Throw (join (String (Ascii.ascii_of_nat 10) EmptyString) (errors validateTasksResult))
  end.

End Validation.

(** Induction over a node and, through the lists, the nodes under it. *)
Section AllTaskType_nested_ind.
Variable P : AllTaskType → Prop.
Hypothesis HTask : ∀ b, P (Task b).
Hypothesis HParallel : ∀ b parallelTasks,
  Forall (Forall P) parallelTasks → P (Parallel b parallelTasks).
Hypothesis HSubWorkflow : ∀ b workflow, P (SubWorkflow b workflow).
Hypothesis HDecision : ∀ b decisions defaultDecision,
  Forall (fun decision => Forall P decision.2) decisions →
  Forall P defaultDecision → P (Decision b decisions defaultDecision).
Hypothesis HOther : ∀ b type, P (Other b type).

Fixpoint AllTaskType_nested_ind (task : AllTaskType) : P task :=
  let lane :=
    fix lane (tasks : list AllTaskType) : Forall P tasks :=
      match tasks with
      | [] => Forall_nil_2 P
      | task :: tasks' => Forall_cons_2 P task tasks' (AllTaskType_nested_ind task) (lane tasks')
      end in
  match task with
  | Task b => HTask b
  | Parallel b parallelTasks =>
      HParallel b parallelTasks
        ((fix lanes (l : list (list AllTaskType)) : Forall (Forall P) l :=
            match l with
            | [] => Forall_nil_2 (Forall P)
            | tasks :: l' => Forall_cons_2 (Forall P) tasks l' (lane tasks) (lanes l')
            end) parallelTasks)
  | SubWorkflow b workflow => HSubWorkflow b workflow
  | Decision b decisions defaultDecision =>
      HDecision b decisions defaultDecision
        ((fix branches (l : list (string * list AllTaskType))
            : Forall (fun decision => Forall P decision.2) l :=
            match l with
            | [] => Forall_nil_2 _
            | decision :: l' =>
                Forall_cons_2 (fun decision => Forall P decision.2) decision l'
                  (lane decision.2) (branches l')
            end) decisions)
        (lane defaultDecision)
  | Other b type => HOther b type
  end.
End AllTaskType_nested_ind.

(** [message] begins with [prefix]. *)
Definition startsWith (prefix message : string) : Prop :=
  ∃ rest, message = prefix +:+ rest.

(** [result'] is [result] with more errors, each beginning with [prefix]. *)
Definition adds (prefix : string) (result result' : TasksValidateOutput) : Prop :=
  ∃ added, errors result' = errors result ++ added ∧ Forall (startsWith prefix) added.

(** The reference names of a node and of the nodes under it, in the order
    in which [validateTasks] meets them: the node, then the default branch
    and the branches of a Decision, or the lanes of a Parallel. *)
Fixpoint referenceNames (task : AllTaskType) : list string :=
  taskReferenceName (base task) ::
  match task with
  | Decision _ decisions defaultDecision =>
      flat_map referenceNames defaultDecision
      ++ flat_map (fun decision => flat_map referenceNames decision.2) decisions
  | Parallel _ parallelTasks => flat_map (flat_map referenceNames) parallelTasks
  | _ => []
  end.

(** The reference names of a whole definition. *)
Definition definitionReferenceNames (workflowDefinition : IWorkflowDefinition)
    : list string :=
  flat_map referenceNames (tasks workflowDefinition).

(** What the test of [validateTasks] on [key] leaves in the object of seen
    names. *)
Definition see (seen : gmap string string) (key : string) : gmap string string :=
  if truthyProperty seen key then seen else <[key := key]> seen.

(** How many of [names], met in this order from the object [seen], the test
    of [validateTasks] takes for a name met before. *)
Fixpoint duplicates (seen : gmap string string) (names : list string) : nat :=
  match names with
  | [] => 0
  | key :: names' =>
      (if truthyProperty seen key then 1 else 0) + duplicates (see seen key) names'
  end.

(** [message] ends with [.taskReferenceName is duplicated]. *)
Definition isDuplicatedError (message : string) : bool :=
  bool_decide (String.list_ascii_of_string ".taskReferenceName is duplicated"
               `suffix_of` String.list_ascii_of_string message).

Definition duplicatedErrors (result : TasksValidateOutput) : list string :=
  filter (fun message => isDuplicatedError message = true) (errors result).

(** [result'] is what the scan of [names] makes of [result]: the object of
    seen names has gone through the test for each of them, and as many
    [... is duplicated] errors were added as the tests that fired. *)
Definition scans (names : list string) (result result' : TasksValidateOutput) : Prop :=
  taskReferenceNames result' = fold_left see names (taskReferenceNames result)
  ∧ length (duplicatedErrors result')
    = (length (duplicatedErrors result) + duplicates (taskReferenceNames result) names)%nat.

(** A reference name that is neither empty nor a property of
    [Object.prototype]. *)
Definition ordinary (key : string) : Prop :=
  key ≠ EmptyString ∧ key ∉ ObjectPrototypeKeys.

(** Every name in the object of seen names is stored under itself. *)
Definition selfMapped (seen : gmap string string) : Prop :=
  ∀ key value, seen !! key = Some value → value = key.

Section Criteria.

Variable isValidName : string → bool.
Variable isValidRev : JsValue → bool.

(** The errors [validateTasks] reports about a node found at [currentRoot]
    for what the node itself is, in the order it reports them; the test for
    a duplicated reference name, which looks at the nodes met before, is
    apart. *)
Definition nodeErrors (task : AllTaskType) (currentRoot : string) : list string :=
  (if isValidName (name (base task)) then []
   else [currentRoot +:+ ".name is invalid"])
  ++ (if isValidName (taskReferenceName (base task)) then []
      else [currentRoot +:+ ".taskReferenceName is invalid"])
  ++ (match task with
      | Other _ _ => [currentRoot +:+ ".type is invalid"]
      | _ => []
      end)
  ++ match task with
     | Decision _ _ [] => [currentRoot +:+ ".defaultDecision cannot be empty"]
     | SubWorkflow _ workflow =>
         (if isValidWorkflowName isValidName workflow then []
          else [currentRoot +:+ ".workflow.name is invalid"])
         ++ (if isValidWorkflowRev isValidRev workflow then []
             else [currentRoot +:+ ".workflow.rev is invalid"])
     | _ => []
     end.

(** How many they are. *)
Definition nodeFaults (task : AllTaskType) : nat :=
  (if isValidName (name (base task)) then 0 else 1)
  + (if isValidName (taskReferenceName (base task)) then 0 else 1)
  + (match task with Other _ _ => 1 | _ => 0 end)
  + match task with
    | Decision _ _ [] => 1
    | SubWorkflow _ workflow =>
        (if isValidWorkflowName isValidName workflow then 0 else 1)
        + (if isValidWorkflowRev isValidRev workflow then 0 else 1)
    | _ => 0
    end.

(** The same for a node and all the nodes under it. *)
Fixpoint faults (task : AllTaskType) : nat :=
  nodeFaults task
  + match task with
    | Decision _ decisions defaultDecision =>
        sum_list_with faults defaultDecision
        + sum_list_with (fun decision => sum_list_with faults decision.2) decisions
    | Parallel _ parallelTasks => sum_list_with (sum_list_with faults) parallelTasks
    | _ => 0
    end.

(** [result'] is [result] after a scan of [names] that reported, besides
    the duplicated names, [count] errors. *)
Definition counts (count : nat) (names : list string)
    (result result' : TasksValidateOutput) : Prop :=
  taskReferenceNames result' = fold_left see names (taskReferenceNames result)
  ∧ length (errors result')
    = (length (errors result) + count + duplicates (taskReferenceNames result) names)%nat.

End Criteria.

(** [nodeIn currentRoot task path node]: [node] is [task], found at
    [currentRoot], or a node under it, and [path] is where [validateTasks]
    finds it: in the default branch or in a branch of a Decision, or in a
    lane of a Parallel. *)
Inductive nodeIn : string → AllTaskType → string → AllTaskType → Prop :=
| nodeIn_self currentRoot task : nodeIn currentRoot task currentRoot task
| nodeIn_defaultDecision currentRoot b decisions defaultDecision index child path node :
    defaultDecision !! index = Some child →
    nodeIn ((currentRoot +:+ ".defaultDecision") +:+ ".tasks[" +:+ pretty index +:+ "]")
      child path node →
    nodeIn currentRoot (Decision b decisions defaultDecision) path node
| nodeIn_decisions currentRoot b decisions defaultDecision decision decisionTasks
    index child path node :
    (decision, decisionTasks) ∈ decisions →
    decisionTasks !! index = Some child →
    nodeIn ((currentRoot +:+ ".decisions[" +:+ quote +:+ decision +:+ quote +:+ "]")
            +:+ ".tasks[" +:+ pretty index +:+ "]")
      child path node →
    nodeIn currentRoot (Decision b decisions defaultDecision) path node
| nodeIn_parallelTasks currentRoot b parallelTasks lane laneTasks index child path node :
    parallelTasks !! lane = Some laneTasks →
    laneTasks !! index = Some child →
    nodeIn ((currentRoot +:+ ".parallelTasks[" +:+ pretty lane +:+ "]")
            +:+ ".tasks[" +:+ pretty index +:+ "]")
      child path node →
    nodeIn currentRoot (Parallel b parallelTasks) path node.

(** [node] is a node of [tasks], found at [path] when the tasks are those
    of [root]. *)
Definition nodeAt (root : string) (tasks : list AllTaskType) (path : string)
    (node : AllTaskType) : Prop :=
  ∃ index task,
    tasks !! index = Some task
    ∧ nodeIn (root +:+ ".tasks[" +:+ pretty index +:+ "]") task path node.

(** [message] is an error about the node found at [path]: one of
    [nodeErrors], or the one for a duplicated reference name. *)
Definition reportedAt (isValidName : string → bool) (isValidRev : JsValue → bool)
    (path : string) (node : AllTaskType) (message : string) : Prop :=
  message ∈ nodeErrors isValidName isValidRev node path
  ∨ message = path +:+ ".taskReferenceName is duplicated".

(** [result'] is [result] with more errors, each of them a [P]. *)
Definition addsOnly (P : string → Prop) (result result' : TasksValidateOutput) : Prop :=
  ∃ added, errors result' = errors result ++ added ∧ Forall P added.

(** A letter, a digit, a dash or an underscore. *)
Definition isNameChar (c : Ascii.ascii) : bool :=
  let n := Ascii.nat_of_ascii c in
  (Nat.leb 48 n && Nat.leb n 57) || (Nat.leb 65 n && Nat.leb n 90)
  || (Nat.leb 97 n && Nat.leb n 122) || Nat.eqb n 45 || Nat.eqb n 95.

(** Modelled from the spec: [isValidName] of [utils/common], which is not
    among the sources; the spec only speaks of "the name regex".  A name is
    taken to be one or more letters, digits, dashes or underscores. *)
Definition isValidName (name : string) : bool :=
  match name with
  | EmptyString => false
  | _ => forallb isNameChar (String.list_ascii_of_string name)
  end.

(** Modelled from the spec: [isValidRev] of [utils/common], which is not
    among the sources; the spec only speaks of "the revision regex".  A
    revision is taken to be a number that is not negative. *)
Definition isValidRev (rev : JsValue) : bool :=
  match rev with
  | JsNumber n => (0 <=? n)%Z
  | _ => false
  end.

End workflowDefinition.

(** ** The declaration package

    Modelled from the spec: the records of [@melonade/melonade-declaration]
    ([WorkflowDefinition], [Task], [Workflow], [Transaction], [Event]) are
    not among the sources; their fields are those of the spec's data model
    and of the objects [state.test.ts] builds and matches. *)

Module Task.

(** Modelled from the spec: [Task.TaskTypes] of the declaration package,
    which is not among the sources. *)
Inductive TaskTypes := Task | Parallel | Decision | SubWorkflow | Compensate | Schedule.
#[global] Instance TaskTypes_eq_dec : EqDecision TaskTypes.
Proof. solve_decision. Defined.

(** Modelled from the spec: [Task.ITask] of the declaration package,
    which is not among the sources. *)
Record ITask := {
  taskId : nat;
  taskName : string;
  taskReferenceName : string;
  workflowId : nat;
  transactionId : string;
  type : TaskTypes;
  status : State.TaskStates.t;
  input : Js.JsValue;
  output : Js.JsValue;
  retries : nat;
  retryLimit : nat;
  retryDelay : nat;
  isRetried : bool;
}.

End Task.

Module WorkflowDefinition.

(** Modelled from the spec: a node of [tasks] in the declaration package,
    which is not among the sources: what the engine needs of it to schedule
    the work. *)
Record ITaskNode := {
  name : string;
  taskReferenceName : string;
  type : Task.TaskTypes;
  inputParameters : Js.JsValue;
  retry_limit : nat;
  retry_delay : nat;
}.

(** Modelled from the spec: [WorkflowDefinition.IWorkflowDefinition] of the declaration package,
    which is not among the sources. *)
Record IWorkflowDefinition := {
  workflowName : string;
  rev : string;
  tasks : list ITaskNode;
  failureStrategy : State.WorkflowFailureStrategies.t;
  retryLimit : nat;
  recoveryWorkflow : option (string * string);
  outputParameters : Js.JsValue;
}.

End WorkflowDefinition.

Module Workflow.

(** Modelled from the spec: [Workflow.WorkflowTypes] of the declaration package,
    which is not among the sources. *)
Inductive WorkflowTypes :=
| Workflow | CompensateWorkflow | CompensateThenRetryWorkflow
| RetryWorkflow | RecoveryWorkflow | SubWorkflow.
#[global] Instance WorkflowTypes_eq_dec : EqDecision WorkflowTypes.
Proof. solve_decision. Defined.

(** Modelled from the spec: [Workflow.IWorkflow] of the declaration package,
    which is not among the sources. *)
Record IWorkflow := {
  workflowId : nat;
  transactionId : string;
  type : WorkflowTypes;
  status : State.WorkflowStates.t;
  workflowDefinition : WorkflowDefinition.IWorkflowDefinition;
  input : Js.JsValue;
  output : Js.JsValue;
  retries : nat;
}.

End Workflow.

Module Transaction.

(** Modelled from the spec: [Transaction.ITransaction] of the declaration package,
    which is not among the sources. *)
Record ITransaction := {
  transactionId : string;
  status : State.TransactionStates.t;
  workflowDefinition : WorkflowDefinition.IWorkflowDefinition;
  input : Js.JsValue;
  output : Js.JsValue;
  createTime : Z;
  endTime : option Z;
}.

End Transaction.

Module Event.

(** Modelled from the spec: [Event.ITransactionUpdate] of the declaration package,
    which is not among the sources. *)
Record ITransactionUpdate := {
  transactionId : string;
  status : State.TransactionStates.t;
  output : Js.JsValue;
}.

(** Modelled from the spec: [Event.ITaskUpdate] of the declaration package,
    which is not among the sources: the wire-level update message of a
    task. *)
Record ITaskUpdate := {
  taskUpdate_transactionId : string;
  taskId : nat;
  taskUpdate_status : State.TaskStates.t;
  taskUpdate_output : Js.JsValue;
  isSystem : bool;
}.

End Event.

(** ** store/redis/transactionInstance.ts *)

Module TransactionInstanceRedisStore.
Import Js.

(** The three [throw new Error(...)] of the class, with the values their
    messages interpolate: [Transaction "<id>" already exists],
    [Transaction "<id>" not found] and
    [Cannot change status of "<id>" from <status> to <status>]. *)
Inductive Error :=
| AlreadyExists (transactionId : string)
| NotFound (transactionId : string)
| CannotChangeStatus (transactionId : string) (from to : State.TransactionStates.t).

(** [this.client]: the keys the store writes hold [JSON.stringify] of a
    transaction and are read back with [JSON.parse]; the key space is kept
    here as the transactions themselves. *)
Abbreviation Client := (gmap string Transaction.ITransaction).

(** [client.setnx(key, value)]: 1 when the key was set, 0 when it exists. *)
Definition setnx (key : string) (value : Transaction.ITransaction) (client : Client)
    : Z * Client :=
  match client !! key with
  | Some _ => (0%Z, client)
  | None => (1%Z, <[key := value]> client)
  end.

(** A call of one of the three methods that write. *)
Inductive Call :=
| CallCreate (transaction : Transaction.ITransaction)
| CallUpdate (now : Z) (transactionUpdate : Event.ITransactionUpdate)
| CallDelete (transactionId : string).

(** The [transactionId] a call is about. *)
Definition target (call : Call) : string :=
  match call with
  | CallCreate transaction => Transaction.transactionId transaction
  | CallUpdate _ transactionUpdate => Event.transactionId transactionUpdate
  | CallDelete transactionId => transactionId
  end.

Section Store.

(** [prefix] of [config], and [State.TransactionNextStates] of the
    declaration package. *)
Variable prefix : string.
Variable TransactionNextStates : State.TransactionStates.t → list State.TransactionStates.t.

(** [`${prefix}.transaction.${transactionId}`] *)
Definition key (transactionId : string) : string :=
  prefix +:+ ".transaction." +:+ transactionId.

Definition create (transaction : Transaction.ITransaction) (client : Client)
    : Result Error Transaction.ITransaction * Client :=
  let '(isSet, client) :=
    setnx (key (Transaction.transactionId transaction)) transaction client in
  if negb (Z.eqb isSet 1)
  then (Throw (AlreadyExists (Transaction.transactionId transaction)), client)
  else (Ok transaction, client).

(** [now] is the value [Date.now()] returns. *)
Definition update (now : Z) (transactionUpdate : Event.ITransactionUpdate) (client : Client)
    : Result Error Transaction.ITransaction * Client :=
  let key := key (Event.transactionId transactionUpdate) in
  match client !! key with
  | None => (Throw (NotFound (Event.transactionId transactionUpdate)), client)
  | Some transaction =>
      if negb (includes (TransactionNextStates (Transaction.status transaction))
                 (Event.status transactionUpdate))
      then (Throw (CannotChangeStatus (Transaction.transactionId transaction)
                     (Transaction.status transaction) (Event.status transactionUpdate)),
            client)
      else
        let updatedTransaction :=
          {| Transaction.transactionId := Transaction.transactionId transaction;
             Transaction.workflowDefinition := Transaction.workflowDefinition transaction;
             Transaction.input := Transaction.input transaction;
             Transaction.createTime := Transaction.createTime transaction;
             Transaction.status := Event.status transactionUpdate;
             Transaction.output := Event.output transactionUpdate;
             Transaction.endTime :=
               if includes [State.TransactionStates.Completed;
                            State.TransactionStates.Failed]
                    (Event.status transactionUpdate)
               then Some now else None |} in
        (Ok updatedTransaction, <[key := updatedTransaction]> client)
  end.

(** [null] is [None]. *)
Definition get (transactionId : string) (client : Client)
    : option Transaction.ITransaction :=
  client !! key transactionId.

Definition delete (transactionId : string) (client : Client) : Client :=
  base.delete (key transactionId) client.

(** The client after a call of [create], [update] or [delete], whether the
    call returned or threw, and after a series of such calls. *)
Definition run (call : Call) (client : Client) : Client :=
  match call with
  | CallCreate transaction => (create transaction client).2
  | CallUpdate now transactionUpdate => (update now transactionUpdate client).2
  | CallDelete transactionId => delete transactionId client
  end.

Definition runAll (calls : list Call) (client : Client) : Client :=
  fold_left (fun client call => run call client) calls client.

(** Every transaction the client holds is kept under the key of its own
    [transactionId]. *)
Definition consistent (client : Client) : Prop :=
  ∀ transactionId transaction,
    get transactionId client = Some transaction →
    Transaction.transactionId transaction = transactionId.

End Store.

End TransactionInstanceRedisStore.

(** ** The state engine

    Modelled from the spec: [state.ts] ([processUpdateTasks]) and the store
    wrappers of [store/index.ts] are not among the sources, only their test
    is.  The model follows sections 4.2 (applying a task update), 4.3
    (failure strategies) and 4.5 (store interface) for workflows that are a
    sequence of task nodes; the order of the effects of one call is the one
    [state.test.ts] observes.  Left out: the traversal of the children of
    Parallel, Decision and SubWorkflow nodes, timers, logs and time stamps.
    Reference resolution (4.4) is a parameter. *)

Module Engine.
Import Js.

Inductive EngineError :=
| TaskNotFound (taskId : nat)
| WorkflowNotFound (workflowId : nat)
| TransactionNotFound (transactionId : string)
| TransactionAlreadyExists (transactionId : string)
| InvalidTransition.

(** What [kafka.sendEvent] is given: a [TRANSACTION], [WORKFLOW] or [TASK]
    event with [isError: false] and the instance as [details], or an error
    event. *)
Inductive AllEvent :=
| TransactionEvent (details : Transaction.ITransaction)
| WorkflowEvent (details : Workflow.IWorkflow)
| TaskEvent (details : Task.ITask)
| ErrorEvent (transactionId : string) (error : EngineError).

Definition isError (event : AllEvent) : bool :=
  match event with ErrorEvent _ _ => true | _ => false end.

(** The store methods [state.test.ts] spies on. *)
Inductive StoreCall :=
| TransactionCreate | TransactionUpdate
| WorkflowCreate | WorkflowUpdate
| TaskCreate | TaskUpdate | TaskReload.
#[global] Instance StoreCall_eq_dec : EqDecision StoreCall.
Proof. solve_decision. Defined.

(** One observable effect of the engine: a call of a spied store method, or
    a call of [kafka.sendEvent] or [kafka.dispatch]. *)
Inductive Effect :=
| Store (call : StoreCall)
| SendEvent (event : AllEvent)
| Dispatch (task : Task.ITask) (transactionId : string) (isSystem : bool).

Record Stores := {
  transactionInstances : gmap string Transaction.ITransaction;
  workflowInstances : gmap nat Workflow.IWorkflow;
  taskInstances : list Task.ITask;
  workflowDefinitions : gmap (string * string) WorkflowDefinition.IWorkflowDefinition;
  nextId : nat;
}.

(** A computation over the stores that records its effects in order. *)
Definition M (A : Type) : Type := Stores → A * Stores * list Effect.

Definition ret {A} (a : A) : M A := fun stores => (a, stores, []).

Definition bind {A B} (m : M A) (k : A → M B) : M B :=
  fun stores =>
    let '(a, stores1, effects1) := m stores in
    let '(b, stores2, effects2) := k a stores1 in
    (b, stores2, effects1 ++ effects2).

Notation "'do' x <- m ; k" := (bind m (fun x => k))
  (at level 10, x name, m at level 100, k at level 200).
Notation "'exec' m ; k" := (bind m (fun _ => k))
  (at level 10, m at level 100, k at level 200).

Definition effect (e : Effect) : M unit := fun stores => (tt, stores, [e]).
Definition sendEvent (event : AllEvent) : M unit := effect (SendEvent event).
Definition dispatch (task : Task.ITask) (transactionId : string) (isSystem : bool) : M unit :=
  effect (Dispatch task transactionId isSystem).

Definition getStores : M Stores := fun stores => (stores, stores, []).

(** The stores after one of them changed. *)
Definition mapTransactionInstances
    (f : gmap string Transaction.ITransaction → gmap string Transaction.ITransaction)
    (stores : Stores) : Stores :=
  {| transactionInstances := f (transactionInstances stores);
     workflowInstances := workflowInstances stores;
     taskInstances := taskInstances stores;
     workflowDefinitions := workflowDefinitions stores;
     nextId := nextId stores |}.

Definition mapWorkflowInstances
    (f : gmap nat Workflow.IWorkflow → gmap nat Workflow.IWorkflow)
    (stores : Stores) : Stores :=
  {| transactionInstances := transactionInstances stores;
     workflowInstances := f (workflowInstances stores);
     taskInstances := taskInstances stores;
     workflowDefinitions := workflowDefinitions stores;
     nextId := nextId stores |}.

Definition mapTaskInstances (f : list Task.ITask → list Task.ITask)
    (stores : Stores) : Stores :=
  {| transactionInstances := transactionInstances stores;
     workflowInstances := workflowInstances stores;
     taskInstances := f (taskInstances stores);
     workflowDefinitions := workflowDefinitions stores;
     nextId := nextId stores |}.

Definition allocated (stores : Stores) : Stores :=
  {| transactionInstances := transactionInstances stores;
     workflowInstances := workflowInstances stores;
     taskInstances := taskInstances stores;
     workflowDefinitions := workflowDefinitions stores;
     nextId := S (nextId stores) |}.

(** A fresh [taskId] or [workflowId]. *)
Definition freshId : M nat :=
  fun stores => (nextId stores, allocated stores, []).

Definition setTransactionInstances
    (f : gmap string Transaction.ITransaction → gmap string Transaction.ITransaction)
    : M unit :=
  fun stores => (tt, mapTransactionInstances f stores, []).

Definition setWorkflowInstances
    (f : gmap nat Workflow.IWorkflow → gmap nat Workflow.IWorkflow) : M unit :=
  fun stores => (tt, mapWorkflowInstances f stores, []).

Definition setTaskInstances (f : list Task.ITask → list Task.ITask) : M unit :=
  fun stores => (tt, mapTaskInstances f stores, []).

(** *** Pure helpers *)

Definition withTaskStatus (task : Task.ITask) (status : State.TaskStates.t)
    (output : JsValue) : Task.ITask :=
  {| Task.taskId := Task.taskId task;
     Task.taskName := Task.taskName task;
     Task.taskReferenceName := Task.taskReferenceName task;
     Task.workflowId := Task.workflowId task;
     Task.transactionId := Task.transactionId task;
     Task.type := Task.type task;
     Task.status := status;
     Task.input := Task.input task;
     Task.output := output;
     Task.retries := Task.retries task;
     Task.retryLimit := Task.retryLimit task;
     Task.retryDelay := Task.retryDelay task;
     Task.isRetried := Task.isRetried task |}.

(** Modelled from the spec: [state.ts] is not among the sources.
    The instance that takes the place of [task] when it is retried. *)
Definition retriedTask (task : Task.ITask) (taskId : nat) : Task.ITask :=
  {| Task.taskId := taskId;
     Task.taskName := Task.taskName task;
     Task.taskReferenceName := Task.taskReferenceName task;
     Task.workflowId := Task.workflowId task;
     Task.transactionId := Task.transactionId task;
     Task.type := Task.type task;
     Task.status := State.TaskStates.Scheduled;
     Task.input := Task.input task;
     Task.output := JsUndefined;
     Task.retries := S (Task.retries task);
     Task.retryLimit := Task.retryLimit task;
     Task.retryDelay := Task.retryDelay task;
     Task.isRetried := true |}.

Definition withWorkflowStatus (workflow : Workflow.IWorkflow)
    (status : State.WorkflowStates.t) (output : JsValue) : Workflow.IWorkflow :=
  {| Workflow.workflowId := Workflow.workflowId workflow;
     Workflow.transactionId := Workflow.transactionId workflow;
     Workflow.type := Workflow.type workflow;
     Workflow.status := status;
     Workflow.workflowDefinition := Workflow.workflowDefinition workflow;
     Workflow.input := Workflow.input workflow;
     Workflow.output := output;
     Workflow.retries := Workflow.retries workflow |}.

(** Modelled from the spec: [state.ts] is not among the sources.
    A new [Running] workflow instance. *)
Definition newWorkflow (workflowId : nat) (transactionId : string)
    (type : Workflow.WorkflowTypes)
    (definition : WorkflowDefinition.IWorkflowDefinition) (input : JsValue)
    (retries : nat) : Workflow.IWorkflow :=
  {| Workflow.workflowId := workflowId;
     Workflow.transactionId := transactionId;
     Workflow.type := type;
     Workflow.status := State.WorkflowStates.Running;
     Workflow.workflowDefinition := definition;
     Workflow.input := input;
     Workflow.output := JsUndefined;
     Workflow.retries := retries |}.

(** Tasks run by a worker are dispatched with [isSystem = false]. *)
Definition isSystemTask (type : Task.TaskTypes) : bool :=
  match type with
  | Task.Task | Task.Compensate => false
  | _ => true
  end.

Definition findTask (taskId : nat) (tasks : list Task.ITask) : option Task.ITask :=
  find (fun task => Nat.eqb (Task.taskId task) taskId) tasks.

(** Puts [replacement] in the slot of the instance [taskId]. *)
Definition replaceTask (taskId : nat) (replacement : Task.ITask)
    (tasks : list Task.ITask) : list Task.ITask :=
  map (fun task => if Nat.eqb (Task.taskId task) taskId then replacement else task) tasks.

(** Modelled from the spec: [state.ts] is not among the sources.
    Sequence traversal: the sibling that follows the node
    [taskReferenceName] in [tasks]. *)
Fixpoint nextTaskNode (tasks : list WorkflowDefinition.ITaskNode) (taskReferenceName : string)
    : option WorkflowDefinition.ITaskNode :=
  match tasks with
  | [] => None
  | node :: tasks' =>
      if String.eqb (WorkflowDefinition.taskReferenceName node) taskReferenceName
      then head tasks'
      else nextTaskNode tasks' taskReferenceName
  end.

(** Modelled from the spec: [state.ts] is not among the sources.
    The tasks of [workflowId] a compensation undoes: those that are
    [Completed], Decision and Parallel container nodes apart. *)
Definition isCompensable (workflowId : nat) (task : Task.ITask) : bool :=
  Nat.eqb (Task.workflowId task) workflowId
  && bool_decide (Task.status task = State.TaskStates.Completed)
  && negb (bool_decide (Task.type task = Task.Decision))
  && negb (bool_decide (Task.type task = Task.Parallel)).

(** Modelled from the spec: [state.ts] is not among the sources.
    The [Compensate] node that undoes [task]: same name and reference name,
    the output of [task] as input, no retry. *)
Definition compensateNode (task : Task.ITask) : WorkflowDefinition.ITaskNode :=
  {| WorkflowDefinition.name := Task.taskName task;
     WorkflowDefinition.taskReferenceName := Task.taskReferenceName task;
     WorkflowDefinition.type := Task.Compensate;
     WorkflowDefinition.inputParameters := Task.output task;
     WorkflowDefinition.retry_limit := 0;
     WorkflowDefinition.retry_delay := 0 |}.

Definition compensateTasks (workflowId : nat) (tasks : list Task.ITask)
    : list WorkflowDefinition.ITaskNode :=
  map compensateNode (rev (filter (fun task => isCompensable workflowId task = true) tasks)).

(** Modelled from the spec: [state.ts] is not among the sources.
    The definition of the workflow that compensates [workflow]. *)
Definition compensateDefinition (workflow : Workflow.IWorkflow) (tasks : list Task.ITask)
    : WorkflowDefinition.IWorkflowDefinition :=
  let definition := Workflow.workflowDefinition workflow in
  {| WorkflowDefinition.workflowName := WorkflowDefinition.workflowName definition;
     WorkflowDefinition.rev := WorkflowDefinition.rev definition;
     WorkflowDefinition.tasks := compensateTasks (Workflow.workflowId workflow) tasks;
     WorkflowDefinition.failureStrategy := State.WorkflowFailureStrategies.Failed;
     WorkflowDefinition.retryLimit := 0;
     WorkflowDefinition.recoveryWorkflow := None;
     WorkflowDefinition.outputParameters := JsUndefined |}.

(** The update a worker posts for [task]. *)
Definition workerUpdate (task : Task.ITask) (status : State.TaskStates.t)
    : Event.ITaskUpdate :=
  {| Event.taskUpdate_transactionId := Task.transactionId task;
     Event.taskId := Task.taskId task;
     Event.taskUpdate_status := status;
     Event.taskUpdate_output := JsUndefined;
     Event.isSystem := false |}.

(** *** The store wrappers and the engine *)

Section Operations.

(** Reference resolution (section 4.4): the input of the task created for a
    node, and the output of a completed workflow, from the tasks so far. *)
Variable resolveInput :
  Workflow.IWorkflow → list Task.ITask → WorkflowDefinition.ITaskNode → JsValue.
Variable resolveOutput : Workflow.IWorkflow → list Task.ITask → JsValue.

(** The reading of the clock during the call. *)
Variable now : Z.

(** Modelled from the spec: [state.ts] is not among the sources.
    The [Scheduled] instance of [node] in [workflow]; [tasks] are the tasks
    so far.  A [Compensate] node carries its input literally. *)
Definition newTask (workflow : Workflow.IWorkflow) (node : WorkflowDefinition.ITaskNode)
    (taskId : nat) (tasks : list Task.ITask) : Task.ITask :=
  {| Task.taskId := taskId;
     Task.taskName := WorkflowDefinition.name node;
     Task.taskReferenceName := WorkflowDefinition.taskReferenceName node;
     Task.workflowId := Workflow.workflowId workflow;
     Task.transactionId := Workflow.transactionId workflow;
     Task.type := WorkflowDefinition.type node;
     Task.status := State.TaskStates.Scheduled;
     Task.input :=
       match WorkflowDefinition.type node with
       | Task.Compensate => WorkflowDefinition.inputParameters node
       | _ => resolveInput workflow tasks node
       end;
     Task.output := JsUndefined;
     Task.retries := 0;
     Task.retryLimit := WorkflowDefinition.retry_limit node;
     Task.retryDelay := WorkflowDefinition.retry_delay node;
     Task.isRetried := false |}.

(** Modelled from the spec: [state.ts] is not among the sources.
    [taskInstanceStore.create]: the new instance is stored, dispatched and
    announced. *)
Definition createTask (workflow : Workflow.IWorkflow) (node : WorkflowDefinition.ITaskNode)
    : M unit :=
  do taskId <- freshId;
  do stores <- getStores;
  let task := newTask workflow node taskId (taskInstances stores) in
  exec effect (Store TaskCreate);
  exec setTaskInstances (fun tasks => tasks ++ [task]);
  exec dispatch task (Workflow.transactionId workflow)
         (isSystemTask (WorkflowDefinition.type node));
  sendEvent (TaskEvent task).

(** Modelled from the spec: [state.ts] is not among the sources.
    [taskInstanceStore.reload]: the retry of [task] takes its slot under a
    new [taskId]. *)
Definition reloadTask (task : Task.ITask) : M unit :=
  do taskId <- freshId;
  let retried := retriedTask task taskId in
  exec effect (Store TaskReload);
  exec setTaskInstances (replaceTask (Task.taskId task) retried);
  exec dispatch retried (Task.transactionId task) (isSystemTask (Task.type task));
  sendEvent (TaskEvent retried).

(** Modelled from the spec: [state.ts] is not among the sources.
    The transaction with its new status and output; [endTime] is set on the
    terminal statuses. *)
Definition updatedTransaction (transaction : Transaction.ITransaction)
    (status : State.TransactionStates.t) (output : JsValue) : Transaction.ITransaction :=
  {| Transaction.transactionId := Transaction.transactionId transaction;
     Transaction.status := status;
     Transaction.workflowDefinition := Transaction.workflowDefinition transaction;
     Transaction.input := Transaction.input transaction;
     Transaction.output := output;
     Transaction.createTime := Transaction.createTime transaction;
     Transaction.endTime :=
       if State.isTerminalTransactionState status then Some now else None |}.

(** Modelled from the spec: [state.ts] is not among the sources.
    [transactionInstanceStore.update] *)
Definition updateTransaction (transactionId : string)
    (status : State.TransactionStates.t) (output : JsValue) : M unit :=
  exec effect (Store TransactionUpdate);
  do stores <- getStores;
  match transactionInstances stores !! transactionId with
  | None => sendEvent (ErrorEvent transactionId (TransactionNotFound transactionId))
  | Some transaction =>
      if includes (State.TransactionNextStates (Transaction.status transaction)) status
      then
        let updated := updatedTransaction transaction status output in
        exec setTransactionInstances (insert transactionId updated);
        sendEvent (TransactionEvent updated)
      else sendEvent (ErrorEvent transactionId InvalidTransition)
  end.

(** Modelled from the spec: [state.ts] is not among the sources.
    [workflowInstanceStore.update]; tells whether the update went through. *)
Definition updateWorkflow (workflow : Workflow.IWorkflow)
    (status : State.WorkflowStates.t) (output : JsValue) : M bool :=
  exec effect (Store WorkflowUpdate);
  do stores <- getStores;
  match workflowInstances stores !! Workflow.workflowId workflow with
  | None =>
      exec sendEvent (ErrorEvent (Workflow.transactionId workflow)
                        (WorkflowNotFound (Workflow.workflowId workflow)));
      ret false
  | Some current =>
      if includes (State.WorkflowNextStates (Workflow.status current)) status
      then
        let updated := withWorkflowStatus current status output in
        exec setWorkflowInstances (insert (Workflow.workflowId workflow) updated);
        exec sendEvent (WorkflowEvent updated);
        ret true
      else
        exec sendEvent (ErrorEvent (Workflow.transactionId workflow) InvalidTransition);
        ret false
  end.

(** Modelled from the spec: [state.ts] is not among the sources.
    [workflowInstanceStore.create]: a [Running] instance and its first task;
    [onEmpty] is what happens to an instance without tasks. *)
Definition createWorkflowWith (onEmpty : Workflow.IWorkflow → M unit)
    (transactionId : string) (type : Workflow.WorkflowTypes)
    (definition : WorkflowDefinition.IWorkflowDefinition) (input : JsValue)
    (retries : nat) : M unit :=
  do workflowId <- freshId;
  let workflow := newWorkflow workflowId transactionId type definition input retries in
  exec effect (Store WorkflowCreate);
  exec setWorkflowInstances (insert workflowId workflow);
  exec sendEvent (WorkflowEvent workflow);
  match WorkflowDefinition.tasks definition with
  | node :: _ => createTask workflow node
  | [] => onEmpty workflow
  end.

(** Modelled from the spec: [state.ts] is not among the sources.
    The end of a workflow that ends its transaction: the workflow is
    [Completed]; the transaction is [Compensated] after a compensation and
    [Completed] otherwise. *)
Definition finishWorkflow (workflow : Workflow.IWorkflow) : M unit :=
  do stores <- getStores;
  let output := resolveOutput workflow (taskInstances stores) in
  do updated <- updateWorkflow workflow State.WorkflowStates.Completed output;
  if updated
  then
    match Workflow.type workflow with
    | Workflow.CompensateWorkflow =>
        updateTransaction (Workflow.transactionId workflow)
          State.TransactionStates.Compensated JsUndefined
    | _ =>
        updateTransaction (Workflow.transactionId workflow)
          State.TransactionStates.Completed output
    end
  else ret tt.

(** Modelled from the spec: [state.ts] is not among the sources.
    The end of a workflow whose last task completed.  After a
    [CompensateThenRetryWorkflow] the original definition is run afresh and
    the transaction stays [Running]. *)
Definition completeWorkflow (workflow : Workflow.IWorkflow) : M unit :=
  match Workflow.type workflow with
  | Workflow.CompensateThenRetryWorkflow =>
      do updated <- updateWorkflow workflow State.WorkflowStates.Completed JsUndefined;
      if updated
      then
        do stores <- getStores;
        match transactionInstances stores !! Workflow.transactionId workflow with
        | Some transaction =>
            createWorkflowWith finishWorkflow (Workflow.transactionId workflow)
              Workflow.Workflow (Transaction.workflowDefinition transaction)
              (Transaction.input transaction) 0
        | None =>
            sendEvent (ErrorEvent (Workflow.transactionId workflow)
                         (TransactionNotFound (Workflow.transactionId workflow)))
        end
      else ret tt
  | _ => finishWorkflow workflow
  end.

Definition createWorkflow := createWorkflowWith completeWorkflow.

Definition failTransaction (transactionId : string) : M unit :=
  updateTransaction transactionId State.TransactionStates.Failed JsUndefined.

(** Modelled from the spec: [state.ts] is not among the sources.
    Section 4.3, retries exhausted: the workflow is marked [Failed] and the
    strategy of its definition is applied. *)
Definition handleFailedWorkflow (workflow : Workflow.IWorkflow) : M unit :=
  do updated <- updateWorkflow workflow State.WorkflowStates.Failed JsUndefined;
  if updated
  then
    do stores <- getStores;
    let definition := Workflow.workflowDefinition workflow in
    let transactionId := Workflow.transactionId workflow in
    match WorkflowDefinition.failureStrategy definition with
    | State.WorkflowFailureStrategies.Failed => failTransaction transactionId
    | State.WorkflowFailureStrategies.Retry =>
        if Nat.ltb (Workflow.retries workflow) (WorkflowDefinition.retryLimit definition)
        then createWorkflow transactionId Workflow.RetryWorkflow definition
               (Workflow.input workflow) (S (Workflow.retries workflow))
        else failTransaction transactionId
    | State.WorkflowFailureStrategies.Compensate =>
        createWorkflow transactionId Workflow.CompensateWorkflow
          (compensateDefinition workflow (taskInstances stores))
          (Workflow.input workflow) 0
    | State.WorkflowFailureStrategies.CompensateThenRetry =>
        createWorkflow transactionId Workflow.CompensateThenRetryWorkflow
          (compensateDefinition workflow (taskInstances stores))
          (Workflow.input workflow) 0
    | State.WorkflowFailureStrategies.RecoveryWorkflow =>
        match WorkflowDefinition.recoveryWorkflow definition
                ≫= (fun nameRev => workflowDefinitions stores !! nameRev) with
        | Some recovery =>
            createWorkflow transactionId Workflow.RecoveryWorkflow recovery
              (Workflow.input workflow) 0
        | None => failTransaction transactionId
        end
    end
  else ret tt.

(** Runs [k] on the workflow instance of [task]. *)
Definition withWorkflowOf (task : Task.ITask) (k : Workflow.IWorkflow → M unit) : M unit :=
  do stores <- getStores;
  match workflowInstances stores !! Task.workflowId task with
  | Some workflow => k workflow
  | None =>
      sendEvent (ErrorEvent (Task.transactionId task) (WorkflowNotFound (Task.workflowId task)))
  end.

(** Modelled from the spec: [state.ts] is not among the sources.
    Section 4.2, advancing a workflow after [task] completed. *)
Definition handleCompletedTask (task : Task.ITask) : M unit :=
  withWorkflowOf task (fun workflow =>
    match nextTaskNode (WorkflowDefinition.tasks (Workflow.workflowDefinition workflow))
            (Task.taskReferenceName task) with
    | Some node => createTask workflow node
    | None => completeWorkflow workflow
    end).

(** Modelled from the spec: [state.ts] is not among the sources.
    Section 4.3: task-level retry first, then the workflow's strategy. *)
Definition handleFailedTask (task : Task.ITask) : M unit :=
  if Nat.ltb (Task.retries task) (Task.retryLimit task)
  then reloadTask task
  else withWorkflowOf task handleFailedWorkflow.

(** Modelled from the spec: [state.ts] is not among the sources.
    The statuses a worker may post from [Scheduled] that imply the task was
    in progress; the [Inprogress] event is then emitted first. *)
Definition impliesInprogress (from to : State.TaskStates.t) : bool :=
  match from, to with
  | State.TaskStates.Scheduled,
    (State.TaskStates.Completed | State.TaskStates.Failed | State.TaskStates.Timeout) => true
  | _, _ => false
  end.

(** Modelled from the spec: [state.ts] is not among the sources.
    Section 4.2: one update. *)
Definition processUpdateTask (update : Event.ITaskUpdate) : M unit :=
  let transactionId := Event.taskUpdate_transactionId update in
  let status := Event.taskUpdate_status update in
  do stores <- getStores;
  match findTask (Event.taskId update) (taskInstances stores) with
  | None => sendEvent (ErrorEvent transactionId (TaskNotFound (Event.taskId update)))
  | Some task =>
      if negb (String.eqb (Task.transactionId task) transactionId)
      then sendEvent (ErrorEvent transactionId (TaskNotFound (Event.taskId update)))
      else if bool_decide (status = Task.status task)
      then
        if Js.eqb (Event.taskUpdate_output update) (Task.output task)
        then ret tt
        else sendEvent (ErrorEvent transactionId InvalidTransition)
      else if negb (State.isTaskTransitionAllowed (Task.status task) status
                      (Event.isSystem update))
      then sendEvent (ErrorEvent transactionId InvalidTransition)
      else
        let updated := withTaskStatus task status (Event.taskUpdate_output update) in
        exec effect (Store TaskUpdate);
        exec setTaskInstances (replaceTask (Task.taskId task) updated);
        exec (if impliesInprogress (Task.status task) status
              then sendEvent (TaskEvent (withTaskStatus task State.TaskStates.Inprogress
                                           (Task.output task)))
              else ret tt);
        exec sendEvent (TaskEvent updated);
        match status with
        | State.TaskStates.Completed => handleCompletedTask updated
        | State.TaskStates.Failed | State.TaskStates.AckTimeOut
        | State.TaskStates.Timeout => handleFailedTask updated
        | _ => ret tt
        end
  end.

Fixpoint processUpdateTasks (updates : list Event.ITaskUpdate) : M unit :=
  match updates with
  | [] => ret tt
  | update :: updates' =>
      exec processUpdateTask update;
      processUpdateTasks updates'
  end.

(** Modelled from the spec: [state.ts] is not among the sources.
    [transactionInstanceStore.create(transactionId, workflowDefinition,
    input)]: the transaction, its workflow and the first task. *)
Definition startTransaction (transactionId : string)
    (definition : WorkflowDefinition.IWorkflowDefinition) (input : JsValue) : M unit :=
  exec effect (Store TransactionCreate);
  do stores <- getStores;
  match transactionInstances stores !! transactionId with
  | Some _ => sendEvent (ErrorEvent transactionId (TransactionAlreadyExists transactionId))
  | None =>
      let transaction :=
        {| Transaction.transactionId := transactionId;
           Transaction.status := State.TransactionStates.Running;
           Transaction.workflowDefinition := definition;
           Transaction.input := input;
           Transaction.output := JsUndefined;
           Transaction.createTime := now;
           Transaction.endTime := None |} in
      exec setTransactionInstances (insert transactionId transaction);
      exec sendEvent (TransactionEvent transaction);
      createWorkflow transactionId Workflow.Workflow definition input 0
  end.

(** [updateTask] of [state.test.ts]: the worker acknowledges [currentTask],
    then reports [status]. *)
Definition updateTask (currentTask : Task.ITask) (status : State.TaskStates.t) : M unit :=
  exec processUpdateTasks [workerUpdate currentTask State.TaskStates.Inprogress];
  processUpdateTasks [workerUpdate currentTask status].

End Operations.

(** *** Reading the effects of a call, as the test reads its mocks *)

Definition dispatchedTask (e : Effect) : option Task.ITask :=
  match e with Dispatch task _ _ => Some task | _ => None end.

(** [mockedDispatch.mock.calls]: the tasks dispatched, in order. *)
Definition dispatched (effects : list Effect) : list Task.ITask :=
  omap dispatchedTask effects.

Definition sentEvent (e : Effect) : option AllEvent :=
  match e with SendEvent event => Some event | _ => None end.

(** [mockedSendEvent.mock.calls]: the events sent, in order. *)
Definition sentEvents (effects : list Effect) : list AllEvent :=
  omap sentEvent effects.

Definition isStoreCall (call : StoreCall) (e : Effect) : bool :=
  match e with Store c => bool_decide (c = call) | _ => false end.

(** [toBeCalledTimes] of a store spy. *)
Definition calledTimes (call : StoreCall) (effects : list Effect) : nat :=
  length (filter (fun e => isStoreCall call e = true) effects).


(** The worker of [state.test.ts]: round after round it answers the task
    that was dispatched last ([mockedDispatch.mock.calls[0][0]]) with the
    next status of [statuses], until nothing is dispatched.  Returns the
    stores at the end and the effects of each round. *)
Fixpoint workerRounds
    (resolveInput : Workflow.IWorkflow → list Task.ITask →
                    WorkflowDefinition.ITaskNode → JsValue)
    (resolveOutput : Workflow.IWorkflow → list Task.ITask → JsValue) (now : Z)
    (statuses : list State.TaskStates.t) (currentTask : option Task.ITask)
    (stores : Stores) : Stores * list (list Effect) :=
  match statuses, currentTask with
  | status :: statuses', Some task =>
      let '(_, stores1, effects) :=
        updateTask resolveInput resolveOutput now task status stores in
      let '(stores2, rounds) :=
        workerRounds resolveInput resolveOutput now statuses'
          (head (dispatched effects)) stores1 in
      (stores2, effects :: rounds)
  | _, _ => (stores, [])
  end.

(** Task ids are unique and below the next fresh id. *)
Definition taskIdsFresh (stores : Stores) : Prop :=
  NoDup (map Task.taskId (taskInstances stores))
  ∧ ∀ task, task ∈ taskInstances stores → Task.taskId task < nextId stores.

(** [task] is the [Scheduled] task a worker is about to answer: it is
    stored, its workflow [workflow] is stored and [Running], and so is its
    transaction. *)
Record Live (stores : Stores) (task : Task.ITask) (workflow : Workflow.IWorkflow)
    (transaction : Transaction.ITransaction) : Prop := {
  live_fresh : taskIdsFresh stores;
  live_task : findTask (Task.taskId task) (taskInstances stores) = Some task;
  live_scheduled : Task.status task = State.TaskStates.Scheduled;
  live_workflow : workflowInstances stores !! Task.workflowId task = Some workflow;
  live_workflowId : Workflow.workflowId workflow = Task.workflowId task;
  live_workflow_fresh : Task.workflowId task < nextId stores;
  live_running : Workflow.status workflow = State.WorkflowStates.Running;
  live_same_transaction : Workflow.transactionId workflow = Task.transactionId task;
  live_transaction :
    transactionInstances stores !! Task.transactionId task = Some transaction;
  live_transaction_running :
    Transaction.status transaction = State.TransactionStates.Running;
}.

(** *** The stores and effects of a round of the worker *)

Section Rounds.

Variable resolveInput :
  Workflow.IWorkflow → list Task.ITask → WorkflowDefinition.ITaskNode → JsValue.
Variable resolveOutput : Workflow.IWorkflow → list Task.ITask → JsValue.
Variable now : Z.

(** The stores after the acknowledgement of a live task. *)
Definition acknowledged (task : Task.ITask) (stores : Stores) : Stores :=
  mapTaskInstances
    (replaceTask (Task.taskId task)
       (withTaskStatus task State.TaskStates.Inprogress JsUndefined)) stores.




(** The stores after a round in which [task] completed and the task of
    [node] was created. *)
Definition advancedStores (task : Task.ITask) (workflow : Workflow.IWorkflow)
    (node : WorkflowDefinition.ITaskNode) (stores : Stores) : Stores :=
  let completed :=
    withTaskStatus (withTaskStatus task State.TaskStates.Inprogress JsUndefined)
      State.TaskStates.Completed JsUndefined in
  let tasks :=
    replaceTask (Task.taskId task) completed (taskInstances (acknowledged task stores)) in
  mapTaskInstances
    (fun tasks' => tasks' ++ [newTask resolveInput workflow node (nextId stores) tasks])
    (allocated
       (mapTaskInstances (replaceTask (Task.taskId task) completed)
          (acknowledged task stores))).

(** The stores after the round in which the last task of a compensation
    completed. *)
Definition compensatedStores (task : Task.ITask) (workflow : Workflow.IWorkflow)
    (transaction : Transaction.ITransaction) (stores : Stores) : Stores :=
  let completed :=
    withTaskStatus (withTaskStatus task State.TaskStates.Inprogress JsUndefined)
      State.TaskStates.Completed JsUndefined in
  let tasks :=
    replaceTask (Task.taskId task) completed (taskInstances (acknowledged task stores)) in
  mapTransactionInstances
    (insert (Task.transactionId task)
       (updatedTransaction now transaction
          State.TransactionStates.Compensated JsUndefined))
    (mapWorkflowInstances
       (insert (Task.workflowId task)
          (withWorkflowStatus workflow State.WorkflowStates.Completed
             (resolveOutput workflow tasks)))
       (mapTaskInstances (replaceTask (Task.taskId task) completed)
          (acknowledged task stores))).

(** What is read off the rounds of a compensation. *)
Definition referenceAndType (task : Task.ITask) : string * Task.TaskTypes :=
  (Task.taskReferenceName task, Task.type task).

Definition nodeReferenceAndType (node : WorkflowDefinition.ITaskNode)
    : string * Task.TaskTypes :=
  (WorkflowDefinition.taskReferenceName node, WorkflowDefinition.type node).

(** The compensating workflow instance created when [task] of [workflow]
    fails for good. *)
Definition compensatingWorkflow (task : Task.ITask) (workflow : Workflow.IWorkflow)
    (stores : Stores) : Workflow.IWorkflow :=
  newWorkflow (nextId stores) (Workflow.transactionId workflow)
    Workflow.CompensateWorkflow
    {| WorkflowDefinition.workflowName :=
         WorkflowDefinition.workflowName (Workflow.workflowDefinition workflow);
       WorkflowDefinition.rev :=
         WorkflowDefinition.rev (Workflow.workflowDefinition workflow);
       WorkflowDefinition.tasks :=
         map compensateNode
           (rev (filter (fun t => isCompensable (Workflow.workflowId workflow) t = true)
                   (taskInstances stores)));
       WorkflowDefinition.failureStrategy := State.WorkflowFailureStrategies.Failed;
       WorkflowDefinition.retryLimit := 0;
       WorkflowDefinition.recoveryWorkflow := None;
       WorkflowDefinition.outputParameters := JsUndefined |}
    (Workflow.input workflow) 0.

(** The effects of that round up to the creation of the compensating
    workflow. *)
Definition exhaustionEffects (task : Task.ITask) (workflow : Workflow.IWorkflow)
    (stores : Stores) : list Effect :=
  let inprogress := withTaskStatus task State.TaskStates.Inprogress JsUndefined in
  let failed := withTaskStatus inprogress State.TaskStates.Failed JsUndefined in
  [ Store TaskUpdate; SendEvent (TaskEvent inprogress);
    Store TaskUpdate; SendEvent (TaskEvent failed);
    Store WorkflowUpdate;
    SendEvent (WorkflowEvent
                 (withWorkflowStatus workflow State.WorkflowStates.Failed JsUndefined));
    Store WorkflowCreate;
    SendEvent (WorkflowEvent (compensatingWorkflow task workflow stores)) ].

(** The stores when the compensating workflow has been created. *)
Definition compensatingStores (task : Task.ITask) (workflow : Workflow.IWorkflow)
    (stores : Stores) : Stores :=
  let failed :=
    withTaskStatus (withTaskStatus task State.TaskStates.Inprogress JsUndefined)
      State.TaskStates.Failed JsUndefined in
  mapWorkflowInstances
    (insert (nextId stores) (compensatingWorkflow task workflow stores))
    (allocated
       (mapWorkflowInstances
          (insert (Task.workflowId task)
             (withWorkflowStatus workflow State.WorkflowStates.Failed JsUndefined))
          (mapTaskInstances (replaceTask (Task.taskId task) failed)
             (acknowledged task stores)))).

(** The first task of the compensation, for its first node. *)
Definition firstCompensateTask (task : Task.ITask) (workflow : Workflow.IWorkflow)
    (stores : Stores) (node : WorkflowDefinition.ITaskNode) : Task.ITask :=
  newTask resolveInput (compensatingWorkflow task workflow stores) node
    (S (nextId stores)) (taskInstances (compensatingStores task workflow stores)).

End Rounds.

Definition emptyStores : Stores :=
  {| transactionInstances := ∅;
     workflowInstances := ∅;
     taskInstances := [];
     workflowDefinitions := ∅;
     nextId := 0 |}.

End Engine.


(** ** bootstrap.ts

    The script run at start-up: it gives each of the five stores its client
    according to the configuration, opens the server if it is enabled and
    starts the three executors.  What it does to the outside (the calls of
    [setClient], [new Server(...)] and the executors) is the list of effects
    it leaves, in order; a [throw] ends the script with the effects made
    so far.  What the imported modules do when they are loaded is not part
    of it. *)

Module bootstrap.
Import Js.

Record ZookeeperConfig := {
  root : string;
  connectionString : string;
  zookeeper_options : JsValue;
}.

Record MongoDBConfig := {
  uri : string;
  mongoDB_options : JsValue;
}.

Record DefinitionStoreConfig := {
  definitionStore_type : string;
  zookeeperConfig : ZookeeperConfig;
}.

Record InstanceStoreConfig := {
  instanceStore_type : string;
  mongoDBConfig : MongoDBConfig;
}.

Record ServerConfig := {
  enabled : bool;
  port : Z;
  hostname : string;
}.

(** What the script reads of [config]. *)
Record Config := {
  workflowDefinitionStoreConfig : DefinitionStoreConfig;
  taskDefinitionStoreConfig : DefinitionStoreConfig;
  transactionInstanceStoreConfig : InstanceStoreConfig;
  workflowInstanceStoreConfig : InstanceStoreConfig;
  taskInstanceStoreConfig : InstanceStoreConfig;
  server : ServerConfig;
}.

(** The five stores of [store], and the clients the script builds. *)
Inductive Store :=
| workflowDefinitionStore | taskDefinitionStore
| transactionInstanceStore | workflowInstanceStore | taskInstanceStore.

Inductive Client :=
| WorkflowDefinitionZookeeperStore (root connectionString : string) (options : JsValue)
| TaskDefinitionZookeeperStore (root connectionString : string) (options : JsValue)
| TransactionInstanceMongoseStore (uri : string) (options : JsValue)
| WorkflowInstanceMongoseStore (uri : string) (options : JsValue)
| TaskInstanceMongooseStore (uri : string) (options : JsValue).

Inductive Effect :=
| SetClient (store : Store) (client : Client)
| NewServer (port : Z) (hostname : string) (flag : bool)
| StateExecutor
| SystemTaskExecutor
| CommandExecutor.

(** A run of statements: how it ended, and its effects. *)
Definition Script : Type := Result string unit * list Effect.

Definition perform (effect : Effect) : Script := (Ok tt, [effect]).

(** [first; next]: [next] is not run when [first] threw. *)
Definition andThen (first next : Script) : Script :=
  match first with
  | (Ok _, effects) => (next.1, effects ++ next.2)
  | (Throw error, effects) => (Throw error, effects)
  end.

Declare Scope script_scope.
Delimit Scope script_scope with script.
Notation "first ;; next" := (andThen first next)
  (at level 100, next at level 200, right associativity) : script_scope.

Section Bootstrap.

(** [StoreType.ZooKeeper] and [StoreType.MongoDB] of [constants/store],
    which is not among the sources. *)
Variable ZooKeeper : string.
Variable MongoDB : string.

Definition setWorkflowDefinitionStore (config : Config) : Script :=
  let type := definitionStore_type (workflowDefinitionStoreConfig config) in
  if String.eqb type ZooKeeper
  then perform
         (SetClient workflowDefinitionStore
            (WorkflowDefinitionZookeeperStore
               (root (zookeeperConfig (workflowDefinitionStoreConfig config)))
               (connectionString (zookeeperConfig (workflowDefinitionStoreConfig config)))
               (zookeeper_options (zookeeperConfig (workflowDefinitionStoreConfig config)))))
  else (Throw ("WorkflowDefinition Store: " +:+ type +:+ " is invalid"), []).

Definition setTaskDefinitionStore (config : Config) : Script :=
  let type := definitionStore_type (taskDefinitionStoreConfig config) in
  if String.eqb type ZooKeeper
  then perform
         (SetClient taskDefinitionStore
            (TaskDefinitionZookeeperStore
               (root (zookeeperConfig (taskDefinitionStoreConfig config)))
               (connectionString (zookeeperConfig (taskDefinitionStoreConfig config)))
               (zookeeper_options (zookeeperConfig (taskDefinitionStoreConfig config)))))
  else (Throw ("TaskDefinition Store: " +:+ type +:+ " is invalid"), []).

Definition setTransactionInstanceStore (config : Config) : Script :=
  let type := instanceStore_type (transactionInstanceStoreConfig config) in
  if String.eqb type MongoDB
  then perform
         (SetClient transactionInstanceStore
            (TransactionInstanceMongoseStore
               (uri (mongoDBConfig (transactionInstanceStoreConfig config)))
               (mongoDB_options (mongoDBConfig (transactionInstanceStoreConfig config)))))
  else (Throw ("TranscationInstance Store: " +:+ type +:+ " is invalid"), []).

Definition setWorkflowInstanceStore (config : Config) : Script :=
  let type := instanceStore_type (workflowInstanceStoreConfig config) in
  if String.eqb type MongoDB
  then perform
         (SetClient workflowInstanceStore
            (WorkflowInstanceMongoseStore
               (uri (mongoDBConfig (workflowInstanceStoreConfig config)))
               (mongoDB_options (mongoDBConfig (workflowInstanceStoreConfig config)))))
  else (Throw ("WorkflowInstance Store: " +:+ type +:+ " is invalid"), []).

Definition setTaskInstanceStore (config : Config) : Script :=
  let type := instanceStore_type (taskInstanceStoreConfig config) in
  if String.eqb type MongoDB
  then perform
         (SetClient taskInstanceStore
            (TaskInstanceMongooseStore
               (uri (mongoDBConfig (taskInstanceStoreConfig config)))
               (mongoDB_options (mongoDBConfig (taskInstanceStoreConfig config)))))
  else (Throw ("WorkflowInstance Store: " +:+ type +:+ " is invalid"), []).

Definition openServer (config : Config) : Script :=
  if enabled (server config)
  then perform (NewServer (port (server config)) (hostname (server config)) true)
  else (Ok tt, []).

(** The whole script. *)
Definition bootstrap (config : Config) : Script :=
  (setWorkflowDefinitionStore config ;;
   setTaskDefinitionStore config ;;
   setTransactionInstanceStore config ;;
   setWorkflowInstanceStore config ;;
   setTaskInstanceStore config ;;
   openServer config ;;
   perform StateExecutor ;;
   perform SystemTaskExecutor ;;
   perform CommandExecutor)%script.

(** Every store is configured with the one type the script has a case
    for. *)
Definition supported (config : Config) : Prop :=
  definitionStore_type (workflowDefinitionStoreConfig config) = ZooKeeper
  ∧ definitionStore_type (taskDefinitionStoreConfig config) = ZooKeeper
  ∧ instanceStore_type (transactionInstanceStoreConfig config) = MongoDB
  ∧ instanceStore_type (workflowInstanceStoreConfig config) = MongoDB
  ∧ instanceStore_type (taskInstanceStoreConfig config) = MongoDB.

End Bootstrap.

(** The five calls of [setClient] of a run that gets through, in order. *)
Definition clients (config : Config) : list Effect :=
  [ SetClient workflowDefinitionStore
      (WorkflowDefinitionZookeeperStore
         (root (zookeeperConfig (workflowDefinitionStoreConfig config)))
         (connectionString (zookeeperConfig (workflowDefinitionStoreConfig config)))
         (zookeeper_options (zookeeperConfig (workflowDefinitionStoreConfig config))));
    SetClient taskDefinitionStore
      (TaskDefinitionZookeeperStore
         (root (zookeeperConfig (taskDefinitionStoreConfig config)))
         (connectionString (zookeeperConfig (taskDefinitionStoreConfig config)))
         (zookeeper_options (zookeeperConfig (taskDefinitionStoreConfig config))));
    SetClient transactionInstanceStore
      (TransactionInstanceMongoseStore
         (uri (mongoDBConfig (transactionInstanceStoreConfig config)))
         (mongoDB_options (mongoDBConfig (transactionInstanceStoreConfig config))));
    SetClient workflowInstanceStore
      (WorkflowInstanceMongoseStore
         (uri (mongoDBConfig (workflowInstanceStoreConfig config)))
         (mongoDB_options (mongoDBConfig (workflowInstanceStoreConfig config))));
    SetClient taskInstanceStore
      (TaskInstanceMongooseStore
         (uri (mongoDBConfig (taskInstanceStoreConfig config)))
         (mongoDB_options (mongoDBConfig (taskInstanceStoreConfig config)))) ].

End bootstrap.

(** ** Concrete inputs

    The definition, transactions and stores at which the properties below
    are instantiated; the workflow is the [WORKFLOW_DEFINITION] of
    [state.test.ts]. *)

Module Samples.
Import Js.

Definition taskNode (name : string) : WorkflowDefinition.ITaskNode :=
  {| WorkflowDefinition.name := name;
     WorkflowDefinition.taskReferenceName := name;
     WorkflowDefinition.type := Task.Task;
     WorkflowDefinition.inputParameters := JsUndefined;
     WorkflowDefinition.retry_limit := 3;
     WorkflowDefinition.retry_delay := 0 |}.

Definition WORKFLOW_DEFINITION (failureStrategy : State.WorkflowFailureStrategies.t)
    : WorkflowDefinition.IWorkflowDefinition :=
  {| WorkflowDefinition.workflowName := "name";
     WorkflowDefinition.rev := "rev";
     WorkflowDefinition.tasks := [taskNode "t1"; taskNode "t2"; taskNode "t3"];
     WorkflowDefinition.failureStrategy := failureStrategy;
     WorkflowDefinition.retryLimit := 3;
     WorkflowDefinition.recoveryWorkflow := None;
     WorkflowDefinition.outputParameters := JsUndefined |}.

Definition transactionOf (status : State.TransactionStates.t) : Transaction.ITransaction :=
  {| Transaction.transactionId := "tx-1";
     Transaction.status := status;
     Transaction.workflowDefinition :=
       WORKFLOW_DEFINITION State.WorkflowFailureStrategies.Compensate;
     Transaction.input := JsObject [("a", JsString "hello")];
     Transaction.output := JsUndefined;
     Transaction.createTime := 1000;
     Transaction.endTime := None |}.

Definition updateTo (status : State.TransactionStates.t) : Event.ITransactionUpdate :=
  {| Event.transactionId := "tx-1";
     Event.status := status;
     Event.output := JsUndefined |}.

(** A client that holds the one transaction ["tx-1"]. *)
Definition clientWith (status : State.TransactionStates.t)
    : gmap string Transaction.ITransaction :=
  {[ TransactionInstanceRedisStore.key "melonade" "tx-1" := transactionOf status ]}.

Definition baseTask (name taskReferenceName : string) : workflowDefinition.IBaseTask :=
  {| workflowDefinition.name := name;
     workflowDefinition.taskReferenceName := taskReferenceName;
     workflowDefinition.inputParameters := [] |}.

(** [{ name: 'wf', rev: 1, tasks: [t1], failureStrategy, retry,
    recoveryWorkflow }] *)
Definition definitionWith (tasks : list workflowDefinition.AllTaskType)
    (failureStrategy : State.WorkflowFailureStrategies.t)
    (retry : option workflowDefinition.IRetry)
    (recoveryWorkflow : option workflowDefinition.IRecoveryWorkflow)
    : workflowDefinition.IWorkflowDefinition :=
  {| workflowDefinition.workflowDefinition_name := "wf";
     workflowDefinition.rev := 1;
     workflowDefinition.description := Some "No description";
     workflowDefinition.tasks := tasks;
     workflowDefinition.failureStrategy := Some failureStrategy;
     workflowDefinition.retry := retry;
     workflowDefinition.recoveryWorkflow := recoveryWorkflow |}.

(** A [Retry] definition whose limit and delay are negative. *)
Definition negativeRetry : workflowDefinition.IWorkflowDefinition :=
  definitionWith [workflowDefinition.Task (baseTask "t1" "t1")]
    State.WorkflowFailureStrategies.Retry
    (Some {| workflowDefinition.limit := JsNumber (-1);
             workflowDefinition.delaySecond := JsNumber (-5) |})
    None.

(** A [Retry] definition whose limit is a string. *)
Definition textualRetry : workflowDefinition.IWorkflowDefinition :=
  definitionWith [workflowDefinition.Task (baseTask "t1" "t1")]
    State.WorkflowFailureStrategies.Retry
    (Some {| workflowDefinition.limit := JsString "3";
             workflowDefinition.delaySecond := JsNumber 0 |})
    None.

(** A [RecoveryWorkflow] definition whose recovery name is the empty
    string. *)
Definition namelessRecovery : workflowDefinition.IWorkflowDefinition :=
  definitionWith [workflowDefinition.Task (baseTask "t1" "t1")]
    State.WorkflowFailureStrategies.RecoveryWorkflow
    None
    (Some {| workflowDefinition.recoveryWorkflow_name := JsString EmptyString;
             workflowDefinition.recoveryWorkflow_rev := JsNumber 1 |}).

(** A [RecoveryWorkflow] definition without a [recoveryWorkflow]. *)
Definition missingRecovery : workflowDefinition.IWorkflowDefinition :=
  definitionWith [workflowDefinition.Task (baseTask "t1" "t1")]
    State.WorkflowFailureStrategies.RecoveryWorkflow None None.

(** One task, whose reference name is [constructor]. *)
Definition constructorTask : workflowDefinition.IWorkflowDefinition :=
  definitionWith [workflowDefinition.Task (baseTask "t1" "constructor")]
    State.WorkflowFailureStrategies.Failed None None.

(** Two tasks whose reference name is the empty string. *)
Definition emptyNames : workflowDefinition.IWorkflowDefinition :=
  definitionWith
    [ workflowDefinition.Task (baseTask "t1" EmptyString);
      workflowDefinition.Task (baseTask "t2" EmptyString) ]
    State.WorkflowFailureStrategies.Failed None None.

(** A task of an unknown type in a lane of a Parallel node, itself in a
    branch of a Decision node. *)
Definition deepFault : workflowDefinition.IWorkflowDefinition :=
  definitionWith
    [ workflowDefinition.Task (baseTask "t1" "t1");
      workflowDefinition.Decision (baseTask "d" "d")
        [ ("yes",
           [ workflowDefinition.Task (baseTask "t2" "t2");
             workflowDefinition.Parallel (baseTask "p" "p")
               [ [workflowDefinition.Task (baseTask "t3" "t3")];
                 [workflowDefinition.Other (baseTask "t4" "t4") "LAMBDA"] ] ]) ]
        [workflowDefinition.Task (baseTask "t5" "t5")] ]
    State.WorkflowFailureStrategies.Failed None None.

(** A definition without description, and one without tasks. *)
Definition undescribed : workflowDefinition.IWorkflowDefinition :=
  {| workflowDefinition.workflowDefinition_name := "wf";
     workflowDefinition.rev := 1;
     workflowDefinition.description := None;
     workflowDefinition.tasks := [workflowDefinition.Task (baseTask "t1" "t1")];
     workflowDefinition.failureStrategy := None;
     workflowDefinition.retry := None;
     workflowDefinition.recoveryWorkflow := None |}.

Definition taskless : workflowDefinition.IWorkflowDefinition :=
  definitionWith [] State.WorkflowFailureStrategies.Failed None None.

(** Two tasks that share a reference name, the second in a lane of a
    Parallel node. *)
Definition nestedDuplicate : workflowDefinition.IWorkflowDefinition :=
  definitionWith
    [ workflowDefinition.Task (baseTask "t1" "t1");
      workflowDefinition.Parallel (baseTask "p" "p")
        [ [workflowDefinition.Task (baseTask "t2" "t2")];
          [workflowDefinition.Task (baseTask "t3" "t1")] ] ]
    State.WorkflowFailureStrategies.Failed None None.

(** The engine run of [state.test.ts]: the transaction ["tx-1"] is started
    on an empty store and the worker answers round after round. *)
Definition resolveInput (workflow : Workflow.IWorkflow) (tasks : list Task.ITask)
    (node : WorkflowDefinition.ITaskNode) : JsValue :=
  WorkflowDefinition.inputParameters node.

Definition resolveOutput (workflow : Workflow.IWorkflow) (tasks : list Task.ITask)
    : JsValue :=
  JsUndefined.

Definition started (failureStrategy : State.WorkflowFailureStrategies.t)
    : unit * Engine.Stores * list Engine.Effect :=
  Engine.startTransaction resolveInput resolveOutput 1000 "tx-1"
    (WORKFLOW_DEFINITION failureStrategy) (JsObject [("a", JsString "hello")])
    Engine.emptyStores.

(** The stores after the worker answered with [statuses]. *)
Definition storesAfter (failureStrategy : State.WorkflowFailureStrategies.t)
    (statuses : list State.TaskStates.t) : Engine.Stores :=
  (Engine.workerRounds resolveInput resolveOutput 1000 statuses
     (head (Engine.dispatched (started failureStrategy).2))
     (started failureStrategy).1.2).1.


(** ... and as it is dispatched for the third retry. *)
Definition t3LastRetry : Task.ITask :=
  {| Task.taskId := 6;
     Task.taskName := "t3";
     Task.taskReferenceName := "t3";
     Task.workflowId := 0;
     Task.transactionId := "tx-1";
     Task.type := Task.Task;
     Task.status := State.TaskStates.Scheduled;
     Task.input := JsUndefined;
     Task.output := JsUndefined;
     Task.retries := 3;
     Task.retryLimit := 3;
     Task.retryDelay := 0;
     Task.isRetried := true |}.

Definition runningWorkflow (failureStrategy : State.WorkflowFailureStrategies.t)
    : Workflow.IWorkflow :=
  Engine.newWorkflow 0 "tx-1" Workflow.Workflow (WORKFLOW_DEFINITION failureStrategy)
    (JsObject [("a", JsString "hello")]) 0.

Definition runningTransaction (failureStrategy : State.WorkflowFailureStrategies.t)
    : Transaction.ITransaction :=
  {| Transaction.transactionId := "tx-1";
     Transaction.status := State.TransactionStates.Running;
     Transaction.workflowDefinition := WORKFLOW_DEFINITION failureStrategy;
     Transaction.input := JsObject [("a", JsString "hello")];
     Transaction.output := JsUndefined;
     Transaction.createTime := 1000;
     Transaction.endTime := None |}.

(** A configuration of [bootstrap.ts] with the given store types. *)
Definition zookeeper : bootstrap.ZookeeperConfig :=
  {| bootstrap.root := "/melonade";
     bootstrap.connectionString := "localhost:2181";
     bootstrap.zookeeper_options := JsObject [] |}.

Definition mongoDB : bootstrap.MongoDBConfig :=
  {| bootstrap.uri := "mongodb://localhost/melonade";
     bootstrap.mongoDB_options := JsObject [] |}.

Definition configOf (definitions transactions workflows tasks : string)
    : bootstrap.Config :=
  {| bootstrap.workflowDefinitionStoreConfig :=
       {| bootstrap.definitionStore_type := definitions;
          bootstrap.zookeeperConfig := zookeeper |};
     bootstrap.taskDefinitionStoreConfig :=
       {| bootstrap.definitionStore_type := definitions;
          bootstrap.zookeeperConfig := zookeeper |};
     bootstrap.transactionInstanceStoreConfig :=
       {| bootstrap.instanceStore_type := transactions;
          bootstrap.mongoDBConfig := mongoDB |};
     bootstrap.workflowInstanceStoreConfig :=
       {| bootstrap.instanceStore_type := workflows;
          bootstrap.mongoDBConfig := mongoDB |};
     bootstrap.taskInstanceStoreConfig :=
       {| bootstrap.instanceStore_type := tasks;
          bootstrap.mongoDBConfig := mongoDB |};
     bootstrap.server :=
       {| bootstrap.enabled := true;
          bootstrap.port := 8080;
          bootstrap.hostname := "127.0.0.1" |} |}.

End Samples.

(** * Properties *)

(** ** TransactionInstanceRedisStore *)

Module RedisStoreFacts.
Import Js TransactionInstanceRedisStore.

Section Facts.

Variable prefix : string.
Variable TransactionNextStates : State.TransactionStates.t → list State.TransactionStates.t.

Lemma key_inj (a b : string) : key prefix a = key prefix b → a = b.
Proof.
  unfold key. intros H.
  apply (String.app_inj prefix) in H.
  by apply (String.app_inj ".transaction.") in H.
Qed.

Lemma includes_true {A} `{EqDecision A} (l : list A) (x : A) :
  includes l x = true ↔ x ∈ l.
Proof. unfold includes. by rewrite bool_decide_eq_true. Qed.

Lemma includes_false {A} `{EqDecision A} (l : list A) (x : A) :
  includes l x = false ↔ x ∉ l.
Proof. unfold includes. by rewrite bool_decide_eq_false. Qed.

(** [update] never touches another transaction. *)
Lemma update_other (now : Z) (u : Event.ITransactionUpdate) (client : Client) (other : string) :
  other ≠ Event.transactionId u →
  get prefix other (update prefix TransactionNextStates now u client).2
  = get prefix other client.
Proof.
  intros Hne. unfold update, get.
  destruct (client !! key prefix (Event.transactionId u)) as [stored|]; [|done].
  destruct (negb _); [done|]. simpl.
  rewrite lookup_insert_ne; [done|].
  intros Heq. apply key_inj in Heq. congruence.
Qed.

(** What [update] writes as [endTime]: the clock for [Completed] and
    [Failed], [null] for every other status. *)
Lemma update_endTime (now : Z) (u : Event.ITransactionUpdate) (client : Client)
    (updated : Transaction.ITransaction) :
  (update prefix TransactionNextStates now u client).1 = Ok updated →
  Transaction.endTime updated
  = if bool_decide (Event.status u = State.TransactionStates.Completed
                    ∨ Event.status u = State.TransactionStates.Failed)
    then Some now else None.
Proof.
  unfold update.
  destruct (client !! key prefix (Event.transactionId u)) as [stored|]; [|done].
  destruct (negb _); [done|]. simpl. intros [= <-]. simpl.
  unfold includes. destruct (Event.status u); reflexivity.
Qed.

End Facts.

(** C5. [update] enforces the transition table: from a stored transaction
    of status S, an update to a status that is not among the next states of
    S throws the "Cannot change status" error and leaves the client as it
    was; an update to an allowed status writes the transaction back under
    the same key with the new status. *)
Theorem update_enforces_transition_table
    (prefix : string)
    (TransactionNextStates : State.TransactionStates.t → list State.TransactionStates.t)
    (now : Z) (u : Event.ITransactionUpdate) (client : Client)
    (stored : Transaction.ITransaction) :
  get prefix (Event.transactionId u) client = Some stored →
  (Event.status u ∉ TransactionNextStates (Transaction.status stored) →
   update prefix TransactionNextStates now u client
   = (Throw (CannotChangeStatus (Transaction.transactionId stored)
               (Transaction.status stored) (Event.status u)),
      client))
  ∧ (Event.status u ∈ TransactionNextStates (Transaction.status stored) →
     ∃ updated client',
       update prefix TransactionNextStates now u client = (Ok updated, client')
       ∧ get prefix (Event.transactionId u) client' = Some updated
       ∧ Transaction.status updated = Event.status u).
Proof.
  unfold get, update. intros ->. split.
  - intros Hnot. apply includes_false in Hnot. by rewrite Hnot.
  - intros Hin. apply includes_true in Hin. rewrite Hin. simpl.
    eexists _, _. split; [reflexivity|].
    split; [apply lookup_insert_eq | reflexivity].
Qed.

(** C9. [create] throws "already exists" when the client holds a
    transaction with the same [transactionId], and the client is left as it
    was; otherwise it stores the transaction under its key and returns
    it. *)
Theorem create_once (prefix : string) (transaction : Transaction.ITransaction)
    (client : Client) :
  (∀ stored,
     get prefix (Transaction.transactionId transaction) client = Some stored →
     create prefix transaction client
     = (Throw (AlreadyExists (Transaction.transactionId transaction)), client))
  ∧ (get prefix (Transaction.transactionId transaction) client = None →
     ∃ client',
       create prefix transaction client = (Ok transaction, client')
       ∧ get prefix (Transaction.transactionId transaction) client' = Some transaction
       ∧ ∀ other, other ≠ Transaction.transactionId transaction →
           get prefix other client' = get prefix other client).
Proof.
  unfold get, create, setnx. split.
  - intros stored ->. reflexivity.
  - intros ->. simpl. eexists. split; [reflexivity|]. split.
    + apply lookup_insert_eq.
    + intros other Hne. apply lookup_insert_ne.
      intros Heq. apply key_inj in Heq. congruence.
Qed.

(** C10. For a [transactionId] the client does not hold, [get] returns
    [null] and [update] throws "not found" (and writes nothing). *)
Theorem absent_get_null_update_throws
    (prefix : string)
    (TransactionNextStates : State.TransactionStates.t → list State.TransactionStates.t)
    (now : Z) (u : Event.ITransactionUpdate) (client : Client) :
  client !! key prefix (Event.transactionId u) = None →
  get prefix (Event.transactionId u) client = None
  ∧ update prefix TransactionNextStates now u client
    = (Throw (NotFound (Event.transactionId u)), client).
Proof.
  intros Habsent. unfold get, update. by rewrite Habsent.
Qed.

Lemma update_enforces_transition_table_witness :
  (update "melonade" State.TransactionNextStates 2000
     (Samples.updateTo State.TransactionStates.Running)
     (Samples.clientWith State.TransactionStates.Completed)
   = (Throw (CannotChangeStatus "tx-1" State.TransactionStates.Completed
               State.TransactionStates.Running),
      Samples.clientWith State.TransactionStates.Completed))
  ∧ (∃ updated client',
       update "melonade" State.TransactionNextStates 2000
         (Samples.updateTo State.TransactionStates.Completed)
         (Samples.clientWith State.TransactionStates.Running)
       = (Ok updated, client')
       ∧ get "melonade" "tx-1" client' = Some updated
       ∧ Transaction.status updated = State.TransactionStates.Completed).
Proof.
  split.
  - apply (update_enforces_transition_table "melonade" State.TransactionNextStates 2000
             (Samples.updateTo State.TransactionStates.Running)
             (Samples.clientWith State.TransactionStates.Completed)
             (Samples.transactionOf State.TransactionStates.Completed)).
    + vm_compute. reflexivity.
    + vm_compute. apply not_elem_of_nil.
  - apply (update_enforces_transition_table "melonade" State.TransactionNextStates 2000
             (Samples.updateTo State.TransactionStates.Completed)
             (Samples.clientWith State.TransactionStates.Running)
             (Samples.transactionOf State.TransactionStates.Running)).
    + vm_compute. reflexivity.
    + vm_compute. apply list_elem_of_here.
Defined.

Lemma create_once_witness :
  create "melonade" (Samples.transactionOf State.TransactionStates.Running)
    (Samples.clientWith State.TransactionStates.Failed)
  = (Throw (AlreadyExists "tx-1"), Samples.clientWith State.TransactionStates.Failed)
  ∧ ∃ client',
      create "melonade" (Samples.transactionOf State.TransactionStates.Running) ∅
      = (Ok (Samples.transactionOf State.TransactionStates.Running), client')
      ∧ get "melonade" "tx-1" client'
        = Some (Samples.transactionOf State.TransactionStates.Running).
Proof.
  split.
  - apply (proj1 (create_once "melonade"
                      (Samples.transactionOf State.TransactionStates.Running)
                      (Samples.clientWith State.TransactionStates.Failed))
             (Samples.transactionOf State.TransactionStates.Failed)).
    vm_compute. reflexivity.
  - destruct (proj2 (create_once "melonade"
                       (Samples.transactionOf State.TransactionStates.Running) ∅))
      as (client' & Hcreate & Hget & _).
    + vm_compute. reflexivity.
    + exists client'. split; [exact Hcreate | exact Hget].
Defined.

Lemma absent_get_null_update_throws_witness :
  get "melonade" "tx-1" ∅ = None
  ∧ update "melonade" State.TransactionNextStates 2000
      (Samples.updateTo State.TransactionStates.Completed) ∅
    = (Throw (NotFound "tx-1"), ∅).
Proof.
  apply (absent_get_null_update_throws "melonade" State.TransactionNextStates 2000
           (Samples.updateTo State.TransactionStates.Completed) ∅).
  vm_compute. reflexivity.
Defined.

(** C4. A transaction that is [Running] and is updated to [Compensated], a
    terminal status the table allows, is written back and returned with
    [endTime] unset: [update] sets it for [Completed] and [Failed] only. *)
Theorem update_Compensated_endTime_unset :
  State.isTerminalTransactionState State.TransactionStates.Compensated = true
  ∧ ∃ updated client',
      update "melonade" State.TransactionNextStates 2000
        (Samples.updateTo State.TransactionStates.Compensated)
        (Samples.clientWith State.TransactionStates.Running)
      = (Ok updated, client')
      ∧ get "melonade" "tx-1" client' = Some updated
      ∧ Transaction.status updated = State.TransactionStates.Compensated
      ∧ Transaction.endTime updated = None.
Proof.
  split; [reflexivity|].
  eexists _, _. split; [vm_compute; reflexivity|].
  split; [vm_compute; reflexivity|]. split; reflexivity.
Qed.

End RedisStoreFacts.

(** ** workflowDefinition.ts *)

Module ValidationFacts.
Import Js workflowDefinition.

Lemma append_assoc (a b c : string) : (a +:+ b) +:+ c = a +:+ (b +:+ c).
Proof.
  induction a as [|x a IH]; [done|].
  unfold String.append; fold String.append. by rewrite IH.
Qed.

Lemma startsWith_append (prefix more message : string) :
  startsWith (prefix +:+ more) message → startsWith prefix message.
Proof. intros [rest ->]. exists (more +:+ rest). apply append_assoc. Qed.

Lemma adds_refl (prefix : string) (result : TasksValidateOutput) :
  adds prefix result result.
Proof. exists []. by rewrite app_nil_r. Qed.

Lemma adds_trans (prefix : string) (r1 r2 r3 : TasksValidateOutput) :
  adds prefix r1 r2 → adds prefix r2 r3 → adds prefix r1 r3.
Proof.
  intros (a1 & H1 & F1) (a2 & H2 & F2). exists (a1 ++ a2). split.
  - by rewrite H2, H1, app_assoc.
  - by apply Forall_app.
Qed.

Lemma adds_weaken (prefix more : string) (r r' : TasksValidateOutput) :
  adds (prefix +:+ more) r r' → adds prefix r r'.
Proof.
  intros (a & H & F). exists a. split; [done|].
  eapply Forall_impl; [exact F|]. intros m. apply startsWith_append.
Qed.

Lemma adds_push (prefix suffix : string) (r : TasksValidateOutput) :
  adds prefix r (push (prefix +:+ suffix) r).
Proof. exists [prefix +:+ suffix]. split; [done|]. repeat constructor. by exists suffix. Qed.

Lemma adds_pushIf (condition : bool) (prefix suffix : string) (r : TasksValidateOutput) :
  adds prefix r (pushIf condition (prefix +:+ suffix) r).
Proof. destruct condition; [apply adds_push | apply adds_refl]. Qed.

Lemma adds_remember (prefix key : string) (r : TasksValidateOutput) :
  adds prefix r (remember key r).
Proof. exists []. by rewrite app_nil_r. Qed.

Lemma reduceFrom_adds {A} (prefix : string)
    (callback : TasksValidateOutput → A → nat → TasksValidateOutput) (l : list A) :
  Forall (fun x => ∀ r index, adds prefix r (callback r x index)) l →
  ∀ index r, adds prefix r (reduceFrom callback index r l).
Proof.
  induction 1 as [|x l Hx _ IH]; intros index r; simpl.
  - apply adds_refl.
  - eapply adds_trans; [apply Hx | apply IH].
Qed.

Lemma fold_left_adds {A} (prefix : string)
    (callback : TasksValidateOutput → A → TasksValidateOutput) (l : list A) :
  Forall (fun x => ∀ r, adds prefix r (callback r x)) l →
  ∀ r, adds prefix r (fold_left callback l r).
Proof.
  induction 1 as [|x l Hx _ IH]; intros r; simpl.
  - apply adds_refl.
  - eapply adds_trans; [apply Hx | apply IH].
Qed.

Section Facts.

Variable isValidName : string → bool.
Variable isValidRev : JsValue → bool.

Lemma validateNode_adds (task : AllTaskType) (currentRoot : string)
    (r : TasksValidateOutput) :
  adds currentRoot r (validateNode isValidName task currentRoot r).
Proof.
  unfold validateNode.
  eapply adds_trans; [apply adds_pushIf|].
  eapply adds_trans; [apply adds_pushIf|].
  eapply adds_trans; [|apply adds_pushIf].
  destruct (truthyProperty _ _); [apply adds_push | apply adds_remember].
Qed.

Lemma validateTasksWith_adds
    (reducer : AllTaskType → string → TasksValidateOutput → TasksValidateOutput)
    (tasks : list AllTaskType) (root : string) (r : TasksValidateOutput) :
  Forall (fun task => ∀ currentRoot r, adds currentRoot r (reducer task currentRoot r))
    tasks →
  adds (root +:+ ".tasks[") r (validateTasksWith reducer tasks root r).
Proof.
  intros Htasks. unfold validateTasksWith, reduce. apply reduceFrom_adds.
  eapply Forall_impl; [exact Htasks|]. intros task Htask r0 index.
  apply (adds_weaken _ (pretty index +:+ "]")).
  rewrite append_assoc. apply Htask.
Qed.

(** The errors a node and the nodes under it add all begin with the path of
    the node. *)
Lemma validateTask_adds (task : AllTaskType) :
  ∀ currentRoot r,
    adds currentRoot r (validateTask isValidName isValidRev task currentRoot r).
Proof.
  induction task as [b|b lanes IH|b w|b decisions dflt IHd IHdflt|b ty]
    using AllTaskType_nested_ind; intros currentRoot r; simpl.
  - apply validateNode_adds.
  - eapply adds_trans; [apply validateNode_adds|].
    apply reduceFrom_adds.
    eapply Forall_impl; [exact IH|]. intros lane Hlane r0 index.
    apply (adds_weaken _ (".parallelTasks[" +:+ pretty index +:+ "]")).
    apply (adds_weaken _ ".tasks["). by apply validateTasksWith_adds.
  - eapply adds_trans; [apply validateNode_adds|].
    eapply adds_trans; apply adds_pushIf.
  - eapply adds_trans; [apply validateNode_adds|].
    eapply adds_trans; [apply adds_pushIf|].
    eapply adds_trans; cycle 1.
    + apply fold_left_adds.
      eapply Forall_impl; [exact IHd|]. intros [decision tasks] Htasks r0. simpl in *.
      apply (adds_weaken _ (".decisions[" +:+ quote +:+ decision +:+ quote +:+ "]")).
      apply (adds_weaken _ ".tasks["). by apply validateTasksWith_adds.
    + apply (adds_weaken _ ".defaultDecision").
      apply (adds_weaken _ ".tasks["). by apply validateTasksWith_adds.
  - apply validateNode_adds.
Qed.

Lemma validateTasks_adds (tasks : list AllTaskType) (root : string)
    (r : TasksValidateOutput) :
  adds (root +:+ ".tasks[") r (validateTasks isValidName isValidRev tasks root r).
Proof.
  apply validateTasksWith_adds, Forall_forall. intros task _. apply validateTask_adds.
Qed.

(** The recursion of the source: a Decision node validates its default
    branch, then its branches in turn, each through [validateTasks] on the
    result so far; a Parallel node does so for its lanes. *)
Lemma validateTask_Decision (b : IBaseTask)
    (decisions : list (string * list AllTaskType)) (defaultDecision : list AllTaskType)
    (currentRoot : string) (r : TasksValidateOutput) :
  validateTask isValidName isValidRev (Decision b decisions defaultDecision) currentRoot r
  = fold_left
      (fun decisionResult '(decision, decisionTasks) =>
         validateTasks isValidName isValidRev decisionTasks
           (currentRoot +:+ ".decisions[" +:+ quote +:+ decision +:+ quote +:+ "]")
           decisionResult)
      decisions
      (validateTasks isValidName isValidRev defaultDecision
         (currentRoot +:+ ".defaultDecision")
         (pushIf (match defaultDecision with [] => true | _ => false end)
            (currentRoot +:+ ".defaultDecision cannot be empty")
            (validateNode isValidName (Decision b decisions defaultDecision)
               currentRoot r))).
Proof. reflexivity. Qed.

Lemma validateTask_Parallel (b : IBaseTask) (parallelTasks : list (list AllTaskType))
    (currentRoot : string) (r : TasksValidateOutput) :
  validateTask isValidName isValidRev (Parallel b parallelTasks) currentRoot r
  = reduce
      (fun parallelResult parallelTasks index =>
         validateTasks isValidName isValidRev parallelTasks
           (currentRoot +:+ ".parallelTasks[" +:+ pretty index +:+ "]") parallelResult)
      (validateNode isValidName (Parallel b parallelTasks) currentRoot r)
      parallelTasks.
Proof. reflexivity. Qed.

Lemma elem_of_conditional_push (condition : bool) (message x : string) (l : list string) :
  x ∈ (if condition then l ++ [message] else l) ↔ x ∈ l ∨ (condition = true ∧ x = message).
Proof.
  destruct condition.
  - rewrite elem_of_app, list_elem_of_singleton. tauto.
  - split; [by left|]. by intros [H|[[=] _]].
Qed.

(** The errors of [workflowValidation], one by one. *)
Lemma workflowValidation_elem (wd : IWorkflowDefinition) (x : string) :
  x ∈ workflowValidation isValidName isValidRev wd ↔
    (isValidName (workflowDefinition_name wd) = false
     ∧ x = "workflowDefinition.name is invalid")
    ∨ (isValidRev (JsNumber (rev wd)) = false ∧ x = "workflowDefinition.rev is invalid")
    ∨ (isRecoveryWorkflowConfigValid wd = true
       ∧ x = "workflowDefinition.recoveryWorkflow is invalid")
    ∨ (isFailureStrategiesConfigValid wd = true ∧ x = "workflowDefinition.retry is invalid")
    ∨ (isEmptyTasks wd = true ∧ x = "workflowDefinition.tasks cannot be empty").
Proof.
  unfold workflowValidation.
  rewrite !elem_of_conditional_push, elem_of_nil, !negb_true_iff. tauto.
Qed.

(** An error that is not under [workflowDefinition.tasks[] is in the final
    list exactly when [workflowValidation] reported it. *)
Lemma top_level_error (wd : IWorkflowDefinition) (x : string) :
  ¬ startsWith ("workflowDefinition" +:+ ".tasks[") x →
  x ∈ errors (validateTasksResult isValidName isValidRev wd)
  ↔ x ∈ workflowValidation isValidName isValidRev wd.
Proof.
  intros Hx. unfold validateTasksResult.
  destruct (validateTasks_adds (tasks wd) "workflowDefinition"
              {| errors := workflowValidation isValidName isValidRev wd;
                 taskReferenceNames := ∅ |}) as (added & -> & Hadded).
  simpl. rewrite elem_of_app. split; [|by left].
  intros [H|H]; [done|]. rewrite Forall_forall in Hadded. by apply Hadded in H.
Qed.

(** The constructor returns the definition exactly when no error was
    collected. *)
Lemma WorkflowDefinition_Ok (wd wd' : IWorkflowDefinition) :
  WorkflowDefinition isValidName isValidRev wd = Ok wd' →
  errors (validateTasksResult isValidName isValidRev wd) = [].
Proof.
  unfold WorkflowDefinition.
  by destruct (errors (validateTasksResult isValidName isValidRev wd)).
Qed.

End Facts.

Lemma retry_message_top_level :
  ¬ startsWith ("workflowDefinition" +:+ ".tasks[") "workflowDefinition.retry is invalid".
Proof. intros [rest H]. cbv [String.append] in H. discriminate. Qed.

Lemma recoveryWorkflow_message_top_level :
  ¬ startsWith ("workflowDefinition" +:+ ".tasks[")
      "workflowDefinition.recoveryWorkflow is invalid".
Proof. intros [rest H]. cbv [String.append] in H. discriminate. Qed.

(** C6, as amended. For a definition whose [failureStrategy] is [Retry],
    the error "workflowDefinition.retry is invalid" is reported exactly when
    [retry.limit] or [retry.delaySecond] is not a number, and the
    constructor succeeds only if both are numbers; their sign is not
    looked at. *)
Theorem retry_config_checked_for_numbers
    (isValidName : string → bool) (isValidRev : JsValue → bool)
    (wd : IWorkflowDefinition) :
  failureStrategy wd = Some State.WorkflowFailureStrategies.Retry →
  ("workflowDefinition.retry is invalid"
     ∈ errors (validateTasksResult isValidName isValidRev wd)
   ↔ isNumber (path (retry wd) limit) = false
     ∨ isNumber (path (retry wd) delaySecond) = false)
  ∧ (∀ wd', WorkflowDefinition isValidName isValidRev wd = Ok wd' →
       isNumber (path (retry wd) limit) = true
       ∧ isNumber (path (retry wd) delaySecond) = true).
Proof.
  intros Hstrategy.
  assert ("workflowDefinition.retry is invalid"
            ∈ errors (validateTasksResult isValidName isValidRev wd)
          ↔ isNumber (path (retry wd) limit) = false
            ∨ isNumber (path (retry wd) delaySecond) = false) as Hiff.
  { rewrite (top_level_error _ _ _ _ retry_message_top_level), workflowValidation_elem.
    unfold isFailureStrategiesConfigValid. rewrite Hstrategy.
    rewrite bool_decide_eq_true_2 by done. simpl.
    rewrite orb_true_iff, !negb_true_iff. split.
    - intros [[_ [=]]|[[_ [=]]|[[_ [=]]|[[H _]|[_ [=]]]]]]. exact H.
    - intros H. do 3 right. left. done. }
  split; [exact Hiff|].
  intros wd' Hok. apply WorkflowDefinition_Ok in Hok.
  destruct (isNumber (path (retry wd) limit)) eqn:Hl,
           (isNumber (path (retry wd) delaySecond)) eqn:Hd; try done;
    exfalso; (assert ("workflowDefinition.retry is invalid"
                        ∈ errors (validateTasksResult isValidName isValidRev wd)) as Hin
                by (apply Hiff; auto));
    rewrite Hok in Hin; by apply elem_of_nil in Hin.
Qed.

Lemma retry_config_checked_for_numbers_witness :
  "workflowDefinition.retry is invalid"
    ∈ errors (validateTasksResult isValidName isValidRev Samples.textualRetry)
  ∧ "workflowDefinition.retry is invalid"
    ∉ errors (validateTasksResult isValidName isValidRev Samples.negativeRetry).
Proof.
  split.
  - apply (retry_config_checked_for_numbers isValidName isValidRev Samples.textualRetry).
    + reflexivity.
    + left. reflexivity.
  - intros Hin.
    apply (retry_config_checked_for_numbers isValidName isValidRev Samples.negativeRetry)
      in Hin; [|reflexivity].
    destruct Hin as [H|H]; vm_compute in H; discriminate H.
Defined.

(** C6 as stated fails: a [Retry] definition whose [retry.limit] is -1 and
    whose [retry.delaySecond] is -5 passes validation. *)
Lemma negative_retry_accepted :
  failureStrategy Samples.negativeRetry = Some State.WorkflowFailureStrategies.Retry
  ∧ retry Samples.negativeRetry
    = Some {| limit := JsNumber (-1); delaySecond := JsNumber (-5) |}
  ∧ WorkflowDefinition isValidName isValidRev Samples.negativeRetry
    = Ok Samples.negativeRetry.
Proof. split; [reflexivity|]. split; [reflexivity|]. vm_compute. reflexivity. Qed.

(** C7, as amended. For a definition whose [failureStrategy] is
    [RecoveryWorkflow], the error "workflowDefinition.recoveryWorkflow is
    invalid" is reported exactly when [recoveryWorkflow.name] is not a
    string or [recoveryWorkflow.rev] is not a number, and the constructor
    succeeds only if the one is a string and the other a number; neither is
    matched against the name or revision pattern. *)
Theorem recoveryWorkflow_config_checked_for_types
    (isValidName : string → bool) (isValidRev : JsValue → bool)
    (wd : IWorkflowDefinition) :
  failureStrategy wd = Some State.WorkflowFailureStrategies.RecoveryWorkflow →
  ("workflowDefinition.recoveryWorkflow is invalid"
     ∈ errors (validateTasksResult isValidName isValidRev wd)
   ↔ isString (path (recoveryWorkflow wd) recoveryWorkflow_name) = false
     ∨ isNumber (path (recoveryWorkflow wd) recoveryWorkflow_rev) = false)
  ∧ (∀ wd', WorkflowDefinition isValidName isValidRev wd = Ok wd' →
       isString (path (recoveryWorkflow wd) recoveryWorkflow_name) = true
       ∧ isNumber (path (recoveryWorkflow wd) recoveryWorkflow_rev) = true).
Proof.
  intros Hstrategy.
  assert ("workflowDefinition.recoveryWorkflow is invalid"
            ∈ errors (validateTasksResult isValidName isValidRev wd)
          ↔ isString (path (recoveryWorkflow wd) recoveryWorkflow_name) = false
            ∨ isNumber (path (recoveryWorkflow wd) recoveryWorkflow_rev) = false) as Hiff.
  { rewrite (top_level_error _ _ _ _ recoveryWorkflow_message_top_level),
      workflowValidation_elem.
    unfold isRecoveryWorkflowConfigValid. rewrite Hstrategy.
    rewrite bool_decide_eq_true_2 by done. simpl.
    rewrite orb_true_iff, !negb_true_iff. split.
    - intros [[_ [=]]|[[_ [=]]|[[H _]|[[_ [=]]|[_ [=]]]]]]. exact H.
    - intros H. do 2 right. left. done. }
  split; [exact Hiff|].
  intros wd' Hok. apply WorkflowDefinition_Ok in Hok.
  destruct (isString (path (recoveryWorkflow wd) recoveryWorkflow_name)) eqn:Hn,
           (isNumber (path (recoveryWorkflow wd) recoveryWorkflow_rev)) eqn:Hr; try done;
    exfalso; (assert ("workflowDefinition.recoveryWorkflow is invalid"
                        ∈ errors (validateTasksResult isValidName isValidRev wd)) as Hin
                by (apply Hiff; auto));
    rewrite Hok in Hin; by apply elem_of_nil in Hin.
Qed.

Lemma recoveryWorkflow_config_checked_for_types_witness :
  "workflowDefinition.recoveryWorkflow is invalid"
    ∈ errors (validateTasksResult isValidName isValidRev Samples.missingRecovery)
  ∧ "workflowDefinition.recoveryWorkflow is invalid"
    ∉ errors (validateTasksResult isValidName isValidRev Samples.namelessRecovery).
Proof.
  split.
  - apply (recoveryWorkflow_config_checked_for_types isValidName isValidRev
             Samples.missingRecovery).
    + reflexivity.
    + left. reflexivity.
  - intros Hin.
    apply (recoveryWorkflow_config_checked_for_types isValidName isValidRev
             Samples.namelessRecovery) in Hin; [|reflexivity].
    destruct Hin as [H|H]; vm_compute in H; discriminate H.
Defined.

(** C7 as stated fails: a [RecoveryWorkflow] definition whose
    [recoveryWorkflow.name] is the empty string, which is not a valid name,
    passes validation. *)
Lemma nameless_recovery_accepted :
  failureStrategy Samples.namelessRecovery
  = Some State.WorkflowFailureStrategies.RecoveryWorkflow
  ∧ recoveryWorkflow Samples.namelessRecovery
    = Some {| recoveryWorkflow_name := JsString EmptyString;
              recoveryWorkflow_rev := JsNumber 1 |}
  ∧ isValidName EmptyString = false
  ∧ WorkflowDefinition isValidName isValidRev Samples.namelessRecovery
    = Ok Samples.namelessRecovery.
Proof. repeat (split; [reflexivity|]). vm_compute. reflexivity. Qed.

(** C8. A definition with the single task reference name [constructor]
    (a valid name, and no other node to clash with) is rejected with
    "workflowDefinition.tasks[0].taskReferenceName is duplicated": the
    lookup in the object of seen names finds [Object.prototype.constructor]. *)
Theorem prototype_name_reported_duplicated :
  isValidName "constructor" = true
  ∧ errors (validateTasksResult isValidName isValidRev Samples.constructorTask)
    = ["workflowDefinition.tasks[0].taskReferenceName is duplicated"].
Proof. split; vm_compute; reflexivity. Qed.

(** Where the names are ordinary, a second occurrence inside a lane of a
    Parallel node is reported at its path. *)
Example nested_duplicate_reported :
  errors (validateTasksResult isValidName isValidRev Samples.nestedDuplicate)
  = ["workflowDefinition.tasks[1].parallelTasks[1].tasks[0].taskReferenceName is duplicated"].
Proof. vm_compute. reflexivity. Qed.

End ValidationFacts.

(** ** workflowDefinition.ts: the test for duplicated reference names *)

Module DuplicateFacts.
Import Js workflowDefinition.

Lemma list_ascii_of_string_append (a b : string) :
  String.list_ascii_of_string (a +:+ b)
  = String.list_ascii_of_string a ++ String.list_ascii_of_string b.
Proof.
  induction a as [|x a IH]; [done|].
  unfold String.append; fold String.append. simpl. by rewrite IH.
Qed.

Lemma isDuplicatedError_duplicated (path : string) :
  isDuplicatedError (path +:+ ".taskReferenceName is duplicated") = true.
Proof.
  unfold isDuplicatedError. apply bool_decide_eq_true.
  rewrite list_ascii_of_string_append. by apply suffix_app_r.
Qed.

(** A message that ends with [ending] is no such error when neither of
    [ending] and [.taskReferenceName is duplicated] ends with the other. *)
Lemma isDuplicatedError_other (path ending : string) :
  isDuplicatedError ending = false →
  bool_decide (String.list_ascii_of_string ending
               `suffix_of` String.list_ascii_of_string ".taskReferenceName is duplicated")
  = false →
  isDuplicatedError (path +:+ ending) = false.
Proof.
  unfold isDuplicatedError. rewrite !bool_decide_eq_false.
  intros Hending Hduplicated. rewrite list_ascii_of_string_append. intros Hsuffix.
  destruct (suffix_weak_total _ _ _ Hsuffix (suffix_app_r _ _ _ (reflexivity _)));
    tauto.
Qed.

Lemma scans_refl (r : TasksValidateOutput) : scans [] r r.
Proof. split; simpl; [done | lia]. Qed.

Lemma duplicates_app (seen : gmap string string) (names names' : list string) :
  duplicates seen (names ++ names')
  = (duplicates seen names + duplicates (fold_left see names seen) names')%nat.
Proof.
  revert seen. induction names as [|key names IH]; intros seen; simpl; [done|].
  rewrite IH. lia.
Qed.

Lemma scans_trans (names names' : list string) (r1 r2 r3 : TasksValidateOutput) :
  scans names r1 r2 → scans names' r2 r3 → scans (names ++ names') r1 r3.
Proof.
  intros [Hseen Hcount] [Hseen' Hcount']. split.
  - by rewrite Hseen', Hseen, fold_left_app.
  - rewrite Hcount', Hcount, Hseen, duplicates_app. lia.
Qed.

(** A conditional push of a message of another kind changes nothing of a
    scan. *)
Lemma scans_pushIf_other (names : list string) (condition : bool)
    (path ending : string) (r r' : TasksValidateOutput) :
  isDuplicatedError ending = false →
  bool_decide (String.list_ascii_of_string ending
               `suffix_of` String.list_ascii_of_string ".taskReferenceName is duplicated")
  = false →
  scans names r r' → scans names r (pushIf condition (path +:+ ending) r').
Proof.
  intros Hending Hduplicated [Hseen Hcount].
  destruct condition; [|done]. split; [done|].
  rewrite <- Hcount. unfold duplicatedErrors. simpl.
  rewrite filter_app, filter_cons_False, filter_nil, app_nil_r; [done|].
  by rewrite isDuplicatedError_other.
Qed.

(** The test on [key], with its two outcomes. *)
Lemma scans_test (path : string) (key : string) (r r' : TasksValidateOutput) :
  scans [] r r' →
  scans [key] r
    (if truthyProperty (taskReferenceNames r') key
     then push (path +:+ ".taskReferenceName is duplicated") r'
     else remember key r').
Proof.
  unfold scans, duplicatedErrors. cbn [fold_left duplicates]. unfold see.
  intros [Hseen Hcount]. rewrite <- Hseen.
  destruct (truthyProperty _ _); cbn [push remember errors taskReferenceNames];
    (split; [done|]).
  - rewrite filter_app, filter_cons_True by apply isDuplicatedError_duplicated.
    rewrite length_app. cbn [length filter]. rewrite filter_nil. simpl. lia.
  - lia.
Qed.

Lemma reduceFrom_scans {A} (names : A → list string)
    (callback : TasksValidateOutput → A → nat → TasksValidateOutput) (l : list A) :
  Forall (fun x => ∀ r index, scans (names x) r (callback r x index)) l →
  ∀ index r, scans (flat_map names l) r (reduceFrom callback index r l).
Proof.
  induction 1 as [|x l Hx _ IH]; intros index r; simpl.
  - apply scans_refl.
  - eapply scans_trans; [apply Hx | apply IH].
Qed.

Lemma fold_left_scans {A} (names : A → list string)
    (callback : TasksValidateOutput → A → TasksValidateOutput) (l : list A) :
  Forall (fun x => ∀ r, scans (names x) r (callback r x)) l →
  ∀ r, scans (flat_map names l) r (fold_left callback l r).
Proof.
  induction 1 as [|x l Hx _ IH]; intros r; simpl.
  - apply scans_refl.
  - eapply scans_trans; [apply Hx | apply IH].
Qed.

Section Facts.

Variable isValidName : string → bool.
Variable isValidRev : JsValue → bool.

Lemma validateNode_scans (task : AllTaskType) (currentRoot : string)
    (r : TasksValidateOutput) :
  scans [taskReferenceName (base task)] r (validateNode isValidName task currentRoot r).
Proof.
  unfold validateNode.
  apply scans_pushIf_other; [vm_compute; reflexivity ..|].
  apply scans_test.
  do 2 (apply scans_pushIf_other; [vm_compute; reflexivity ..|]).
  apply scans_refl.
Qed.

Lemma validateTasksWith_scans
    (reducer : AllTaskType → string → TasksValidateOutput → TasksValidateOutput)
    (tasks : list AllTaskType) (root : string) (r : TasksValidateOutput) :
  Forall (fun task => ∀ currentRoot r,
            scans (referenceNames task) r (reducer task currentRoot r)) tasks →
  scans (flat_map referenceNames tasks) r (validateTasksWith reducer tasks root r).
Proof.
  intros Htasks. unfold validateTasksWith, reduce. apply reduceFrom_scans.
  eapply Forall_impl; [exact Htasks|]. intros task Htask r0 index. apply Htask.
Qed.

(** The validation of a node puts its reference names, in order, through
    the test. *)
Lemma validateTask_scans (task : AllTaskType) :
  ∀ currentRoot r,
    scans (referenceNames task) r (validateTask isValidName isValidRev task currentRoot r).
Proof.
  induction task as [b|b lanes IH|b w|b decisions dflt IHd IHdflt|b ty]
    using AllTaskType_nested_ind; intros currentRoot r;
    cbn [validateTask referenceNames].
  - apply validateNode_scans.
  - apply (scans_trans [_] _ _ (validateNode isValidName (Parallel b lanes) currentRoot r));
      [apply validateNode_scans|].
    apply reduceFrom_scans.
    eapply Forall_impl; [exact IH|]. intros lane Hlane r0 index.
    by apply validateTasksWith_scans.
  - do 2 (apply scans_pushIf_other; [vm_compute; reflexivity ..|]).
    apply validateNode_scans.
  - apply (scans_trans [_] _ _
             (pushIf (match dflt with [] => true | _ => false end)
                (currentRoot +:+ ".defaultDecision cannot be empty")
                (validateNode isValidName (Decision b decisions dflt) currentRoot r))).
    { apply scans_pushIf_other; [vm_compute; reflexivity ..|].
      apply validateNode_scans. }
    eapply scans_trans; [by apply validateTasksWith_scans|].
    apply (fold_left_scans (fun decision => flat_map referenceNames decision.2)).
    eapply Forall_impl; [exact IHd|]. intros [decision tasks] Htasks r0.
    by apply validateTasksWith_scans.
  - apply validateNode_scans.
Qed.

Lemma workflowValidation_duplicatedErrors (d : IWorkflowDefinition) :
  filter (fun message => isDuplicatedError message = true)
    (workflowValidation isValidName isValidRev d) = [].
Proof.
  unfold workflowValidation.
  destruct (negb (isValidName _)), (negb (isValidRev _)),
    (isRecoveryWorkflowConfigValid d), (isFailureStrategiesConfigValid d),
    (isEmptyTasks d); vm_compute; reflexivity.
Qed.

(** The constructor reports as many duplicated reference names as the test
    fires on the reference names of the definition, met in order from the
    empty object. *)
Lemma validateTasksResult_duplicatedErrors (d : IWorkflowDefinition) :
  length (duplicatedErrors (validateTasksResult isValidName isValidRev d))
  = duplicates ∅ (definitionReferenceNames d).
Proof.
  unfold validateTasksResult, validateTasks.
  destruct (validateTasksWith_scans (validateTask isValidName isValidRev) (tasks d)
              "workflowDefinition"
              {| errors := workflowValidation isValidName isValidRev d;
                 taskReferenceNames := ∅ |}) as [_ Hcount].
  - apply Forall_forall. intros task _. apply validateTask_scans.
  - rewrite Hcount. unfold duplicatedErrors at 1. simpl.
    by rewrite workflowValidation_duplicatedErrors.
Qed.

End Facts.

Lemma selfMapped_see (seen : gmap string string) (key : string) :
  selfMapped seen → selfMapped (see seen key).
Proof.
  intros Hseen. unfold see. destruct (truthyProperty seen key); [done|].
  intros key' value. destruct (decide (key' = key)) as [->|Hother].
  - rewrite lookup_insert_eq. congruence.
  - rewrite lookup_insert_ne by done. apply Hseen.
Qed.

(** On an ordinary name the test is the membership test it is meant to be. *)
Lemma truthyProperty_ordinary (seen : gmap string string) (key : string) :
  selfMapped seen → ordinary key →
  truthyProperty seen key = bool_decide (is_Some (seen !! key)).
Proof.
  intros Hseen [Hnonempty Hprototype]. unfold truthyProperty.
  destruct (seen !! key) as [value|] eqn:Hkey.
  - rewrite (Hseen _ _ Hkey). rewrite (bool_decide_eq_true_2 (is_Some _)) by eauto.
    apply negb_true_iff, String.eqb_neq, Hnonempty.
  - rewrite (bool_decide_eq_false_2 (is_Some None)) by apply is_Some_None.
    by apply bool_decide_eq_false.
Qed.

Lemma duplicates_ordinary (names : list string) :
  Forall ordinary names →
  ∀ seen, selfMapped seen →
    duplicates seen names = 0%nat
    ↔ NoDup names ∧ Forall (fun key => seen !! key = None) names.
Proof.
  induction 1 as [|key names Hkey _ IH]; intros seen Hseen; simpl.
  - split; [intros _; split; constructor | done].
  - pose proof (selfMapped_see seen key Hseen) as Hsee. revert Hsee. unfold see.
    rewrite (truthyProperty_ordinary _ _ Hseen Hkey).
    destruct (seen !! key) as [value|] eqn:Hlookup.
    + rewrite (bool_decide_eq_true_2 (is_Some _)) by eauto. intros _. split; [lia|].
      intros [_ Hnone]. apply Forall_cons in Hnone as [Hnone _]. congruence.
    + rewrite (bool_decide_eq_false_2 (is_Some None)) by apply is_Some_None.
      intros Hsee. simpl. rewrite (IH _ Hsee).
      rewrite NoDup_cons, Forall_cons. rewrite !Forall_forall.
      split.
      * intros [Hnodup Hfresh]. split; [split; [|done]|split; [done|]].
        -- intros Hin. specialize (Hfresh _ Hin). by rewrite lookup_insert_eq in Hfresh.
        -- intros key' Hin. specialize (Hfresh _ Hin).
           destruct (decide (key' = key)) as [->|Hother];
             [by rewrite lookup_insert_eq in Hfresh|].
           by rewrite lookup_insert_ne in Hfresh.
      * intros [[Hnotin Hnodup] [_ Hfresh]]. split; [done|].
        intros key' Hin. rewrite lookup_insert_ne by (intros ->; done).
        by apply Hfresh.
Qed.

(** X15. Where every reference name of a definition is ordinary (not empty,
    not a property of [Object.prototype]), the constructor reports a
    duplicated reference name exactly when two nodes, wherever they are in
    the definition, share one. *)
Theorem ordinary_names_duplicated_iff (isValidName : string → bool)
    (isValidRev : JsValue → bool) (d : IWorkflowDefinition) :
  Forall ordinary (definitionReferenceNames d) →
  duplicatedErrors (validateTasksResult isValidName isValidRev d) = []
  ↔ NoDup (definitionReferenceNames d).
Proof.
  intros Hordinary.
  rewrite <- length_zero_iff_nil, validateTasksResult_duplicatedErrors.
  rewrite (duplicates_ordinary _ Hordinary ∅) by (intros key value; by rewrite lookup_empty).
  split; [tauto|]. intros Hnodup. split; [done|].
  apply Forall_forall. intros key _. apply lookup_empty.
Qed.

(** The definition of [nested_duplicate_reported] is such a definition. *)
Example nestedDuplicate_names :
  definitionReferenceNames Samples.nestedDuplicate = ["t1"; "p"; "t2"; "t1"]
  ∧ Forall ordinary (definitionReferenceNames Samples.nestedDuplicate).
Proof.
  split; [reflexivity|]. repeat constructor; try discriminate;
    apply (bool_decide_eq_false_1 _); vm_compute; reflexivity.
Qed.

(** A repeated empty reference name is reported as invalid, twice, but not as
    duplicated: the name stored at its first occurrence is falsy. *)
Example empty_duplicate_not_reported :
  definitionReferenceNames Samples.emptyNames = [EmptyString; EmptyString]
  ∧ errors (validateTasksResult isValidName isValidRev Samples.emptyNames)
    = [ "workflowDefinition.tasks[0].taskReferenceName is invalid";
        "workflowDefinition.tasks[1].taskReferenceName is invalid" ].
Proof. split; vm_compute; reflexivity. Qed.

End DuplicateFacts.

(** ** The state engine *)

Module EngineFacts.
Import Js Engine.

(** Unfolds the engine down to the stores and the effect list; stops at the
    tests the hypotheses decide. *)
Tactic Notation "run" "in" hyp(H) :=
  cbv beta iota zeta delta
      [ bind ret effect sendEvent dispatch getStores freshId
        setTransactionInstances setWorkflowInstances setTaskInstances
        Engine.updateWorkflow Engine.updateTransaction failTransaction
        reloadTask createTask createWorkflow createWorkflowWith
        completeWorkflow finishWorkflow
        handleFailedWorkflow handleFailedTask handleCompletedTask withWorkflowOf ] in H;
  cbn [ mapTransactionInstances mapWorkflowInstances mapTaskInstances allocated
        transactionInstances workflowInstances taskInstances workflowDefinitions nextId
        withTaskStatus retriedTask withWorkflowStatus workerUpdate updatedTransaction
        newTask newWorkflow compensateDefinition
        WorkflowDefinition.tasks WorkflowDefinition.failureStrategy
        WorkflowDefinition.workflowName WorkflowDefinition.rev
        WorkflowDefinition.name WorkflowDefinition.taskReferenceName
        WorkflowDefinition.type WorkflowDefinition.inputParameters
        WorkflowDefinition.retry_limit WorkflowDefinition.retry_delay
        Task.taskId Task.taskName Task.taskReferenceName Task.workflowId
        Task.transactionId Task.type Task.status Task.input Task.output
        Task.retries Task.retryLimit Task.retryDelay Task.isRetried
        Workflow.workflowId Workflow.transactionId Workflow.type Workflow.status
        Workflow.workflowDefinition Workflow.input Workflow.output Workflow.retries
        Transaction.transactionId Transaction.status Transaction.workflowDefinition
        Transaction.input Transaction.output Transaction.createTime Transaction.endTime
        Event.taskUpdate_transactionId Event.taskId Event.taskUpdate_status
        Event.taskUpdate_output Event.isSystem
        negb app ] in H.

Ltac run :=
  cbv beta iota zeta delta
      [ bind ret effect sendEvent dispatch getStores freshId
        setTransactionInstances setWorkflowInstances setTaskInstances
        Engine.updateWorkflow Engine.updateTransaction failTransaction
        reloadTask createTask createWorkflow createWorkflowWith
        completeWorkflow finishWorkflow
        handleFailedWorkflow handleFailedTask handleCompletedTask withWorkflowOf ];
  cbn [ mapTransactionInstances mapWorkflowInstances mapTaskInstances allocated
        transactionInstances workflowInstances taskInstances workflowDefinitions nextId
        withTaskStatus retriedTask withWorkflowStatus workerUpdate updatedTransaction
        newTask newWorkflow compensateDefinition
        WorkflowDefinition.tasks WorkflowDefinition.failureStrategy
        WorkflowDefinition.workflowName WorkflowDefinition.rev
        WorkflowDefinition.name WorkflowDefinition.taskReferenceName
        WorkflowDefinition.type WorkflowDefinition.inputParameters
        WorkflowDefinition.retry_limit WorkflowDefinition.retry_delay
        Task.taskId Task.taskName Task.taskReferenceName Task.workflowId
        Task.transactionId Task.type Task.status Task.input Task.output
        Task.retries Task.retryLimit Task.retryDelay Task.isRetried
        Workflow.workflowId Workflow.transactionId Workflow.type Workflow.status
        Workflow.workflowDefinition Workflow.input Workflow.output Workflow.retries
        Transaction.transactionId Transaction.status Transaction.workflowDefinition
        Transaction.input Transaction.output Transaction.createTime Transaction.endTime
        Event.taskUpdate_transactionId Event.taskId Event.taskUpdate_status
        Event.taskUpdate_output Event.isSystem
        negb app ].

(** Decides a test of [includes] on closed arguments. *)
Ltac evaluate_includes :=
  match goal with
  | |- context [includes ?l ?x] =>
      let b := eval vm_compute in (includes l x) in
      change (includes l x) with b
  end.

(** *** The task store *)

Lemma findTask_Some (taskId : nat) (tasks : list Task.ITask) (task : Task.ITask) :
  findTask taskId tasks = Some task → Task.taskId task = taskId ∧ task ∈ tasks.
Proof.
  unfold findTask. intros H. apply find_some in H as [Hin Heq].
  split; [by apply Nat.eqb_eq | by apply list_elem_of_In].
Qed.

Lemma findTask_replaceTask (taskId : nat) (replacement task : Task.ITask)
    (tasks : list Task.ITask) :
  findTask taskId tasks = Some task → Task.taskId replacement = taskId →
  findTask taskId (replaceTask taskId replacement tasks) = Some replacement.
Proof.
  unfold findTask, replaceTask. intros Hfind Hid.
  induction tasks as [|t tasks IH]; simpl in *; [done|].
  destruct (Nat.eqb (Task.taskId t) taskId) eqn:Ht; simpl.
  - by rewrite Hid, Nat.eqb_refl.
  - rewrite Ht. by apply IH.
Qed.


Lemma findTask_app_fresh (newId : nat) (new : Task.ITask) (tasks : list Task.ITask) :
  Task.taskId new = newId → (∀ t, t ∈ tasks → Task.taskId t ≠ newId) →
  findTask newId (tasks ++ [new]) = Some new.
Proof.
  unfold findTask. intros Hid Hfresh.
  induction tasks as [|t tasks IH]; simpl.
  - by rewrite Hid, Nat.eqb_refl.
  - assert (Nat.eqb (Task.taskId t) newId = false) as ->.
    { apply Nat.eqb_neq, Hfresh. left. }
    apply IH. intros t' Ht'. apply Hfresh. by right.
Qed.

Lemma replaceTask_ids (taskId : nat) (replacement : Task.ITask) (tasks : list Task.ITask) :
  Task.taskId replacement = taskId →
  map Task.taskId (replaceTask taskId replacement tasks) = map Task.taskId tasks.
Proof.
  intros Hid. unfold replaceTask. rewrite map_map. apply map_ext_in.
  intros t _. destruct (Nat.eqb (Task.taskId t) taskId) eqn:Ht; [|done].
  apply Nat.eqb_eq in Ht. congruence.
Qed.

Lemma elem_of_replaceTask (taskId : nat) (replacement t : Task.ITask)
    (tasks : list Task.ITask) :
  t ∈ replaceTask taskId replacement tasks → t = replacement ∨ t ∈ tasks.
Proof.
  unfold replaceTask. rewrite list_elem_of_fmap. intros (t0 & -> & Hin).
  destruct (Nat.eqb _ _); auto.
Qed.

Lemma taskIdsFresh_replace (stores : Stores) (taskId : nat) (replacement : Task.ITask) :
  Task.taskId replacement = taskId → taskId < nextId stores →
  taskIdsFresh stores →
  taskIdsFresh (mapTaskInstances (replaceTask taskId replacement) stores).
Proof.
  intros Hid Hlt [Hnodup Hbound]. split; simpl.
  - by rewrite replaceTask_ids.
  - intros t [->|Hin]%elem_of_replaceTask; [lia | by apply Hbound].
Qed.


Lemma NoDup_rev {A} (l : list A) : NoDup l → NoDup (rev l).
Proof.
  intros H. rewrite rev_alt. change (rev_append l []) with (reverse l).
  by rewrite reverse_Permutation.
Qed.

Lemma taskId_unique (tasks : list Task.ITask) (t1 t2 : Task.ITask) :
  NoDup (map Task.taskId tasks) → t1 ∈ tasks → t2 ∈ tasks →
  Task.taskId t1 = Task.taskId t2 → t1 = t2.
Proof.
  induction tasks as [|t tasks IH]; simpl; [by intros _ ?%elem_of_nil|].
  rewrite NoDup_cons. intros [Hnotin Hnodup] H1 H2 Heq.
  apply elem_of_cons in H1 as [->|H1], H2 as [->|H2]; [done| | |by apply IH].
  - exfalso. apply Hnotin, list_elem_of_fmap. by exists t2.
  - exfalso. apply Hnotin, list_elem_of_fmap. by exists t1.
Qed.

(** Replacing instances that do not satisfy [P] by one that does not either
    leaves the instances that satisfy [P] as they were. *)
Lemma filter_replaceTask (P : Task.ITask → bool) (taskId : nat) (replacement : Task.ITask)
    (tasks : list Task.ITask) :
  (∀ t, t ∈ tasks → Task.taskId t = taskId → P t = false) →
  P replacement = false →
  filter (fun t => P t = true) (replaceTask taskId replacement tasks)
  = filter (fun t => P t = true) tasks.
Proof.
  intros Hold Hnew. unfold replaceTask.
  induction tasks as [|t tasks IH]; [done|].
  cbn [map]. rewrite !filter_cons.
  rewrite IH by (intros t' Ht'; apply Hold; by right).
  destruct (Nat.eqb (Task.taskId t) taskId) eqn:Ht; [|done].
  apply Nat.eqb_eq in Ht. rewrite Hnew, (Hold t) by (done || left).
  by rewrite !decide_False by done.
Qed.

Lemma isCompensable_status (workflowId : nat) (task : Task.ITask) :
  Task.status task ≠ State.TaskStates.Completed → isCompensable workflowId task = false.
Proof.
  intros Hstatus. unfold isCompensable.
  rewrite (bool_decide_eq_false_2 _ Hstatus). by rewrite andb_false_r.
Qed.

(** The tasks a compensation of [workflowId] undoes are not affected by the
    round in which the live task [task] fails. *)
Lemma compensable_after_failure (stores : Stores) (workflowId : nat) (task : Task.ITask) :
  taskIdsFresh stores →
  findTask (Task.taskId task) (taskInstances stores) = Some task →
  Task.status task = State.TaskStates.Scheduled →
  let inprogress := withTaskStatus task State.TaskStates.Inprogress JsUndefined in
  let failed := withTaskStatus inprogress State.TaskStates.Failed JsUndefined in
  filter (fun t => isCompensable workflowId t = true)
    (replaceTask (Task.taskId task) failed
       (replaceTask (Task.taskId task) inprogress (taskInstances stores)))
  = filter (fun t => isCompensable workflowId t = true) (taskInstances stores).
Proof.
  intros [Hnodup _] Hfind Hscheduled inprogress failed.
  apply findTask_Some in Hfind as [_ Hin].
  assert (∀ t, t ∈ taskInstances stores → Task.taskId t = Task.taskId task →
               isCompensable workflowId t = false) as Hold.
  { intros t Ht Hid. rewrite (taskId_unique _ _ _ Hnodup Ht Hin Hid).
    apply isCompensable_status. by rewrite Hscheduled. }
  rewrite filter_replaceTask.
  - apply filter_replaceTask; [exact Hold|]. by apply isCompensable_status.
  - intros t [->|Ht]%elem_of_replaceTask Hid.
    + by apply isCompensable_status.
    + by apply Hold.
  - by apply isCompensable_status.
Qed.

Section Facts.

Variable resolveInput :
  Workflow.IWorkflow → list Task.ITask → WorkflowDefinition.ITaskNode → JsValue.
Variable resolveOutput : Workflow.IWorkflow → list Task.ITask → JsValue.
Variable now : Z.

Abbreviation processUpdateTask := (processUpdateTask resolveInput resolveOutput now).
Abbreviation processUpdateTasks := (processUpdateTasks resolveInput resolveOutput now).
Abbreviation updateTask := (updateTask resolveInput resolveOutput now).

(** The checks of section 4.2 on an update that changes the status of a
    stored task along the table. *)
Ltac accept Hfind Htx Hto Hfrom :=
  unfold Engine.processUpdateTask; run; rewrite Hfind;
  rewrite <- ?Htx, String.eqb_refl; cbn [negb];
  rewrite ?Hto, ?Hfrom; rewrite bool_decide_eq_false_2 by done;
  cbn [State.isTaskTransitionAllowed impliesInprogress negb]; run.

(** An acknowledgement moves a [Scheduled] task to [Inprogress] and
    announces it. *)
Lemma processUpdateTask_ack (stores : Stores) (update : Event.ITaskUpdate)
    (task : Task.ITask) :
  findTask (Event.taskId update) (taskInstances stores) = Some task →
  Task.transactionId task = Event.taskUpdate_transactionId update →
  Event.taskUpdate_status update = State.TaskStates.Inprogress →
  Task.status task = State.TaskStates.Scheduled →
  let inprogress :=
    withTaskStatus task State.TaskStates.Inprogress (Event.taskUpdate_output update) in
  processUpdateTask update stores
  = (tt, mapTaskInstances (replaceTask (Task.taskId task) inprogress) stores,
     [Store TaskUpdate; SendEvent (TaskEvent inprogress)]).
Proof.
  intros Hfind Htx Hto Hfrom. accept Hfind Htx Hto Hfrom. reflexivity.
Qed.


Lemma processUpdateTasks_one (update : Event.ITaskUpdate) (stores stores' : Stores)
    (effects : list Effect) :
  processUpdateTask update stores = (tt, stores', effects) →
  processUpdateTasks [update] stores = (tt, stores', effects).
Proof.
  intros H. cbn [Engine.processUpdateTasks]. unfold bind, ret.
  rewrite H. by rewrite app_nil_r.
Qed.

(** A round of the worker is its acknowledgement followed by its report. *)
Lemma updateTask_round (task : Task.ITask) (status : State.TaskStates.t)
    (stores stores1 stores2 : Stores) (effects1 effects2 : list Effect) :
  processUpdateTask (workerUpdate task State.TaskStates.Inprogress) stores
  = (tt, stores1, effects1) →
  processUpdateTask (workerUpdate task status) stores1 = (tt, stores2, effects2) →
  updateTask task status stores = (tt, stores2, effects1 ++ effects2).
Proof.
  intros H1 H2. unfold Engine.updateTask, bind.
  rewrite (processUpdateTasks_one _ _ _ _ H1).
  by rewrite (processUpdateTasks_one _ _ _ _ H2).
Qed.

Lemma acknowledge (stores : Stores) (task : Task.ITask) (workflow : Workflow.IWorkflow)
    (transaction : Transaction.ITransaction) :
  Live stores task workflow transaction →
  let inprogress := withTaskStatus task State.TaskStates.Inprogress JsUndefined in
  processUpdateTask (workerUpdate task State.TaskStates.Inprogress) stores
  = (tt, acknowledged task stores, [Store TaskUpdate; SendEvent (TaskEvent inprogress)])
  ∧ findTask (Task.taskId task) (taskInstances (acknowledged task stores)) = Some inprogress
  ∧ taskIdsFresh (acknowledged task stores).
Proof.
  intros HL. destruct HL. split; [|split].
  - by apply processUpdateTask_ack.
  - eapply findTask_replaceTask; [exact live_task0 | reflexivity].
  - apply taskIdsFresh_replace; [reflexivity| |done].
    apply findTask_Some in live_task0 as [_ Hin]. by apply live_fresh0.
Qed.



Abbreviation workerRounds := (workerRounds resolveInput resolveOutput now).

Lemma workerRounds_round (status : State.TaskStates.t) (rest : list State.TaskStates.t)
    (task : Task.ITask) (stores stores1 : Stores) (effects : list Effect) :
  updateTask task status stores = (tt, stores1, effects) →
  workerRounds (status :: rest) (Some task) stores
  = (let '(stores2, rounds) := workerRounds rest (head (dispatched effects)) stores1 in
     (stores2, effects :: rounds)).
Proof. intros H. cbn [Engine.workerRounds]. by rewrite H. Qed.


(** *** Completion of a sequence *)

Lemma nextTaskNode_unique (pre post : list WorkflowDefinition.ITaskNode)
    (node : WorkflowDefinition.ITaskNode) :
  NoDup (map WorkflowDefinition.taskReferenceName (pre ++ node :: post)) →
  nextTaskNode (pre ++ node :: post) (WorkflowDefinition.taskReferenceName node)
  = head post.
Proof.
  induction pre as [|first pre IH]; simpl.
  - by rewrite String.eqb_refl.
  - rewrite NoDup_cons. intros [Hfirst Hrest].
    destruct (String.eqb_spec (WorkflowDefinition.taskReferenceName first)
                (WorkflowDefinition.taskReferenceName node)) as [Heq|_]; [|by apply IH].
    exfalso. apply Hfirst. rewrite Heq, map_app. apply elem_of_app. right. left.
Qed.

Lemma complete_round_next (stores : Stores) (task : Task.ITask)
    (workflow : Workflow.IWorkflow) (transaction : Transaction.ITransaction)
    (node : WorkflowDefinition.ITaskNode) :
  Live stores task workflow transaction →
  nextTaskNode (WorkflowDefinition.tasks (Workflow.workflowDefinition workflow))
    (Task.taskReferenceName task) = Some node →
  let inprogress := withTaskStatus task State.TaskStates.Inprogress JsUndefined in
  let completed := withTaskStatus inprogress State.TaskStates.Completed JsUndefined in
  let next :=
    newTask resolveInput workflow node (nextId stores)
      (replaceTask (Task.taskId task) completed
         (taskInstances (acknowledged task stores))) in
  updateTask task State.TaskStates.Completed stores
  = (tt, advancedStores resolveInput task workflow node stores,
     [ Store TaskUpdate; SendEvent (TaskEvent inprogress);
       Store TaskUpdate; SendEvent (TaskEvent completed);
       Store TaskCreate;
       Dispatch next (Workflow.transactionId workflow)
         (isSystemTask (WorkflowDefinition.type node));
       SendEvent (TaskEvent next) ])
  ∧ Live (advancedStores resolveInput task workflow node stores) next workflow transaction.
Proof.
  intros HL Hnext inprogress completed next.
  destruct (acknowledge stores task workflow transaction HL) as (Hack & Hfind & Hfresh).
  destruct HL. split.
  - eapply (updateTask_round _ _ _ _ _ _ _ Hack).
    unfold Engine.processUpdateTask; run. rewrite Hfind. run.
    rewrite String.eqb_refl. cbn [negb].
    rewrite bool_decide_eq_false_2 by done.
    cbn [State.isTaskTransitionAllowed impliesInprogress negb]. run.
    unfold acknowledged. run. rewrite live_workflow0. run. rewrite Hnext. run.
    reflexivity.
  - assert (taskIdsFresh (mapTaskInstances (replaceTask (Task.taskId task) completed)
                            (acknowledged task stores))) as [Hnodup Hbound].
    { apply taskIdsFresh_replace; [reflexivity| |done].
      apply findTask_Some in live_task0 as [_ Hin]. by apply live_fresh0. }
    assert (∀ t, t ∈ replaceTask (Task.taskId task) completed
                       (taskInstances (acknowledged task stores)) →
                 Task.taskId t ≠ nextId stores) as Hnew.
    { intros t Ht. apply Hbound in Ht. simpl in Ht. lia. }
    split.
    + split; unfold advancedStores; cbn [taskInstances mapTaskInstances allocated nextId].
      * rewrite map_app. apply NoDup_app. split; [exact Hnodup|]. split.
        -- intros x Hx [->|[]%elem_of_nil]%elem_of_cons.
           apply list_elem_of_fmap in Hx as (t & Heq & Hin).
           apply (Hnew t Hin). by rewrite <- Heq.
        -- apply NoDup_singleton.
      * intros t [Hin|Hin]%elem_of_app.
        -- apply Hbound in Hin. unfold acknowledged in *. simpl in *. lia.
        -- apply list_elem_of_singleton in Hin as ->.
           unfold acknowledged. simpl. lia.
    + apply findTask_app_fresh; [reflexivity|exact Hnew].
    + reflexivity.
    + cbn. by rewrite live_workflowId0.
    + reflexivity.
    + cbn. rewrite live_workflowId0. lia.
    + exact live_running0.
    + reflexivity.
    + cbn. by rewrite live_same_transaction0.
    + exact live_transaction_running0.
Qed.

Lemma complete_round_last (stores : Stores) (task : Task.ITask)
    (workflow : Workflow.IWorkflow) (transaction : Transaction.ITransaction) :
  Live stores task workflow transaction →
  Workflow.type workflow = Workflow.CompensateWorkflow →
  nextTaskNode (WorkflowDefinition.tasks (Workflow.workflowDefinition workflow))
    (Task.taskReferenceName task) = None →
  let inprogress := withTaskStatus task State.TaskStates.Inprogress JsUndefined in
  let completed := withTaskStatus inprogress State.TaskStates.Completed JsUndefined in
  let tasks :=
    replaceTask (Task.taskId task) completed (taskInstances (acknowledged task stores)) in
  updateTask task State.TaskStates.Completed stores
  = (tt, compensatedStores resolveOutput now task workflow transaction stores,
     [ Store TaskUpdate; SendEvent (TaskEvent inprogress);
       Store TaskUpdate; SendEvent (TaskEvent completed);
       Store WorkflowUpdate;
       SendEvent (WorkflowEvent
                    (withWorkflowStatus workflow State.WorkflowStates.Completed
                       (resolveOutput workflow tasks)));
       Store TransactionUpdate;
       SendEvent (TransactionEvent
                    (Engine.updatedTransaction now transaction
                       State.TransactionStates.Compensated JsUndefined)) ]).
Proof.
  intros HL Htype Hnext inprogress completed tasks.
  destruct (acknowledge stores task workflow transaction HL) as (Hack & Hfind & Hfresh).
  destruct HL.
  eapply (updateTask_round _ _ _ _ _ _ _ Hack).
  unfold Engine.processUpdateTask; run. rewrite Hfind. run.
  rewrite String.eqb_refl. cbn [negb].
  rewrite bool_decide_eq_false_2 by done.
  cbn [State.isTaskTransitionAllowed impliesInprogress negb]. run.
  unfold acknowledged. run. rewrite live_workflow0. run. rewrite Hnext. run.
  rewrite Htype. run.
  rewrite live_workflowId0, live_workflow0. run. rewrite live_running0.
  evaluate_includes. run. rewrite ?Htype. run.
  rewrite live_same_transaction0, live_transaction0. run.
  rewrite live_transaction_running0.
  evaluate_includes. run. reflexivity.
Qed.

Lemma dispatched_app (effects1 effects2 : list Effect) :
  dispatched (effects1 ++ effects2) = dispatched effects1 ++ dispatched effects2.
Proof. apply omap_app. Qed.

Lemma sentEvents_app (effects1 effects2 : list Effect) :
  sentEvents (effects1 ++ effects2) = sentEvents effects1 ++ sentEvents effects2.
Proof. apply omap_app. Qed.

Lemma calledTimes_app (call : StoreCall) (effects1 effects2 : list Effect) :
  calledTimes call (effects1 ++ effects2)
  = calledTimes call effects1 + calledTimes call effects2.
Proof. unfold calledTimes. by rewrite filter_app, length_app. Qed.

(** A compensation from the task of [node] on: one round per remaining node,
    each dispatching the task of the next node, and the last one completing
    the workflow and setting the transaction to [Compensated]. *)
Lemma compensation_rounds (post : list WorkflowDefinition.ITaskNode) :
  ∀ (pre : list WorkflowDefinition.ITaskNode) (node : WorkflowDefinition.ITaskNode)
    (stores : Stores) (task : Task.ITask) (workflow : Workflow.IWorkflow)
    (transaction : Transaction.ITransaction),
    Live stores task workflow transaction →
    Workflow.type workflow = Workflow.CompensateWorkflow →
    WorkflowDefinition.tasks (Workflow.workflowDefinition workflow)
    = pre ++ node :: post →
    NoDup (map WorkflowDefinition.taskReferenceName (pre ++ node :: post)) →
    Task.taskReferenceName task = WorkflowDefinition.taskReferenceName node →
    ∃ stores' rounds before completedWorkflow,
      workerRounds (replicate (S (length post)) State.TaskStates.Completed)
        (Some task) stores = (stores', rounds)
      ∧ length rounds = S (length post)
      ∧ map referenceAndType (dispatched (concat rounds)) = map nodeReferenceAndType post
      ∧ calledTimes WorkflowCreate (concat rounds) = 0
      ∧ sentEvents (concat rounds)
        = before ++ [ WorkflowEvent completedWorkflow;
                      TransactionEvent
                        (Engine.updatedTransaction now transaction
                           State.TransactionStates.Compensated JsUndefined) ]
      ∧ Workflow.workflowId completedWorkflow = Workflow.workflowId workflow
      ∧ Workflow.type completedWorkflow = Workflow.CompensateWorkflow
      ∧ Workflow.status completedWorkflow = State.WorkflowStates.Completed
      ∧ transactionInstances stores' !! Task.transactionId task
        = Some (Engine.updatedTransaction now transaction
                  State.TransactionStates.Compensated JsUndefined).
Proof.
  induction post as [|node' post IH];
    intros pre node stores task workflow transaction HL Htype Htasks Hnodup Hname.
  - pose proof (complete_round_last stores task workflow transaction HL Htype) as Hlast.
    cbv zeta in Hlast. rewrite Htasks, Hname, nextTaskNode_unique in Hlast by done.
    specialize (Hlast eq_refl).
    eexists _, [_], [_; _], _. split.
    { cbn [replicate length].
      rewrite (workerRounds_round _ _ _ _ _ _ Hlast). reflexivity. }
    split; [reflexivity|]. split; [reflexivity|]. split; [reflexivity|].
    split; [reflexivity|]. split; [reflexivity|]. split; [exact Htype|].
    split; [reflexivity|]. cbn. apply lookup_insert_eq.
  - destruct (complete_round_next stores task workflow transaction node' HL)
      as [Hround HL1].
    { rewrite Htasks, Hname, nextTaskNode_unique by done. reflexivity. }
    destruct (IH (pre ++ [node]) node' _ _ _ _ HL1 Htype)
      as (stores' & rounds & before & completedWorkflow & Hrounds & Hlen & Hdispatched
          & Hcreate & Hevents & Hid & Htype' & Hstatus & Htransaction).
    { by rewrite <- app_assoc. }
    { by rewrite <- app_assoc. }
    { reflexivity. }
    match type of Hround with
    | _ = (_, _, ?effects) =>
        exists stores', (effects :: rounds), (sentEvents effects ++ before), completedWorkflow
    end.
    split.
    { cbn [replicate length].
      rewrite (workerRounds_round _ _ _ _ _ _ Hround).
      cbn [dispatched omap list_omap head dispatchedTask].
      change (State.TaskStates.Completed :: replicate (length post) State.TaskStates.Completed)
        with (replicate (S (length post)) State.TaskStates.Completed).
      by rewrite Hrounds. }
    split; [simpl; by rewrite Hlen|].
    split.
    { cbn [concat]. rewrite dispatched_app, map_app, Hdispatched. reflexivity. }
    split.
    { cbn [concat]. rewrite calledTimes_app, Hcreate. reflexivity. }
    split.
    { cbn [concat]. rewrite sentEvents_app, Hevents. by rewrite app_assoc. }
    do 3 (split; [done|]).
    destruct HL. cbn in Htransaction. by rewrite <- live_same_transaction0.
Qed.

(** *** Exhaustion under the Compensate strategy *)

(** The round in which [task] fails for good under the Compensate strategy,
    when there is something to compensate... *)
Lemma exhausted_round_Compensate_first (stores : Stores) (task : Task.ITask)
    (workflow : Workflow.IWorkflow) (transaction : Transaction.ITransaction)
    (node : WorkflowDefinition.ITaskNode) (nodes : list WorkflowDefinition.ITaskNode) :
  Live stores task workflow transaction →
  ¬ Task.retries task < Task.retryLimit task →
  WorkflowDefinition.failureStrategy (Workflow.workflowDefinition workflow)
  = State.WorkflowFailureStrategies.Compensate →
  WorkflowDefinition.tasks
    (Workflow.workflowDefinition (compensatingWorkflow task workflow stores))
  = node :: nodes →
  let first := firstCompensateTask resolveInput task workflow stores node in
  updateTask task State.TaskStates.Failed stores
  = (tt,
     mapTaskInstances (fun tasks => tasks ++ [first])
       (allocated (compensatingStores task workflow stores)),
     exhaustionEffects task workflow stores
     ++ [ Store TaskCreate;
          Dispatch first (Workflow.transactionId workflow) false;
          SendEvent (TaskEvent first) ]).
Proof.
  intros HL Hretries Hstrategy Hnodes first.
  assert (WorkflowDefinition.type node = Task.Compensate) as Htype.
  { cbn in Hnodes. destruct (rev _); [discriminate|]. by injection Hnodes as <- _. }
  cbn in Hnodes.
  destruct (acknowledge stores task workflow transaction HL) as (Hack & Hfind & Hfresh).
  pose proof (compensable_after_failure stores (Workflow.workflowId workflow) task
                (live_fresh _ _ _ _ HL) (live_task _ _ _ _ HL)
                (live_scheduled _ _ _ _ HL)) as Hcompensable.
  cbv zeta in Hcompensable.
  destruct HL. apply Nat.ltb_nlt in Hretries.
  eapply (updateTask_round _ _ _ _ _ _ _ Hack).
  unfold Engine.processUpdateTask; run. rewrite Hfind. run.
  rewrite String.eqb_refl. cbn [negb].
  rewrite bool_decide_eq_false_2 by done.
  cbn [State.isTaskTransitionAllowed impliesInprogress negb]. run.
  rewrite Hretries. unfold acknowledged. run. rewrite live_workflow0. run.
  rewrite live_workflowId0, live_workflow0. run. rewrite live_running0.
  evaluate_includes. run. rewrite Hstrategy. run.
  unfold compensateTasks. rewrite <- live_workflowId0, Hcompensable.
  rewrite Hnodes. run.
  unfold first, firstCompensateTask, compensatingStores, compensatingWorkflow,
    compensateDefinition, compensateTasks, acknowledged.
  run. rewrite <- !live_workflowId0, !Hcompensable. rewrite Hnodes.
  rewrite Htype. reflexivity.
Qed.

(** ... and when there is nothing to compensate: the compensating workflow
    completes at once and the transaction is [Compensated]. *)
Lemma exhausted_round_Compensate_empty (stores : Stores) (task : Task.ITask)
    (workflow : Workflow.IWorkflow) (transaction : Transaction.ITransaction) :
  Live stores task workflow transaction →
  ¬ Task.retries task < Task.retryLimit task →
  WorkflowDefinition.failureStrategy (Workflow.workflowDefinition workflow)
  = State.WorkflowFailureStrategies.Compensate →
  WorkflowDefinition.tasks
    (Workflow.workflowDefinition (compensatingWorkflow task workflow stores)) = [] →
  let compensating := compensatingWorkflow task workflow stores in
  let completedWorkflow :=
    withWorkflowStatus compensating State.WorkflowStates.Completed
      (resolveOutput compensating
         (taskInstances (compensatingStores task workflow stores))) in
  let compensated :=
    Engine.updatedTransaction now transaction State.TransactionStates.Compensated
      JsUndefined in
  updateTask task State.TaskStates.Failed stores
  = (tt,
     mapTransactionInstances (insert (Task.transactionId task) compensated)
       (mapWorkflowInstances (insert (nextId stores) completedWorkflow)
          (compensatingStores task workflow stores)),
     exhaustionEffects task workflow stores
     ++ [ Store WorkflowUpdate; SendEvent (WorkflowEvent completedWorkflow);
          Store TransactionUpdate; SendEvent (TransactionEvent compensated) ]).
Proof.
  intros HL Hretries Hstrategy Hnodes compensating completedWorkflow compensated.
  destruct (acknowledge stores task workflow transaction HL) as (Hack & Hfind & Hfresh).
  pose proof (compensable_after_failure stores (Workflow.workflowId workflow) task
                (live_fresh _ _ _ _ HL) (live_task _ _ _ _ HL)
                (live_scheduled _ _ _ _ HL)) as Hcompensable.
  cbv zeta in Hcompensable. cbn in Hnodes.
  destruct HL. apply Nat.ltb_nlt in Hretries.
  eapply (updateTask_round _ _ _ _ _ _ _ Hack).
  unfold Engine.processUpdateTask; run. rewrite Hfind. run.
  rewrite String.eqb_refl. cbn [negb].
  rewrite bool_decide_eq_false_2 by done.
  cbn [State.isTaskTransitionAllowed impliesInprogress negb]. run.
  rewrite Hretries. unfold acknowledged. run. rewrite live_workflow0. run.
  rewrite live_workflowId0, live_workflow0. run. rewrite live_running0.
  evaluate_includes. run. rewrite Hstrategy. run.
  unfold compensateTasks. rewrite <- live_workflowId0, Hcompensable.
  rewrite Hnodes. run. rewrite lookup_insert_eq. run.
  evaluate_includes. run.
  rewrite live_same_transaction0, live_transaction0. run.
  rewrite live_transaction_running0. evaluate_includes. run.
  unfold completedWorkflow, compensated, compensating, compensatingStores,
    compensatingWorkflow, compensateDefinition, compensateTasks, acknowledged.
  run. rewrite <- !live_workflowId0, ?Hcompensable, ?Hnodes.
  rewrite live_same_transaction0. reflexivity.
Qed.

Lemma first_compensate_task_live (stores : Stores) (task : Task.ITask)
    (workflow : Workflow.IWorkflow) (transaction : Transaction.ITransaction)
    (node : WorkflowDefinition.ITaskNode) :
  Live stores task workflow transaction →
  let first := firstCompensateTask resolveInput task workflow stores node in
  Live (mapTaskInstances (fun tasks => tasks ++ [first])
          (allocated (compensatingStores task workflow stores)))
    first (compensatingWorkflow task workflow stores) transaction.
Proof.
  intros HL first.
  destruct (acknowledge stores task workflow transaction HL) as (_ & _ & Hfresh).
  destruct HL.
  set (failed := withTaskStatus (withTaskStatus task State.TaskStates.Inprogress JsUndefined)
                   State.TaskStates.Failed JsUndefined).
  assert (taskIdsFresh (mapTaskInstances (replaceTask (Task.taskId task) failed)
                          (acknowledged task stores))) as [Hnodup Hbound].
  { apply taskIdsFresh_replace; [reflexivity| |done].
    apply findTask_Some in live_task0 as [_ Hin]. by apply live_fresh0. }
  unfold acknowledged in Hnodup, Hbound. cbn in Hnodup, Hbound.
  assert (∀ t, t ∈ replaceTask (Task.taskId task) failed
                     (replaceTask (Task.taskId task)
                        (withTaskStatus task State.TaskStates.Inprogress JsUndefined)
                        (taskInstances stores)) →
               Task.taskId t ≠ S (nextId stores)) as Hnew.
  { intros t Ht. apply Hbound in Ht. lia. }
  split.
  - split; unfold compensatingStores, acknowledged; cbn.
    + rewrite map_app. apply NoDup_app. split; [exact Hnodup|]. split.
      * intros x Hx [->|[]%elem_of_nil]%elem_of_cons.
        apply list_elem_of_fmap in Hx as (t & Heq & Hin).
        apply (Hnew t Hin). by rewrite <- Heq.
      * apply NoDup_singleton.
    + intros t [Hin|Hin]%elem_of_app.
      * apply Hbound in Hin. lia.
      * apply list_elem_of_singleton in Hin as ->. simpl. lia.
  - unfold compensatingStores, acknowledged. cbn.
    apply findTask_app_fresh; [reflexivity|exact Hnew].
  - reflexivity.
  - unfold compensatingStores. cbn. apply lookup_insert_eq.
  - reflexivity.
  - cbn. lia.
  - reflexivity.
  - reflexivity.
  - unfold compensatingStores, acknowledged. cbn. by rewrite live_same_transaction0.
  - exact live_transaction_running0.
Qed.

End Facts.



(** C1. Under the Compensate strategy, when a live task has no retry left
    and fails, the round marks its workflow [Failed] and then creates one
    workflow instance of type [CompensateWorkflow] whose tasks are
    [Compensate] nodes for the [Completed] tasks of the failed workflow, in
    reverse order, one for each.  When the worker then completes every task
    it is handed, exactly these [Compensate] tasks are dispatched in that
    order, no other workflow is created, and the last round completes the
    compensating workflow and leaves the transaction [Compensated]. *)
Theorem exhausted_task_is_compensated
    (resolveInput : Workflow.IWorkflow → list Task.ITask →
                    WorkflowDefinition.ITaskNode → JsValue)
    (resolveOutput : Workflow.IWorkflow → list Task.ITask → JsValue) (now : Z)
    (stores : Stores) (task : Task.ITask) (workflow : Workflow.IWorkflow)
    (transaction : Transaction.ITransaction) :
  Live stores task workflow transaction →
  ¬ Task.retries task < Task.retryLimit task →
  WorkflowDefinition.failureStrategy (Workflow.workflowDefinition workflow)
  = State.WorkflowFailureStrategies.Compensate →
  let completed :=
    filter (fun t => isCompensable (Workflow.workflowId workflow) t = true)
      (taskInstances stores) in
  NoDup (map Task.taskReferenceName completed) →
  ∃ stores' first rounds rest inprogress failed failedWorkflow compensating
    before completedWorkflow compensated,
    workerRounds resolveInput resolveOutput now
      (State.TaskStates.Failed :: replicate (length completed) State.TaskStates.Completed)
      (Some task) stores
    = (stores', first :: rounds)
    ∧ first
      = [ Store TaskUpdate; SendEvent (TaskEvent inprogress);
          Store TaskUpdate; SendEvent (TaskEvent failed);
          Store WorkflowUpdate; SendEvent (WorkflowEvent failedWorkflow);
          Store WorkflowCreate; SendEvent (WorkflowEvent compensating) ] ++ rest
    ∧ Task.taskReferenceName failed = Task.taskReferenceName task
    ∧ Task.status failed = State.TaskStates.Failed
    ∧ Workflow.workflowId failedWorkflow = Workflow.workflowId workflow
    ∧ Workflow.status failedWorkflow = State.WorkflowStates.Failed
    ∧ Workflow.type compensating = Workflow.CompensateWorkflow
    ∧ Workflow.status compensating = State.WorkflowStates.Running
    ∧ Workflow.transactionId compensating = Task.transactionId task
    ∧ WorkflowDefinition.tasks (Workflow.workflowDefinition compensating)
      = map compensateNode (rev completed)
    ∧ calledTimes WorkflowCreate (concat (first :: rounds)) = 1
    ∧ length rounds = length completed
    ∧ map referenceAndType (dispatched (concat (first :: rounds)))
      = map (fun t => (Task.taskReferenceName t, Task.Compensate)) (rev completed)
    ∧ sentEvents (concat (first :: rounds))
      = before ++ [WorkflowEvent completedWorkflow; TransactionEvent compensated]
    ∧ Workflow.workflowId completedWorkflow = Workflow.workflowId compensating
    ∧ Workflow.type completedWorkflow = Workflow.CompensateWorkflow
    ∧ Workflow.status completedWorkflow = State.WorkflowStates.Completed
    ∧ Transaction.transactionId compensated = Transaction.transactionId transaction
    ∧ Transaction.status compensated = State.TransactionStates.Compensated
    ∧ transactionInstances stores' !! Task.transactionId task = Some compensated.
Proof.
  intros HL Hretries Hstrategy completed Hnodup.
  set (compensating := compensatingWorkflow task workflow stores).
  set (compensated := Engine.updatedTransaction now transaction
                        State.TransactionStates.Compensated JsUndefined).
  assert (WorkflowDefinition.tasks (Workflow.workflowDefinition compensating)
          = map compensateNode (rev completed)) as Htasks by reflexivity.
  assert (map nodeReferenceAndType (map compensateNode (rev completed))
          = map (fun t => (Task.taskReferenceName t, Task.Compensate)) (rev completed))
    as Hnodes by (by rewrite map_map).
  assert (NoDup (map WorkflowDefinition.taskReferenceName
                   (map compensateNode (rev completed)))) as Hnodup'.
  { rewrite map_map. cbn [compensateNode WorkflowDefinition.taskReferenceName].
    rewrite map_rev. by apply NoDup_rev. }
  assert (length completed = length (map compensateNode (rev completed))) as Hlength.
  { by rewrite length_map, length_rev. }
  destruct (map compensateNode (rev completed)) as [|node post] eqn:Hcompensate.
  - pose proof (exhausted_round_Compensate_empty resolveInput resolveOutput now stores task
                  workflow transaction HL Hretries Hstrategy Htasks) as Hround.
    cbv zeta in Hround.
    eexists _, _, [], _, _, _, _, compensating, _, _, compensated.
    split.
    { rewrite Hlength. cbn [length replicate].
      rewrite (workerRounds_round _ _ _ _ _ _ _ _ _ Hround). reflexivity. }
    split; [reflexivity|].
    do 7 (split; [reflexivity || apply HL|]).
    split; [by rewrite Htasks|].
    split; [reflexivity|]. split; [by rewrite Hlength|].
    split; [by rewrite <- Hnodes|].
    split; [cbn [concat]; rewrite app_nil_r, sentEvents_app;
            cbn [sentEvents omap list_omap sentEvent]; reflexivity|].
    do 5 (split; [reflexivity|]).
    cbn. apply lookup_insert_eq.
  - pose proof (exhausted_round_Compensate_first resolveInput resolveOutput now stores task
                  workflow transaction node post HL Hretries Hstrategy Htasks) as Hround.
    pose proof (first_compensate_task_live resolveInput resolveOutput now stores task
                  workflow transaction node HL) as HL1.
    cbv zeta in Hround, HL1.
    destruct (compensation_rounds resolveInput resolveOutput now post [] node _ _ _ _ HL1)
      as (stores' & rounds & before & completedWorkflow & Hrounds & Hlen & Hdispatched
          & Hcreate & Hevents & Hid & Htype & Hstatus & Htransaction);
      [reflexivity|exact Htasks|exact Hnodup'|reflexivity|].
    eexists stores', _, rounds, _, _, _, _, compensating, _, completedWorkflow, compensated.
    split.
    { rewrite Hlength. cbn [length].
      rewrite (workerRounds_round _ _ _ _ _ _ _ _ _ Hround).
      unfold exhaustionEffects.
      cbn [dispatched omap list_omap dispatchedTask app head].
      by rewrite Hrounds. }
    split; [reflexivity|].
    do 7 (split; [reflexivity || apply HL|]).
    split; [by rewrite Htasks|].
    split; [cbn [concat]; rewrite calledTimes_app, Hcreate; reflexivity|].
    split; [by rewrite Hlen, Hlength|].
    split.
    { cbn [concat]. rewrite dispatched_app, map_app, Hdispatched, <- Hnodes.
      reflexivity. }
    split.
    { cbn [concat]. rewrite sentEvents_app, Hevents. by rewrite app_assoc. }
    do 5 (split; [done|]).
    cbn in Htransaction. destruct HL. by rewrite <- live_same_transaction0.
Qed.

(** *** The run of the test *)

Import State.TaskStates.

(** Proves [Live] of closed stores by evaluation. *)
Ltac live_by_evaluation :=
  split;
  [ split;
    [ refine (bool_decide_unpack _ _); vm_compute; exact I
    | apply Forall_forall; vm_compute; repeat constructor ]
  | .. ];
  first [ vm_compute; reflexivity | vm_compute; repeat constructor ].


Lemma t3LastRetry_live (failureStrategy : State.WorkflowFailureStrategies.t) :
  Live (Samples.storesAfter failureStrategy [Completed; Completed; Failed; Failed; Failed])
    Samples.t3LastRetry (Samples.runningWorkflow failureStrategy)
    (Samples.runningTransaction failureStrategy).
Proof. destruct failureStrategy; live_by_evaluation. Qed.



Lemma exhausted_task_is_compensated_witness :
  ∃ stores' rounds compensated,
    workerRounds Samples.resolveInput Samples.resolveOutput 2000
      [Failed; Completed; Completed] (Some Samples.t3LastRetry)
      (Samples.storesAfter State.WorkflowFailureStrategies.Compensate
         [Completed; Completed; Failed; Failed; Failed])
    = (stores', rounds)
    ∧ map referenceAndType (dispatched (concat rounds))
      = [("t2", Task.Compensate); ("t1", Task.Compensate)]
    ∧ calledTimes WorkflowCreate (concat rounds) = 1
    ∧ transactionInstances stores' !! "tx-1" = Some compensated
    ∧ Transaction.status compensated = State.TransactionStates.Compensated.
Proof.
  destruct (exhausted_task_is_compensated
              Samples.resolveInput Samples.resolveOutput 2000
              (Samples.storesAfter State.WorkflowFailureStrategies.Compensate
                 [Completed; Completed; Failed; Failed; Failed])
              Samples.t3LastRetry
              (Samples.runningWorkflow State.WorkflowFailureStrategies.Compensate)
              (Samples.runningTransaction State.WorkflowFailureStrategies.Compensate))
    as (stores' & first & rounds & rest & inprogress & failed & failedWorkflow
        & compensating & before & completedWorkflow & compensated & Hrun & _ & _ & _ & _
        & _ & _ & _ & _ & _ & Hcreate & _ & Hdispatched & _ & _ & _ & _ & _ & Hstatus
        & Hstored).
  - apply t3LastRetry_live.
  - vm_compute. lia.
  - reflexivity.
  - refine (bool_decide_unpack _ _). vm_compute. exact I.
  - exists stores', (first :: rounds), compensated.
    split; [exact Hrun|]. split; [exact Hdispatched|]. repeat split; assumption.
Defined.

End EngineFacts.


(** * Further properties *)

(** ** TransactionInstanceRedisStore: series of calls *)

Module RedisStoreLaws.
Import Js TransactionInstanceRedisStore.

Section Laws.

Variable prefix : string.
Variable TransactionNextStates : State.TransactionStates.t → list State.TransactionStates.t.

Lemma key_eq (a b : string) : key prefix a = key prefix b ↔ a = b.
Proof.
  split; [|by intros ->]. unfold key. intros H.
  apply (String.app_inj prefix) in H.
  by apply (String.app_inj ".transaction.") in H.
Qed.

Lemma key_ne (a b : string) : a ≠ b → key prefix a ≠ key prefix b.
Proof. by rewrite key_eq. Qed.

Lemma get_create (transaction : Transaction.ITransaction) (client : Client)
    (transactionId : string) :
  get prefix transactionId (create prefix transaction client).2
  = match get prefix transactionId client with
    | Some stored => Some stored
    | None =>
        if decide (transactionId = Transaction.transactionId transaction)
        then Some transaction else None
    end.
Proof.
  unfold create, setnx, get.
  destruct (client !! key prefix (Transaction.transactionId transaction)) eqn:Hkey;
    simpl.
  - destruct (client !! key prefix transactionId) eqn:Hid; [done|].
    case_decide as Heq; [|done]. subst. congruence.
  - case_decide as Heq.
    + subst. by rewrite lookup_insert_eq, Hkey.
    + rewrite lookup_insert_ne by (apply key_ne; congruence).
      by destruct (client !! key prefix transactionId).
Qed.

Lemma get_update_ne (now : Z) (u : Event.ITransactionUpdate) (client : Client)
    (transactionId : string) :
  transactionId ≠ Event.transactionId u →
  get prefix transactionId (update prefix TransactionNextStates now u client).2
  = get prefix transactionId client.
Proof.
  intros Hne. unfold update, get.
  destruct (client !! key prefix (Event.transactionId u)) as [stored|]; [|done].
  destruct (negb _); [done|]. simpl.
  by rewrite lookup_insert_ne by (apply key_ne; congruence).
Qed.

Lemma get_delete (transactionId other : string) (client : Client) :
  get prefix other (delete prefix transactionId client)
  = if decide (other = transactionId) then None else get prefix other client.
Proof.
  unfold get, delete. case_decide as Heq.
  - subst. apply lookup_delete_eq.
  - apply lookup_delete_ne, key_ne. congruence.
Qed.

Lemma get_run_ne (call : Call) (client : Client) (transactionId : string) :
  transactionId ≠ target call →
  get prefix transactionId (run prefix TransactionNextStates call client)
  = get prefix transactionId client.
Proof.
  intros Hne. destruct call as [transaction|now u|deleted]; simpl in *.
  - rewrite get_create. destruct (get prefix transactionId client); [done|].
    by rewrite decide_False.
  - by apply get_update_ne.
  - rewrite get_delete. by rewrite decide_False.
Qed.

Lemma update_stored (now : Z) (u : Event.ITransactionUpdate) (client : Client)
    (stored : Transaction.ITransaction) :
  get prefix (Event.transactionId u) client = Some stored →
  Event.status u ∈ TransactionNextStates (Transaction.status stored) →
  update prefix TransactionNextStates now u client
  = (Ok {| Transaction.transactionId := Transaction.transactionId stored;
           Transaction.workflowDefinition := Transaction.workflowDefinition stored;
           Transaction.input := Transaction.input stored;
           Transaction.createTime := Transaction.createTime stored;
           Transaction.status := Event.status u;
           Transaction.output := Event.output u;
           Transaction.endTime :=
             if includes [State.TransactionStates.Completed;
                          State.TransactionStates.Failed] (Event.status u)
             then Some now else None |},
     <[key prefix (Event.transactionId u) :=
         {| Transaction.transactionId := Transaction.transactionId stored;
            Transaction.workflowDefinition := Transaction.workflowDefinition stored;
            Transaction.input := Transaction.input stored;
            Transaction.createTime := Transaction.createTime stored;
            Transaction.status := Event.status u;
            Transaction.output := Event.output u;
            Transaction.endTime :=
              if includes [State.TransactionStates.Completed;
                           State.TransactionStates.Failed] (Event.status u)
              then Some now else None |}]> client).
Proof.
  unfold get, update. intros -> Hin.
  unfold includes at 1. by rewrite bool_decide_eq_true_2.
Qed.

Lemma update_frozen (now : Z) (u : Event.ITransactionUpdate) (client : Client)
    (stored : Transaction.ITransaction) :
  get prefix (Event.transactionId u) client = Some stored →
  TransactionNextStates (Transaction.status stored) = [] →
  (update prefix TransactionNextStates now u client).2 = client.
Proof. unfold get, update. by intros -> ->. Qed.

End Laws.

(** X1. A call of [create], [update] or [delete] for one [transactionId],
    whether it returns or throws, leaves what [get] returns for every other
    [transactionId] as it was; so does a series of calls none of which is
    about that other [transactionId]. *)
Theorem calls_leave_other_transactions
    (prefix : string)
    (TransactionNextStates : State.TransactionStates.t → list State.TransactionStates.t)
    (calls : list Call) (client : Client) (transactionId : string) :
  Forall (fun call => target call ≠ transactionId) calls →
  get prefix transactionId (runAll prefix TransactionNextStates calls client)
  = get prefix transactionId client.
Proof.
  intros Hcalls. revert client.
  induction Hcalls as [|call calls Hcall _ IH]; intros client; [done|].
  simpl. rewrite IH. by apply get_run_ne.
Qed.

Lemma calls_leave_other_transactions_witness :
  get "melonade" "tx-2"
    (runAll "melonade" State.TransactionNextStates
       [ CallUpdate 2000 (Samples.updateTo State.TransactionStates.Completed);
         CallDelete "tx-1";
         CallCreate (Samples.transactionOf State.TransactionStates.Running) ]
       (Samples.clientWith State.TransactionStates.Running))
  = None.
Proof.
  rewrite (calls_leave_other_transactions "melonade" State.TransactionNextStates
             [ CallUpdate 2000 (Samples.updateTo State.TransactionStates.Completed);
               CallDelete "tx-1";
               CallCreate (Samples.transactionOf State.TransactionStates.Running) ]
             (Samples.clientWith State.TransactionStates.Running) "tx-2").
  - vm_compute. reflexivity.
  - repeat constructor; discriminate.
Defined.

(** X2. Whatever series of [create], [update] and [delete] calls is made,
    and whichever of them throw, a client in which every transaction is kept
    under the key of its own [transactionId] stays so. *)
Theorem calls_keep_transactions_under_their_id
    (prefix : string)
    (TransactionNextStates : State.TransactionStates.t → list State.TransactionStates.t)
    (calls : list Call) (client : Client) :
  consistent prefix client →
  consistent prefix (runAll prefix TransactionNextStates calls client).
Proof.
  revert client. induction calls as [|call calls IH]; intros client Hclient; [done|].
  simpl. apply IH. clear IH. intros transactionId transaction.
  destruct (decide (transactionId = target call)) as [->|Hother];
    [|rewrite get_run_ne by done; apply Hclient].
  destruct call as [created|now u|deleted]; simpl.
  - rewrite get_create.
    destruct (get prefix (Transaction.transactionId created) client) eqn:Hget.
    + intros [= <-]. by apply Hclient.
    + rewrite decide_True by done. by intros [= <-].
  - unfold update.
    destruct (client !! key prefix (Event.transactionId u)) as [stored|] eqn:Hget;
      [|by apply Hclient].
    destruct (negb _); [by apply Hclient|]. simpl. unfold get.
    rewrite lookup_insert_eq. intros [= <-]. simpl. by apply Hclient.
  - rewrite get_delete, decide_True by done. discriminate.
Qed.

Lemma calls_keep_transactions_under_their_id_witness :
  consistent "melonade"
    (runAll "melonade" State.TransactionNextStates
       [ CallUpdate 2000 (Samples.updateTo State.TransactionStates.Completed);
         CallCreate (Samples.transactionOf State.TransactionStates.Running) ]
       (Samples.clientWith State.TransactionStates.Running)).
Proof.
  apply (calls_keep_transactions_under_their_id "melonade" State.TransactionNextStates).
  intros transactionId transaction. unfold get, Samples.clientWith.
  intros Hget. apply lookup_singleton_Some in Hget as [Hkey <-].
  apply (proj1 (key_eq "melonade" _ _)) in Hkey. by rewrite <- Hkey.
Defined.

(** X3. A stored transaction whose status has no next state in the
    transition table is frozen: after any series of [create] and [update]
    calls, and of [delete] calls for other transactions, [get] still
    returns it as it was. *)
Theorem transaction_without_next_state_is_frozen
    (prefix : string)
    (TransactionNextStates : State.TransactionStates.t → list State.TransactionStates.t)
    (calls : list Call) (client : Client) (transactionId : string)
    (stored : Transaction.ITransaction) :
  get prefix transactionId client = Some stored →
  TransactionNextStates (Transaction.status stored) = [] →
  Forall (fun call => call ≠ CallDelete transactionId) calls →
  get prefix transactionId (runAll prefix TransactionNextStates calls client)
  = Some stored.
Proof.
  intros Hget Hfrozen Hcalls. revert client Hget.
  induction Hcalls as [|call calls Hcall _ IH]; intros client Hget; [done|].
  simpl. apply IH.
  destruct (decide (transactionId = target call)) as [->|Hother];
    [|by rewrite get_run_ne].
  destruct call as [created|now u|deleted]; simpl in *.
  - by rewrite get_create, Hget.
  - by rewrite (update_frozen _ _ _ _ _ stored).
  - congruence.
Qed.

Lemma transaction_without_next_state_is_frozen_witness :
  get "melonade" "tx-1"
    (runAll "melonade" State.TransactionNextStates
       [ CallUpdate 2000 (Samples.updateTo State.TransactionStates.Running);
         CallCreate (Samples.transactionOf State.TransactionStates.Running);
         CallDelete "tx-2";
         CallUpdate 3000 (Samples.updateTo State.TransactionStates.Failed) ]
       (Samples.clientWith State.TransactionStates.Completed))
  = Some (Samples.transactionOf State.TransactionStates.Completed).
Proof.
  apply (transaction_without_next_state_is_frozen "melonade" State.TransactionNextStates).
  - vm_compute. reflexivity.
  - reflexivity.
  - repeat constructor; discriminate.
Defined.

(** X4. Two updates in a row: when the first status is a next state of the
    stored one and the second a next state of the first, the second call
    returns, and leaves under the key, the stored transaction with the
    status and output of the second update; [endTime] is the clock of the
    second call if that status is [Completed] or [Failed] and [null]
    otherwise.  Nothing of the first update is left, and [transactionId],
    [workflowDefinition], [input] and [createTime] are the stored ones. *)
Theorem update_twice_keeps_the_last
    (prefix : string)
    (TransactionNextStates : State.TransactionStates.t → list State.TransactionStates.t)
    (now1 now2 : Z) (u1 u2 : Event.ITransactionUpdate) (client : Client)
    (stored : Transaction.ITransaction) :
  Event.transactionId u1 = Event.transactionId u2 →
  get prefix (Event.transactionId u1) client = Some stored →
  Event.status u1 ∈ TransactionNextStates (Transaction.status stored) →
  Event.status u2 ∈ TransactionNextStates (Event.status u1) →
  ∃ final,
    update prefix TransactionNextStates now2 u2
      (update prefix TransactionNextStates now1 u1 client).2
    = (Ok final, <[key prefix (Event.transactionId u1) := final]> client)
    ∧ Transaction.status final = Event.status u2
    ∧ Transaction.output final = Event.output u2
    ∧ Transaction.endTime final
      = (if bool_decide (Event.status u2 = State.TransactionStates.Completed
                         ∨ Event.status u2 = State.TransactionStates.Failed)
         then Some now2 else None)
    ∧ Transaction.transactionId final = Transaction.transactionId stored
    ∧ Transaction.workflowDefinition final = Transaction.workflowDefinition stored
    ∧ Transaction.input final = Transaction.input stored
    ∧ Transaction.createTime final = Transaction.createTime stored.
Proof.
  intros Hid Hget Hfirst Hsecond.
  rewrite (update_stored _ _ _ _ _ stored Hget Hfirst). cbn [snd].
  erewrite update_stored; cycle 1.
  - unfold get. rewrite <- Hid. apply lookup_insert_eq.
  - exact Hsecond.
  - cbn [Transaction.transactionId Transaction.workflowDefinition Transaction.input
         Transaction.createTime].
    rewrite <- Hid, insert_insert_eq. eexists. split; [reflexivity|].
    cbn. repeat (split; [done|]). split; [|done].
    unfold includes. destruct (Event.status u2); reflexivity.
Qed.

Lemma update_twice_keeps_the_last_witness :
  ∃ final,
    update "melonade" State.TransactionNextStates 3000
      (Samples.updateTo State.TransactionStates.Completed)
      (update "melonade" State.TransactionNextStates 2000
         (Samples.updateTo State.TransactionStates.Paused)
         (Samples.clientWith State.TransactionStates.Running)).2
    = (Ok final, <[key "melonade" "tx-1" := final]>
                   (Samples.clientWith State.TransactionStates.Running))
    ∧ Transaction.status final = State.TransactionStates.Completed
    ∧ Transaction.endTime final = Some 3000%Z
    ∧ Transaction.createTime final = 1000%Z.
Proof.
  destruct (update_twice_keeps_the_last "melonade" State.TransactionNextStates 2000 3000
              (Samples.updateTo State.TransactionStates.Paused)
              (Samples.updateTo State.TransactionStates.Completed)
              (Samples.clientWith State.TransactionStates.Running)
              (Samples.transactionOf State.TransactionStates.Running))
    as (final & Hupdate & Hstatus & _ & HendTime & _ & _ & _ & HcreateTime).
  - reflexivity.
  - vm_compute. reflexivity.
  - vm_compute. repeat constructor.
  - vm_compute. repeat constructor.
  - exists final. repeat split; assumption.
Defined.




End RedisStoreLaws.

(** ** workflowDefinition.ts: what the constructor reports *)

Module ValidatorLaws.
Import Js workflowDefinition.

Lemma counts_refl (r : TasksValidateOutput) : counts 0 [] r r.
Proof. split; simpl; [done | lia]. Qed.

Lemma counts_eq (count count' : nat) (names : list string) (r r' : TasksValidateOutput) :
  count = count' → counts count names r r' → counts count' names r r'.
Proof. by intros ->. Qed.

Lemma counts_trans (count count' : nat) (names names' : list string)
    (r1 r2 r3 : TasksValidateOutput) :
  counts count names r1 r2 → counts count' names' r2 r3 →
  counts (count + count') (names ++ names') r1 r3.
Proof.
  intros [Hseen Hcount] [Hseen' Hcount']. split.
  - by rewrite Hseen', Hseen, fold_left_app.
  - rewrite Hcount', Hcount, Hseen, DuplicateFacts.duplicates_app. lia.
Qed.

Lemma counts_pushIf (count : nat) (names : list string) (condition : bool)
    (message : string) (r r' : TasksValidateOutput) :
  counts count names r r' →
  counts (count + (if condition then 1 else 0)) names r (pushIf condition message r').
Proof.
  intros [Hseen Hcount]. destruct condition; simpl.
  - split; [done|]. simpl. rewrite length_app, Hcount. simpl. lia.
  - split; [done|]. rewrite Hcount. lia.
Qed.

Lemma counts_test (count : nat) (message key : string) (r r' : TasksValidateOutput) :
  counts count [] r r' →
  counts count [key] r
    (if truthyProperty (taskReferenceNames r') key
     then push message r' else remember key r').
Proof.
  unfold counts. cbn [fold_left duplicates]. unfold see.
  intros [Hseen Hcount]. rewrite <- Hseen.
  destruct (truthyProperty _ _); cbn [push remember errors taskReferenceNames];
    (split; [done|]).
  - rewrite length_app, Hcount. simpl. lia.
  - lia.
Qed.

Lemma reduceFrom_counts {A} (count : A → nat) (names : A → list string)
    (callback : TasksValidateOutput → A → nat → TasksValidateOutput) (l : list A) :
  Forall (fun x => ∀ r index, counts (count x) (names x) r (callback r x index)) l →
  ∀ index r,
    counts (sum_list_with count l) (flat_map names l) r (reduceFrom callback index r l).
Proof.
  induction 1 as [|x l Hx _ IH]; intros index r; simpl.
  - apply counts_refl.
  - eapply counts_trans; [apply Hx | apply IH].
Qed.

Lemma fold_left_counts {A} (count : A → nat) (names : A → list string)
    (callback : TasksValidateOutput → A → TasksValidateOutput) (l : list A) :
  Forall (fun x => ∀ r, counts (count x) (names x) r (callback r x)) l →
  ∀ r, counts (sum_list_with count l) (flat_map names l) r (fold_left callback l r).
Proof.
  induction 1 as [|x l Hx _ IH]; intros r; simpl.
  - apply counts_refl.
  - eapply counts_trans; [apply Hx | apply IH].
Qed.

Section Laws.

Variable isValidName : string → bool.
Variable isValidRev : JsValue → bool.

Lemma validateNode_counts (task : AllTaskType) (currentRoot : string)
    (r : TasksValidateOutput) :
  counts ((if isValidName (name (base task)) then 0 else 1)
          + (if isValidName (taskReferenceName (base task)) then 0 else 1)
          + (match task with Other _ _ => 1 | _ => 0 end))
    [taskReferenceName (base task)] r (validateNode isValidName task currentRoot r).
Proof.
  unfold validateNode.
  eapply counts_eq; [|apply counts_pushIf, counts_test, counts_pushIf, counts_pushIf,
                       counts_refl].
  destruct (isValidName (name (base task))),
    (isValidName (taskReferenceName (base task))), task; reflexivity.
Qed.

Lemma validateTasksWith_counts
    (reducer : AllTaskType → string → TasksValidateOutput → TasksValidateOutput)
    (tasks : list AllTaskType) (root : string) (r : TasksValidateOutput) :
  Forall (fun task => ∀ currentRoot r,
            counts (faults isValidName isValidRev task) (referenceNames task) r
              (reducer task currentRoot r)) tasks →
  counts (sum_list_with (faults isValidName isValidRev) tasks)
    (flat_map referenceNames tasks) r (validateTasksWith reducer tasks root r).
Proof.
  intros Htasks. unfold validateTasksWith, reduce. apply reduceFrom_counts.
  eapply Forall_impl; [exact Htasks|]. intros task Htask r0 index. apply Htask.
Qed.

(** The validation of a node reports each of its faults, and of the faults
    of the nodes under it, once. *)
Lemma validateTask_counts (task : AllTaskType) :
  ∀ currentRoot r,
    counts (faults isValidName isValidRev task) (referenceNames task) r
      (validateTask isValidName isValidRev task currentRoot r).
Proof.
  induction task as [b|b lanes IH|b w|b decisions dflt IHd IHdflt|b ty]
    using AllTaskType_nested_ind; intros currentRoot r;
    cbn [validateTask referenceNames faults].
  - eapply counts_eq; [|apply validateNode_counts]. unfold nodeFaults. simpl. lia.
  - eapply counts_eq;
      [|eapply (counts_trans _ _ [_] _ _
                 (validateNode isValidName (Parallel b lanes) currentRoot r));
        [apply validateNode_counts|]].
    2:{ apply (reduceFrom_counts (sum_list_with (faults isValidName isValidRev))
                 (flat_map referenceNames)).
        eapply Forall_impl; [exact IH|]. intros lane Hlane r0 index.
        by apply validateTasksWith_counts. }
    unfold nodeFaults. simpl. lia.
  - eapply counts_eq; [|apply counts_pushIf, counts_pushIf, validateNode_counts].
    unfold nodeFaults. simpl.
    destruct (isValidWorkflowName _ _), (isValidWorkflowRev _ _); simpl; lia.
  - eapply counts_eq;
      [|eapply (counts_trans _ _ [_] _ _
                 (pushIf (match dflt with [] => true | _ => false end)
                    (currentRoot +:+ ".defaultDecision cannot be empty")
                    (validateNode isValidName (Decision b decisions dflt) currentRoot r)));
        [apply counts_pushIf, validateNode_counts|];
        eapply counts_trans; [by apply validateTasksWith_counts|];
        apply (fold_left_counts
                 (fun decision => sum_list_with (faults isValidName isValidRev) decision.2)
                 (fun decision => flat_map referenceNames decision.2));
        eapply Forall_impl; [exact IHd|]; intros [decision tasks] Htasks r0;
        by apply validateTasksWith_counts].
    unfold nodeFaults. destruct dflt; simpl; lia.
  - eapply counts_eq; [|apply validateNode_counts]. unfold nodeFaults. simpl. lia.
Qed.

(** From the result [workflowValidation] starts it with, the validation of
    the tasks of a definition counts their faults and puts their reference
    names through the test. *)
Lemma validateTasks_counts (d : IWorkflowDefinition) :
  counts (sum_list_with (faults isValidName isValidRev) (tasks d))
    (definitionReferenceNames d)
    {| errors := workflowValidation isValidName isValidRev d;
       taskReferenceNames := ∅ |}
    (validateTasksResult isValidName isValidRev d).
Proof.
  unfold validateTasksResult, validateTasks. apply validateTasksWith_counts.
  apply Forall_forall. intros task _. apply validateTask_counts.
Qed.


Lemma elem_of_pushIf (x : string) (condition : bool) (message : string)
    (r : TasksValidateOutput) :
  x ∈ errors (pushIf condition message r)
  ↔ x ∈ errors r ∨ (condition = true ∧ x = message).
Proof.
  destruct condition; simpl.
  - rewrite elem_of_app, list_elem_of_singleton. tauto.
  - split; [by left|]. by intros [H|[[=] _]].
Qed.

Lemma adds_keeps (prefix x : string) (r r' : TasksValidateOutput) :
  adds prefix r r' → x ∈ errors r → x ∈ errors r'.
Proof. intros (added & -> & _) Hx. apply elem_of_app. by left. Qed.

Lemma validateTask_keeps (task : AllTaskType) (currentRoot x : string)
    (r : TasksValidateOutput) :
  x ∈ errors r → x ∈ errors (validateTask isValidName isValidRev task currentRoot r).
Proof. apply (adds_keeps currentRoot), ValidationFacts.validateTask_adds. Qed.

Lemma validateTasksWith_keeps (tasks : list AllTaskType) (root x : string)
    (r : TasksValidateOutput) :
  x ∈ errors r →
  x ∈ errors (validateTasksWith (validateTask isValidName isValidRev) tasks root r).
Proof.
  apply (adds_keeps (root +:+ ".tasks[")).
  apply (ValidationFacts.validateTasks_adds isValidName isValidRev).
Qed.

Lemma reduceFrom_keeps {A} (x : string)
    (callback : TasksValidateOutput → A → nat → TasksValidateOutput) (l : list A) :
  (∀ r y index, x ∈ errors r → x ∈ errors (callback r y index)) →
  ∀ index r, x ∈ errors r → x ∈ errors (reduceFrom callback index r l).
Proof.
  intros Hkeeps. induction l as [|y l IH]; intros index r Hx; simpl; [done|].
  by apply IH, Hkeeps.
Qed.

Lemma fold_left_keeps {A} (x : string)
    (callback : TasksValidateOutput → A → TasksValidateOutput) (l : list A) :
  (∀ r y, x ∈ errors r → x ∈ errors (callback r y)) →
  ∀ r, x ∈ errors r → x ∈ errors (fold_left callback l r).
Proof.
  intros Hkeeps. induction l as [|y l IH]; intros r Hx; simpl; [done|].
  by apply IH, Hkeeps.
Qed.

(** What the callback reports for the element at [index], whatever it is
    given, is in the result of the whole reduction. *)
Lemma reduceFrom_reports {A} (x : string)
    (callback : TasksValidateOutput → A → nat → TasksValidateOutput) (l : list A)
    (index : nat) (y : A) :
  (∀ r y index, x ∈ errors r → x ∈ errors (callback r y index)) →
  l !! index = Some y →
  ∀ first r,
    (∀ r, x ∈ errors (callback r y (first + index))) →
    x ∈ errors (reduceFrom callback first r l).
Proof.
  intros Hkeeps. revert index.
  induction l as [|z l IH]; intros [|index] Hy first r Hreports; simplify_eq/=.
  - apply reduceFrom_keeps; [done|]. rewrite Nat.add_0_r in Hreports. apply Hreports.
  - apply (IH index Hy). intros r0. rewrite Nat.add_succ_comm. apply Hreports.
Qed.

Lemma fold_left_reports {A} (x : string)
    (callback : TasksValidateOutput → A → TasksValidateOutput) (l : list A) (y : A) :
  (∀ r y, x ∈ errors r → x ∈ errors (callback r y)) →
  y ∈ l →
  (∀ r, x ∈ errors (callback r y)) →
  ∀ r, x ∈ errors (fold_left callback l r).
Proof.
  intros Hkeeps Hy Hreports. induction l as [|z l IH]; intros r; simpl.
  - by apply elem_of_nil in Hy.
  - apply elem_of_cons in Hy as [->|Hy].
    + apply fold_left_keeps; [done | apply Hreports].
    + by apply IH.
Qed.

Lemma validateTasksWith_reports (tasks : list AllTaskType) (root x : string)
    (index : nat) (task : AllTaskType) :
  tasks !! index = Some task →
  (∀ r, x ∈ errors (validateTask isValidName isValidRev task
                      (root +:+ ".tasks[" +:+ pretty index +:+ "]") r)) →
  ∀ r, x ∈ errors (validateTasksWith (validateTask isValidName isValidRev) tasks root r).
Proof.
  intros Htask Hreports r. unfold validateTasksWith, reduce.
  apply (reduceFrom_reports x _ tasks index task); [|done|done].
  intros r0 y i. apply validateTask_keeps.
Qed.

(** What the switch on the type of the node and the recursion add comes
    after what [validateNode] reported. *)
Lemma validateTask_after_node (task : AllTaskType) (currentRoot x : string)
    (r : TasksValidateOutput) :
  x ∈ errors (validateNode isValidName task currentRoot r) →
  x ∈ errors (validateTask isValidName isValidRev task currentRoot r).
Proof.
  intros Hx. destruct task as [b|b lanes|b w|b decisions dflt|b ty];
    cbn [validateTask]; try done.
  - apply reduceFrom_keeps; [|done]. intros r0 lane index.
    apply validateTasksWith_keeps.
  - rewrite !elem_of_pushIf. tauto.
  - apply fold_left_keeps; [by intros r0 [decision tasks]; apply validateTasksWith_keeps|].
    apply validateTasksWith_keeps. rewrite elem_of_pushIf. tauto.
Qed.

Lemma validateTask_reports_node (task : AllTaskType) (currentRoot x : string)
    (r : TasksValidateOutput) :
  x ∈ nodeErrors isValidName isValidRev task currentRoot →
  x ∈ errors (validateTask isValidName isValidRev task currentRoot r).
Proof.
  unfold nodeErrors. rewrite !elem_of_app. intros [Hx|[Hx|[Hx|Hx]]].
  - apply validateTask_after_node. unfold validateNode.
    destruct (isValidName (name (base task))); [by apply elem_of_nil in Hx|].
    apply list_elem_of_singleton in Hx as ->.
    rewrite elem_of_pushIf. left.
    assert (∀ r0 : TasksValidateOutput,
              currentRoot +:+ ".name is invalid" ∈ errors r0 →
              currentRoot +:+ ".name is invalid"
              ∈ errors (if truthyProperty (taskReferenceNames r0)
                             (taskReferenceName (base task))
                        then push (currentRoot +:+ ".taskReferenceName is duplicated") r0
                        else remember (taskReferenceName (base task)) r0)) as Htest.
    { intros r0 H0. destruct (truthyProperty _ _); simpl; [|done].
      apply elem_of_app. by left. }
    apply Htest. rewrite elem_of_pushIf. left. simpl.
    apply elem_of_app. right. by apply list_elem_of_singleton.
  - apply validateTask_after_node. unfold validateNode.
    destruct (isValidName (taskReferenceName (base task))); [by apply elem_of_nil in Hx|].
    apply list_elem_of_singleton in Hx as ->.
    rewrite elem_of_pushIf. left.
    destruct (truthyProperty _ _); simpl.
    + apply elem_of_app. left. apply elem_of_app. right. by apply list_elem_of_singleton.
    + apply elem_of_app. right. by apply list_elem_of_singleton.
  - apply validateTask_after_node. unfold validateNode.
    destruct task; try by apply elem_of_nil in Hx.
    apply list_elem_of_singleton in Hx as ->.
    rewrite elem_of_pushIf. by right.
  - destruct task as [b|b lanes|b w|b decisions dflt|b ty];
      try by apply elem_of_nil in Hx.
    + cbn [validateTask]. rewrite !elem_of_pushIf.
      apply elem_of_app in Hx as [Hx|Hx].
      * destruct (isValidWorkflowName isValidName w); [by apply elem_of_nil in Hx|].
        apply list_elem_of_singleton in Hx as ->. tauto.
      * destruct (isValidWorkflowRev isValidRev w); [by apply elem_of_nil in Hx|].
        apply list_elem_of_singleton in Hx as ->. tauto.
    + destruct dflt; [|by apply elem_of_nil in Hx].
      apply list_elem_of_singleton in Hx as ->.
      cbn [validateTask].
      apply fold_left_keeps; [by intros r0 [decision tasks]; apply validateTasksWith_keeps|].
      apply validateTasksWith_keeps. rewrite elem_of_pushIf. by right.
Qed.

(** A fault of a node is reported at the path of the node, wherever the
    node is under the one validated. *)
Lemma validateTask_reports (currentRoot path : string) (task node : AllTaskType) :
  nodeIn currentRoot task path node →
  ∀ x, x ∈ nodeErrors isValidName isValidRev node path →
  ∀ r, x ∈ errors (validateTask isValidName isValidRev task currentRoot r).
Proof.
  induction 1 as [currentRoot task
                 |currentRoot b decisions dflt index child path node Hchild _ IH
                 |currentRoot b decisions dflt decision tasks index child path node
                    Hdecision Hchild _ IH
                 |currentRoot b lanes lane tasks index child path node Hlane Hchild _ IH];
    intros x Hx r.
  - by apply validateTask_reports_node.
  - cbn [validateTask].
    apply fold_left_keeps; [by intros r0 [decision tasks]; apply validateTasksWith_keeps|].
    apply (validateTasksWith_reports dflt _ x index child Hchild). by apply IH.
  - cbn [validateTask].
    apply (fold_left_reports x _ decisions (decision, tasks)); [|done|].
    + intros r0 [decision' tasks']. apply validateTasksWith_keeps.
    + intros r0. apply (validateTasksWith_reports tasks _ x index child Hchild).
      by apply IH.
  - cbn [validateTask]. unfold reduce.
    apply (reduceFrom_reports x _ lanes lane tasks); [|done|].
    + intros r0 lane' index'. apply validateTasksWith_keeps.
    + intros r0. apply (validateTasksWith_reports tasks _ x index child Hchild).
      by apply IH.
Qed.

Lemma addsOnly_refl (P : string → Prop) (r : TasksValidateOutput) : addsOnly P r r.
Proof. exists []. by rewrite app_nil_r. Qed.

Lemma addsOnly_trans (P : string → Prop) (r1 r2 r3 : TasksValidateOutput) :
  addsOnly P r1 r2 → addsOnly P r2 r3 → addsOnly P r1 r3.
Proof.
  intros (a1 & H1 & F1) (a2 & H2 & F2). exists (a1 ++ a2). split.
  - by rewrite H2, H1, app_assoc.
  - by apply Forall_app.
Qed.

Lemma addsOnly_weaken (P Q : string → Prop) (r r' : TasksValidateOutput) :
  (∀ x, P x → Q x) → addsOnly P r r' → addsOnly Q r r'.
Proof.
  intros HPQ (added & H & F). exists added. split; [done|].
  eapply Forall_impl; [exact F | exact HPQ].
Qed.

Lemma addsOnly_pushIf (P : string → Prop) (condition : bool) (message : string)
    (r r' : TasksValidateOutput) :
  (condition = true → P message) → addsOnly P r r' →
  addsOnly P r (pushIf condition message r').
Proof.
  intros Hmessage Hr. eapply addsOnly_trans; [exact Hr|].
  destruct condition; [|apply addsOnly_refl].
  exists [message]. split; [done|]. repeat constructor. by apply Hmessage.
Qed.

Lemma addsOnly_test (P : string → Prop) (message key : string)
    (r r' : TasksValidateOutput) :
  P message → addsOnly P r r' →
  addsOnly P r (if truthyProperty (taskReferenceNames r') key
                then push message r' else remember key r').
Proof.
  intros Hmessage Hr. eapply addsOnly_trans; [exact Hr|].
  destruct (truthyProperty _ _).
  - exists [message]. split; [done|]. by repeat constructor.
  - exists []. simpl. by rewrite app_nil_r.
Qed.

Lemma reduceFrom_addsOnly {A} (P : string → Prop)
    (callback : TasksValidateOutput → A → nat → TasksValidateOutput) (l : list A) :
  ∀ first,
    (∀ index y, l !! index = Some y →
       ∀ r, addsOnly P r (callback r y (first + index))) →
    ∀ r, addsOnly P r (reduceFrom callback first r l).
Proof.
  induction l as [|z l IH]; intros first Hl r; simpl; [apply addsOnly_refl|].
  eapply addsOnly_trans.
  - specialize (Hl 0 z eq_refl r). by rewrite Nat.add_0_r in Hl.
  - apply IH. intros index y Hy r0. rewrite Nat.add_succ_comm. by apply Hl.
Qed.

Lemma fold_left_addsOnly {A} (P : string → Prop)
    (callback : TasksValidateOutput → A → TasksValidateOutput) (l : list A) :
  (∀ y, y ∈ l → ∀ r, addsOnly P r (callback r y)) →
  ∀ r, addsOnly P r (fold_left callback l r).
Proof.
  induction l as [|z l IH]; intros Hl r; simpl; [apply addsOnly_refl|].
  eapply addsOnly_trans; [apply Hl, list_elem_of_here|].
  apply IH. intros y Hy. apply Hl. by apply list_elem_of_further.
Qed.

Lemma validateNode_explained (task : AllTaskType) (currentRoot : string)
    (r : TasksValidateOutput) :
  addsOnly (reportedAt isValidName isValidRev currentRoot task) r
    (validateNode isValidName task currentRoot r).
Proof.
  unfold validateNode, reportedAt, nodeErrors.
  apply addsOnly_pushIf.
  { intros Htype. left. destruct task; try discriminate.
    rewrite !elem_of_app. right. right. left. by apply list_elem_of_singleton. }
  apply addsOnly_test; [by right|].
  apply addsOnly_pushIf.
  { intros Hname. apply negb_true_iff in Hname. rewrite Hname. left.
    rewrite !elem_of_app. right. left. by apply list_elem_of_singleton. }
  apply addsOnly_pushIf; [|apply addsOnly_refl].
  intros Hname. apply negb_true_iff in Hname. rewrite Hname. left.
  rewrite !elem_of_app. left. by apply list_elem_of_singleton.
Qed.

Lemma validateTasksWith_explained (tasks : list AllTaskType) (root : string)
    (r : TasksValidateOutput) :
  Forall (fun task => ∀ currentRoot r,
            addsOnly (fun x => ∃ path node,
                        nodeIn currentRoot task path node
                        ∧ reportedAt isValidName isValidRev path node x)
              r (validateTask isValidName isValidRev task currentRoot r)) tasks →
  addsOnly (fun x => ∃ path node,
              nodeAt root tasks path node
              ∧ reportedAt isValidName isValidRev path node x)
    r (validateTasksWith (validateTask isValidName isValidRev) tasks root r).
Proof.
  intros Htasks. unfold validateTasksWith, reduce. apply reduceFrom_addsOnly.
  intros index task Htask r0. simpl.
  rewrite Forall_lookup in Htasks.
  eapply addsOnly_weaken; [|apply (Htasks index task Htask)].
  intros x (path & node & Hnode & Hx). exists path, node. split; [|done].
  by exists index, task.
Qed.

(** Every error the validation of a node adds is about the node or about a
    node under it, and carries the path of that node. *)
Lemma validateTask_explained (task : AllTaskType) :
  ∀ currentRoot r,
    addsOnly (fun x => ∃ path node,
                nodeIn currentRoot task path node
                ∧ reportedAt isValidName isValidRev path node x)
      r (validateTask isValidName isValidRev task currentRoot r).
Proof.
  assert (∀ task currentRoot r,
            addsOnly (fun x => ∃ path node,
                        nodeIn currentRoot task path node
                        ∧ reportedAt isValidName isValidRev path node x)
              r (validateNode isValidName task currentRoot r)) as Hnode.
  { intros task0 currentRoot r.
    eapply addsOnly_weaken; [|apply validateNode_explained].
    intros x Hx. exists currentRoot, task0. split; [constructor | done]. }
  induction task as [b|b lanes IH|b w|b decisions dflt IHd IHdflt|b ty]
    using AllTaskType_nested_ind; intros currentRoot r; cbn [validateTask].
  - apply Hnode.
  - eapply addsOnly_trans; [apply Hnode|].
    unfold reduce. apply reduceFrom_addsOnly. intros lane tasks Hlane r0. simpl.
    rewrite Forall_lookup in IH.
    eapply addsOnly_weaken; [|apply validateTasksWith_explained, (IH lane tasks Hlane)].
    intros x (path & node & (index & child & Hchild & Hin) & Hx).
    exists path, node. split; [|done].
    by apply (nodeIn_parallelTasks _ _ _ lane tasks index child).
  - assert (∀ x, x ∈ nodeErrors isValidName isValidRev (SubWorkflow b w) currentRoot →
                 ∃ path node, nodeIn currentRoot (SubWorkflow b w) path node
                              ∧ reportedAt isValidName isValidRev path node x) as Hsub.
    { intros x Hx. exists currentRoot, (SubWorkflow b w).
      split; [constructor | by left]. }
    apply addsOnly_pushIf.
    { intros Hrev. apply negb_true_iff in Hrev. apply Hsub.
      unfold nodeErrors. rewrite Hrev, !elem_of_app.
      do 4 right. by apply list_elem_of_singleton. }
    apply addsOnly_pushIf; [|apply Hnode].
    intros Hname. apply negb_true_iff in Hname. apply Hsub.
    unfold nodeErrors. rewrite Hname, !elem_of_app.
    do 3 right. left. by apply list_elem_of_singleton.
  - eapply addsOnly_trans; cycle 1.
    { apply fold_left_addsOnly. intros [decision tasks] Hdecision r0.
      rewrite Forall_forall in IHd.
      eapply addsOnly_weaken;
        [|apply validateTasksWith_explained, (IHd (decision, tasks) Hdecision)].
      intros x (path & node & (index & child & Hchild & Hin) & Hx).
      exists path, node. split; [|done].
      by apply (nodeIn_decisions _ _ _ _ decision tasks index child). }
    eapply addsOnly_trans; cycle 1.
    { eapply addsOnly_weaken; [|by apply validateTasksWith_explained].
      intros x (path & node & (index & child & Hchild & Hin) & Hx).
      exists path, node. split; [|done].
      by apply (nodeIn_defaultDecision _ _ _ _ index child). }
    apply addsOnly_pushIf; [|apply Hnode].
    intros Hempty. destruct dflt; [|discriminate].
    exists currentRoot, (Decision b decisions []). split; [constructor|]. left.
    unfold nodeErrors. rewrite !elem_of_app.
    do 3 right. by apply list_elem_of_singleton.
  - apply Hnode.
Qed.

End Laws.

(** X7. The constructor reports every fault once: the number of errors it
    collects is the number of errors of [workflowValidation], plus the
    number of faults of the nodes (invalid name, reference name or type,
    empty default branch, invalid sub-workflow name or revision), wherever
    they are nested, plus the number of times the test for a duplicated
    reference name fires. *)
Theorem errors_are_counted_once (isValidName : string → bool)
    (isValidRev : JsValue → bool) (d : IWorkflowDefinition) :
  length (errors (validateTasksResult isValidName isValidRev d))
  = (length (workflowValidation isValidName isValidRev d)
     + sum_list_with (faults isValidName isValidRev) (tasks d)
     + duplicates ∅ (definitionReferenceNames d))%nat.
Proof.
  destruct (validateTasks_counts isValidName isValidRev d) as [_ Hcount].
  exact Hcount.
Qed.


(** X9. A fault of a node (an invalid name, reference name or type, an
    empty default branch, an invalid sub-workflow name or revision) is
    reported under the path of that node, however deep the node is in the
    branches of Decision nodes and the lanes of Parallel nodes, and the
    constructor throws. *)
Theorem faults_are_reported_at_their_path (isValidName : string → bool)
    (isValidRev : JsValue → bool) (d : IWorkflowDefinition) (path : string)
    (node : AllTaskType) (x : string) :
  nodeAt "workflowDefinition" (tasks d) path node →
  x ∈ nodeErrors isValidName isValidRev node path →
  x ∈ errors (validateTasksResult isValidName isValidRev d)
  ∧ ∃ message, WorkflowDefinition isValidName isValidRev d = Throw message.
Proof.
  intros (index & task & Htask & Hnode) Hx.
  assert (x ∈ errors (validateTasksResult isValidName isValidRev d)) as Hreported.
  { unfold validateTasksResult, validateTasks.
    apply (validateTasksWith_reports isValidName isValidRev _ _ x index task Htask).
    by apply (validateTask_reports isValidName isValidRev _ path task node). }
  split; [done|]. unfold WorkflowDefinition.
  destruct (errors (validateTasksResult isValidName isValidRev d));
    [by apply elem_of_nil in Hreported | eauto].
Qed.

Lemma faults_are_reported_at_their_path_witness :
  "workflowDefinition.tasks[1].decisions[" +:+ quote +:+ "yes" +:+ quote
    +:+ "].tasks[1].parallelTasks[1].tasks[0].type is invalid"
  ∈ errors (validateTasksResult isValidName isValidRev Samples.deepFault)
  ∧ ∃ message, WorkflowDefinition isValidName isValidRev Samples.deepFault = Throw message.
Proof.
  apply (faults_are_reported_at_their_path isValidName isValidRev Samples.deepFault
           ("workflowDefinition.tasks[1].decisions[" +:+ quote +:+ "yes" +:+ quote
              +:+ "].tasks[1].parallelTasks[1].tasks[0]")
           (Other (Samples.baseTask "t4" "t4") "LAMBDA")).
  - eexists 1%nat, _. split; [reflexivity|].
    eapply (nodeIn_decisions _ _ _ _ "yes" _ 1%nat); [apply list_elem_of_here | reflexivity|].
    eapply (nodeIn_parallelTasks _ _ _ 1%nat _ 0%nat); [reflexivity | reflexivity|].
    vm_compute. apply nodeIn_self.
  - vm_compute. apply list_elem_of_here.
Defined.

(** X10. Every error the constructor collects is accounted for: the errors
    of [workflowValidation] come first, and each error after them is about a
    node of the definition and carries the path of that node: it is one of
    the faults of that node, or says that its reference name is
    duplicated. *)
Theorem errors_are_about_nodes (isValidName : string → bool)
    (isValidRev : JsValue → bool) (d : IWorkflowDefinition) :
  ∃ added,
    errors (validateTasksResult isValidName isValidRev d)
    = workflowValidation isValidName isValidRev d ++ added
    ∧ Forall (fun x => ∃ path node,
                nodeAt "workflowDefinition" (tasks d) path node
                ∧ reportedAt isValidName isValidRev path node x) added.
Proof.
  unfold validateTasksResult, validateTasks.
  apply (validateTasksWith_explained isValidName isValidRev (tasks d) "workflowDefinition"
           {| errors := workflowValidation isValidName isValidRev d;
              taskReferenceNames := ∅ |}).
  apply Forall_forall. intros task _. apply validateTask_explained.
Qed.

(** X14. What the constructor returns is the definition it was given, with
    the description [No description] where it had none; the description
    plays no part in the validation, so that the constructor, given what it
    returned, returns it again unchanged. *)
Theorem constructor_returns_a_fixed_point (isValidName : string → bool)
    (isValidRev : JsValue → bool) (d accepted : IWorkflowDefinition) :
  WorkflowDefinition isValidName isValidRev d = Ok accepted →
  description accepted = Some (default "No description" (description d))
  ∧ workflowDefinition_name accepted = workflowDefinition_name d
  ∧ rev accepted = rev d
  ∧ tasks accepted = tasks d
  ∧ failureStrategy accepted = failureStrategy d
  ∧ retry accepted = retry d
  ∧ recoveryWorkflow accepted = recoveryWorkflow d
  ∧ WorkflowDefinition isValidName isValidRev accepted = Ok accepted.
Proof.
  unfold WorkflowDefinition at 1.
  destruct (errors (validateTasksResult isValidName isValidRev d)) eqn:Herrors;
    [|discriminate].
  intros [= <-]. repeat (split; [reflexivity|]).
  unfold WorkflowDefinition.
  change (validateTasksResult isValidName isValidRev _)
    with (validateTasksResult isValidName isValidRev d).
  by rewrite Herrors.
Qed.

Lemma constructor_returns_a_fixed_point_witness :
  ∃ accepted,
    WorkflowDefinition isValidName isValidRev Samples.undescribed = Ok accepted
    ∧ description accepted = Some "No description"
    ∧ WorkflowDefinition isValidName isValidRev accepted = Ok accepted.
Proof.
  eexists. split; [vm_compute; reflexivity|].
  destruct (constructor_returns_a_fixed_point isValidName isValidRev Samples.undescribed
              _ eq_refl) as (Hdescription & _ & _ & _ & _ & _ & _ & Hagain).
  split; [exact Hdescription | exact Hagain].
Defined.

Lemma ordinary_names_duplicated_iff_witness :
  duplicatedErrors (validateTasksResult isValidName isValidRev Samples.deepFault) = []
  ↔ NoDup (definitionReferenceNames Samples.deepFault).
Proof.
  apply (DuplicateFacts.ordinary_names_duplicated_iff isValidName isValidRev
           Samples.deepFault).
  repeat constructor; try discriminate;
    apply (bool_decide_eq_false_1 _); vm_compute; reflexivity.
Defined.

End ValidatorLaws.

(** ** bootstrap.ts *)

Module BootstrapFacts.
Import Js bootstrap.

Section Facts.

Variable ZooKeeper : string.
Variable MongoDB : string.

Ltac switch type supported :=
  destruct (String.eqb type supported) eqn:?;
  [match goal with H : String.eqb _ _ = true |- _ => apply String.eqb_eq in H end
  |match goal with H : String.eqb _ _ = false |- _ => apply String.eqb_neq in H end].

Lemma bootstrap_cases (config : Config) :
  (supported ZooKeeper MongoDB config
   ∧ bootstrap ZooKeeper MongoDB config
     = (Ok tt,
        clients config
        ++ (if enabled (server config)
            then [NewServer (port (server config)) (hostname (server config)) true]
            else [])
        ++ [StateExecutor; SystemTaskExecutor; CommandExecutor]))
  ∨ (¬ supported ZooKeeper MongoDB config
     ∧ ∃ message count,
         bootstrap ZooKeeper MongoDB config = (Throw message, take count (clients config))
         ∧ (count < 5)%nat).
Proof.
  unfold bootstrap, supported, setWorkflowDefinitionStore, setTaskDefinitionStore,
    setTransactionInstanceStore, setWorkflowInstanceStore, setTaskInstanceStore, openServer.
  switch (definitionStore_type (workflowDefinitionStoreConfig config)) ZooKeeper;
    [|right; split; [tauto|]; eexists _, 0%nat; split; [reflexivity | lia]].
  switch (definitionStore_type (taskDefinitionStoreConfig config)) ZooKeeper;
    [|right; split; [tauto|]; eexists _, 1%nat; split; [reflexivity | lia]].
  switch (instanceStore_type (transactionInstanceStoreConfig config)) MongoDB;
    [|right; split; [tauto|]; eexists _, 2%nat; split; [reflexivity | lia]].
  switch (instanceStore_type (workflowInstanceStoreConfig config)) MongoDB;
    [|right; split; [tauto|]; eexists _, 3%nat; split; [reflexivity | lia]].
  switch (instanceStore_type (taskInstanceStoreConfig config)) MongoDB;
    [|right; split; [tauto|]; eexists _, 4%nat; split; [reflexivity | lia]].
  left. split; [tauto|]. by destruct (enabled (server config)).
Qed.

End Facts.

(** X11. The script gets through exactly when the two definition stores
    are configured as ZooKeeper and the three instance stores as MongoDB.
    It has then given each of the five stores its client, in the order of the
    script, opened the server if and only if it is enabled, and started the
    state, system-task and command executors, in that order and after
    everything else. *)
Theorem bootstrap_gets_through_iff (ZooKeeper MongoDB : string) (config : Config) :
  ((bootstrap ZooKeeper MongoDB config).1 = Ok tt ↔ supported ZooKeeper MongoDB config)
  ∧ (supported ZooKeeper MongoDB config →
     (bootstrap ZooKeeper MongoDB config).2
     = clients config
       ++ (if enabled (server config)
           then [NewServer (port (server config)) (hostname (server config)) true]
           else [])
       ++ [StateExecutor; SystemTaskExecutor; CommandExecutor]).
Proof.
  destruct (bootstrap_cases ZooKeeper MongoDB config)
    as [[Hsupported ->]|[Hnot (message & count & -> & _)]]; simpl.
  - by split.
  - split; [split; [discriminate | tauto] | tauto].
Qed.

Lemma bootstrap_gets_through_iff_witness :
  (bootstrap "ZOOKEEPER" "MONGODB"
     (Samples.configOf "ZOOKEEPER" "MONGODB" "MONGODB" "MONGODB")).2
  = clients (Samples.configOf "ZOOKEEPER" "MONGODB" "MONGODB" "MONGODB")
    ++ [NewServer 8080 "127.0.0.1" true; StateExecutor; SystemTaskExecutor;
        CommandExecutor].
Proof.
  apply (proj2 (bootstrap_gets_through_iff "ZOOKEEPER" "MONGODB"
                  (Samples.configOf "ZOOKEEPER" "MONGODB" "MONGODB" "MONGODB"))).
  repeat split.
Defined.



(** X13. The error thrown for the task-instance store is labelled as the one
    for the workflow-instance store: with the four stores before it
    configured as the script expects and a task-instance store of another
    type, the script throws [WorkflowInstance Store: <type> is invalid], the
    message it throws for a workflow-instance store of that type, although
    the workflow-instance store has been given its client. *)
Theorem taskInstance_error_names_workflowInstance (ZooKeeper MongoDB : string)
    (config : Config) :
  definitionStore_type (workflowDefinitionStoreConfig config) = ZooKeeper →
  definitionStore_type (taskDefinitionStoreConfig config) = ZooKeeper →
  instanceStore_type (transactionInstanceStoreConfig config) = MongoDB →
  instanceStore_type (workflowInstanceStoreConfig config) = MongoDB →
  instanceStore_type (taskInstanceStoreConfig config) ≠ MongoDB →
  bootstrap ZooKeeper MongoDB config
  = (Throw ("WorkflowInstance Store: "
            +:+ instanceStore_type (taskInstanceStoreConfig config) +:+ " is invalid"),
     take 4 (clients config))
  ∧ (setWorkflowInstanceStore MongoDB config).1 = Ok tt.
Proof.
  intros Hwd Htd Htx Hwf Htask.
  unfold bootstrap, setWorkflowDefinitionStore, setTaskDefinitionStore,
    setTransactionInstanceStore, setWorkflowInstanceStore, setTaskInstanceStore.
  rewrite Hwd, Htd, Htx, Hwf, !String.eqb_refl.
  apply String.eqb_neq in Htask. by rewrite Htask.
Qed.

Lemma taskInstance_error_names_workflowInstance_witness :
  bootstrap "ZOOKEEPER" "MONGODB"
    (Samples.configOf "ZOOKEEPER" "MONGODB" "MONGODB" "MEMORY")
  = (Throw "WorkflowInstance Store: MEMORY is invalid",
     take 4 (clients (Samples.configOf "ZOOKEEPER" "MONGODB" "MONGODB" "MEMORY"))).
Proof.
  apply (taskInstance_error_names_workflowInstance "ZOOKEEPER" "MONGODB"
           (Samples.configOf "ZOOKEEPER" "MONGODB" "MONGODB" "MEMORY"));
    try reflexivity.
  discriminate.
Defined.

End BootstrapFacts.
